(** * Module execution and orchestration engine of the scraper extension

    A shallow embedding of the service worker's module system
    (modules/base-module.js, modules/module-manager.js, background.js and the
    concrete module classes) together with the properties the specification
    states about it.

    Conventions of the embedding.
    - A JavaScript computation that may throw is a state transformer returning
      an [Outcome]: [Ok v] for a normal completion (a resolved promise) and
      [Threw msg] for a thrown [Error] whose [message] is [msg] (a rejected
      promise).  State changes made before a throw persist, as in JavaScript.
    - [await] is sequencing.  The code is single threaded; what other event
      handlers may do while a run is suspended is made explicit where a
      property depends on it (see [interleaved] below).
    - [console.log] calls and the fire-and-forget debug [fetch] calls of
      module-manager.js have no influence on any value computed and are left
      out, except for the console output of the registry functions.
    - Counts of things (array lengths, rows, positions) are integers ([Z],
      [nat]).  The numbers the license summary reads off the page with
      [parseInt] and adds up are binary64 values ([Number.t]), and the
      quotient rounded with [Math.round] is computed on binary64 floats. *)

From Stdlib Require Import ZArith String Ascii List Lia DecimalString.
From Stdlib Require PrimFloat FloatOps SpecFloat Uint63.
From stdpp Require Import gmap strings list fin_maps.

Open Scope string_scope.
Open Scope list_scope.
Set Warnings "-register-all".

(** ** Outcomes and the state-and-exception monad *)

Inductive Outcome (A : Type) : Type :=
| Ok (a : A)
| Threw (message : string).
Arguments Ok {A} a.
Arguments Threw {A} message.

Definition M (S A : Type) : Type := S → Outcome A * S.

Definition ret {S A : Type} (a : A) : M S A := λ s, (Ok a, s).

Definition bind {S A B : Type} (m : M S A) (k : A → M S B) : M S B :=
  λ s, match m s with
       | (Ok a, s') => k a s'
       | (Threw e, s') => (Threw e, s')
       end.

Definition throw {S A : Type} (e : string) : M S A := λ s, (Threw e, s).

(** [try { m } catch (error) { h error.message }] *)
Definition try_catch {S A : Type} (m : M S A) (h : string → M S A) : M S A :=
  λ s, match m s with
       | (Ok a, s') => (Ok a, s')
       | (Threw e, s') => h e s'
       end.

Definition gets {S A : Type} (f : S → A) : M S A := λ s, (Ok (f s), s).
Definition modify {S : Type} (f : S → S) : M S unit := λ s, (Ok tt, f s).

Declare Scope js_scope.
Delimit Scope js_scope with js.
Notation "x <- c1 ;; c2" := (bind c1 (λ x, c2))
  (at level 100, c1 at next level, right associativity) : js_scope.
Notation "c1 ;; c2" := (bind c1 (λ _, c2))
  (at level 100, right associativity) : js_scope.
Open Scope js_scope.

(** ** JavaScript values

    The values that cross the module boundary (what [scrape] resolves with,
    what [getJsonPayload] returns, progress updates) are JSON-like trees. *)

Inductive JsValue : Type :=
| JsUndefined
| JsNull
| JsBoolean (b : bool)
| JsNumber (n : Z)
| JsString (s : string)
| JsArray (items : list JsValue)
| JsObject (fields : list (string * JsValue)).

(** [s || d] for a string [s]: the empty string is falsy. *)
Definition orDefault (s d : string) : string :=
  match s with
  | EmptyString => d
  | _ => s
  end.

(** [s || d] for a string-valued property that may be absent: [undefined]
    is falsy too. *)
Definition js_or (s : option string) (d : string) : string :=
  match s with
  | Some s' => orDefault s' d
  | None => d
  end.

(** ** The module contract (modules/base-module.js)

    [W] is the part of the world the modules act on: the browser tab, the
    rendered page, the clock and the private fields of the module objects.
    A module never receives anything but the execution context, so its
    methods are transformers of [W] alone. *)

Record ExecutionContext : Type := {
  tabId : Z;
  customerName : string
}.

(** The verdict [validate] resolves with: [{ valid, message? }]. *)
Record Validation : Type := {
  valid : bool;
  message : option string
}.

(** A call of [scrape(enrichedContext)].  While it runs, the module may call
    [context.progressCallback(update)] any number of times; the call returns
    or throws into the module's own code, which goes on from there.
    Eventually the promise settles and leaves the world in some state. *)
Inductive Scrape (W : Type) : Type :=
| ScrapeSettled (o : Outcome JsValue) (w : W)
| ScrapeProgress (update : JsValue) (k : Outcome unit → Scrape W).
Arguments ScrapeSettled {W} o w.
Arguments ScrapeProgress {W} update k.

(** The members of a module object that the Module Manager uses.
    [getFilename] is a constant of every class of the repository;
    [getJsonPayload] and [getDateFormat] are looked up with
    [typeof ... === 'function'], hence optional. *)
Record Module (W : Type) : Type := {
  name : string;
  initialize : M W unit;
  validate : M W Validation;
  scrape : ExecutionContext → W → Scrape W;
  formatData : JsValue → M W string;
  getJsonPayload : option (JsValue → M W JsValue);
  getFilename : string;
  getDateFormat : option string
}.
Arguments name {W} _.
Arguments initialize {W} _.
Arguments validate {W} _.
Arguments scrape {W} _.
Arguments formatData {W} _.
Arguments getJsonPayload {W} _.
Arguments getFilename {W} _.
Arguments getDateFormat {W} _.

(** A module instance is an object: it has an identity, and its mutable
    field [isEnabled] lives in the store [Enabled] below, so that two ids
    registered with the same instance share the flag. *)
Record Instance (W : Type) : Type := {
  oid : positive;
  self : Module W
}.
Arguments oid {W} _.
Arguments self {W} _.

(** The instances whose [isEnabled] field is [true]. *)
Abbreviation Enabled := (gset positive).

Definition isEnabled {W} (m : Instance W) (h : Enabled) : bool :=
  bool_decide (oid m ∈ h).
Definition enable {W} (m : Instance W) (h : Enabled) : Enabled := {[oid m]} ∪ h.
Definition disable {W} (m : Instance W) (h : Enabled) : Enabled := h ∖ {[oid m]}.

(** ** The registry (modules/module-manager.js) *)

Inductive ConsoleLine : Type :=
| console_log (text : string)
| console_warn (text : string).

(** The fields of a [ModuleManager], the [isEnabled] flags of the module
    objects and the console.  [modules] is a JavaScript [Map]; the only
    iteration over it, in [enableModules], clears a flag per value, so the
    iteration order is immaterial. *)
Record ModuleManager (W : Type) : Type := {
  modules : gmap string (Instance W);
  executionOrder : list string;
  flags : Enabled;
  console : list ConsoleLine
}.
Arguments modules {W} _.
Arguments executionOrder {W} _.
Arguments flags {W} _.
Arguments console {W} _.

Definition constructor {W} : ModuleManager W :=
  {| modules := ∅; executionOrder := []; flags := ∅; console := [] |}.

Definition registerModule {W} (id : string) (moduleInstance : Instance W)
    (this : ModuleManager W) : ModuleManager W :=
  let warned :=
    if decide (is_Some (modules this !! id))
    then [console_warn ("Module " +:+ id +:+ " is already registered. Overwriting...")]
    else [] in
  {| modules := <[id := moduleInstance]> (modules this);
     executionOrder := executionOrder this;
     flags := flags this;
     console := console this ++ warned
                  ++ [console_log ("[ModuleManager] Registered module: " +:+ id)] |}.

(** [this.modules.get(id) || null]: an instance is an object, hence truthy. *)
Definition getModule {W} (id : string) (this : ModuleManager W) : option (Instance W) :=
  modules this !! id.

(** The second loop of [enableModules]: [order] is [this.executionOrder]. *)
Fixpoint enableSelected {W} (reg : gmap string (Instance W)) (moduleIds : list string)
    (order : list string) (h : Enabled) (out : list ConsoleLine)
    : list string * Enabled * list ConsoleLine :=
  match moduleIds with
  | [] => (order, h, out)
  | id :: rest =>
      match reg !! id with
      | Some module =>
          enableSelected reg rest (order ++ [id]) (enable module h)
            (out ++ [console_log ("[ModuleManager] Enabled module: " +:+ id)])
      | None =>
          enableSelected reg rest order h
            (out ++ [console_warn ("[ModuleManager] Module not found: " +:+ id)])
      end
  end.

Definition enableModules {W} (moduleIds : list string) (this : ModuleManager W)
    : ModuleManager W :=
  let disabled :=
    foldr (λ entry h, disable entry.2 h) (flags this) (map_to_list (modules this)) in
  let '(order, h, out) :=
    enableSelected (modules this) moduleIds [] disabled (console this) in
  {| modules := modules this; executionOrder := order; flags := h; console := out |}.

Fixpoint collectEnabled {W} (reg : gmap string (Instance W)) (h : Enabled)
    (order : list string) : list (string * Instance W) :=
  match order with
  | [] => []
  | id :: rest =>
      match reg !! id with
      | Some module =>
          if isEnabled module h
          then (id, module) :: collectEnabled reg h rest
          else collectEnabled reg h rest
      | None => collectEnabled reg h rest
      end
  end.

Definition getEnabledModules {W} (this : ModuleManager W) : list (string * Instance W) :=
  collectEnabled (modules this) (flags this) (executionOrder this).

(** [this.modules.has(id)] *)
Definition registered {W} (reg : gmap string (Instance W)) (id : string) : Prop :=
  is_Some (reg !! id).

(** ** The orchestrator ([executeEnabledModules], modules/module-manager.js)

    [C] is the state of the caller, the only thing the two callbacks act on
    (for background.js: the extraction job with its [cancelled] flag, the
    messages sent to the popup and the downloads). *)

Record ModuleResult : Type := {
  moduleId : string;
  moduleName : string;
  data : string;
  filename : string;
  success : bool;
  error : option string;
  rawData : option JsValue;
  jsonPayload : JsValue;
  dateFormat : option string
}.

(** What the progress callback is called with: the start notification built
    by the manager, or an update forwarded unchanged from a module. *)
Inductive ProgressUpdate : Type :=
| MODULE_STARTED (moduleId moduleName : string) (current total : nat)
| Forwarded (progressUpdate : JsValue).

(** The places where the run calls back into the caller.  Each call comes
    after at least one [await] of the run, during which other handlers of the
    service worker (a cancel request, for one) may have changed the caller's
    state. *)
Inductive CallSite : Type :=
| AtStart (current : nat)
| AtProgress (current : nat) (nth : nat)
| AtCompletion (current : nat).

(** The state of one run: the world, the caller's state and the local
    array [results]. *)
Record Run (W C : Type) : Type := {
  world : W;
  caller : C;
  results : list ModuleResult
}.
Arguments world {W C} _.
Arguments caller {W C} _.
Arguments results {W C} _.

Definition liftW {W C A} (m : M W A) : M (Run W C) A :=
  λ s, let '(o, w) := m (world s) in
       (o, {| world := w; caller := caller s; results := results s |}).

Definition liftC {W C A} (m : M C A) : M (Run W C) A :=
  λ s, let '(o, c) := m (caller s) in
       (o, {| world := world s; caller := c; results := results s |}).

Definition push {W C} (result : ModuleResult) : M (Run W C) unit :=
  modify (λ s, {| world := world s; caller := caller s;
                  results := results s ++ [result] |}).

(** The result object of the [try] block. *)
Definition successResult {W} (id : string) (module : Module W)
    (data : JsValue) (formattedData : string) (jsonPayload : JsValue) : ModuleResult :=
  {| moduleId := id;
     moduleName := name module;
     data := formattedData;
     filename := getFilename module;
     success := true;
     error := None;
     rawData := Some data;
     jsonPayload := jsonPayload;
     dateFormat := getDateFormat module |}.

(** The result object of the [catch] block; [message] is [error.message]. *)
Definition failureResult {W} (id : string) (module : Module W) (message : string)
    : ModuleResult :=
  {| moduleId := id;
     moduleName := name module;
     data := "Error: " +:+ message;
     filename := getFilename module;
     success := false;
     error := Some message;
     rawData := None;
     jsonPayload := JsObject [("error", JsString message)];
     dateFormat := getDateFormat module |}.

(** [payload] is what the manager takes as the structured payload of [data]:
    the value of [module.getJsonPayload(data)], or [data] itself when the
    module has no such method. *)
Definition StructuredPayload {W} (module : Module W) (data payload : JsValue) : Prop :=
  match getJsonPayload module with
  | Some f => ∃ w w', f data w = (Ok payload, w')
  | None => payload = data
  end.

Section Orchestrator.
Context {W C : Type}.

(** [await delay(ms)]: the world after [ms] milliseconds have passed. *)
Variable delay : Z → W → W.

(** What other handlers do to the caller's state before each call site. *)
Variable interleaved : CallSite → C → C.

Variable context : ExecutionContext.
Variable progressCallback : option (ProgressUpdate → M C unit).
Variable completionCallback : option (ModuleResult → M C unit).

Definition atSite (site : CallSite) : M (Run W C) unit :=
  modify (λ s, {| world := world s; caller := interleaved site (caller s);
                  results := results s |}).

(** [if (progressCallback) progressCallback(update)], at the start of a
    module and as the body of [enrichedContext.progressCallback]. *)
Definition notify (update : ProgressUpdate) : M C unit :=
  match progressCallback with
  | Some callback => callback update
  | None => ret tt
  end.

(** [await module.scrape(enrichedContext)], the call being [t]. *)
Fixpoint awaitScrape (current nth : nat) (t : Scrape W) : M (Run W C) JsValue :=
  match t with
  | ScrapeSettled o w =>
      λ s, (o, {| world := w; caller := caller s; results := results s |})
  | ScrapeProgress update k =>
      λ s, let '(r, c) := notify (Forwarded update)
                            (interleaved (AtProgress current nth) (caller s)) in
           awaitScrape current (S nth) (k r)
             {| world := world s; caller := c; results := results s |}
  end.

Definition tryBlock (id : string) (module : Module W) (current total : nat)
    : M (Run W C) unit :=
  atSite (AtStart current) ;;
  liftC (notify (MODULE_STARTED id (name module) current total)) ;;
  liftW (initialize module) ;;
  validation <- liftW (validate module) ;;
  (if valid validation then ret tt
   else throw (js_or (message validation) "Module validation failed")) ;;
  data <- (λ s, awaitScrape current 0 (scrape module context (world s)) s) ;;
  formattedData <- liftW (formatData module data) ;;
  jsonPayload <- match getJsonPayload module with
                 | Some f => liftW (f data)
                 | None => ret data
                 end ;;
  let result := successResult id module data formattedData jsonPayload in
  push result ;;
  atSite (AtCompletion current) ;;
  match completionCallback with
  | Some callback => try_catch (liftC (callback result)) (λ cbError, ret tt)
  | None => ret tt
  end.

(** The [try] block in two parts: the steps before [results.push], which
    gather the raw data, the report and the payload, and the rest. *)
Definition gather (id : string) (module : Module W) (current total : nat)
    : M (Run W C) (JsValue * string * JsValue) :=
  atSite (AtStart current) ;;
  liftC (notify (MODULE_STARTED id (name module) current total)) ;;
  liftW (initialize module) ;;
  validation <- liftW (validate module) ;;
  (if valid validation then ret tt
   else throw (js_or (message validation) "Module validation failed")) ;;
  data <- (λ s, awaitScrape current 0 (scrape module context (world s)) s) ;;
  formattedData <- liftW (formatData module data) ;;
  jsonPayload <- match getJsonPayload module with
                 | Some f => liftW (f data)
                 | None => ret data
                 end ;;
  ret (data, formattedData, jsonPayload).

Definition deliver (result : ModuleResult) (current : nat) : M (Run W C) unit :=
  push result ;;
  atSite (AtCompletion current) ;;
  match completionCallback with
  | Some callback => try_catch (liftC (callback result)) (λ cbError, ret tt)
  | None => ret tt
  end.

Definition catchBlock (id : string) (module : Module W) (current : nat)
    (message : string) : M (Run W C) unit :=
  let result := failureResult id module message in
  push result ;;
  atSite (AtCompletion current) ;;
  match completionCallback with
  | Some callback => liftC (callback result)
  | None => ret tt
  end.

(** The [for ... of enabledModules] loop; [current] counts the modules
    already handled. *)
Fixpoint forEachModule (enabledModules : list (string * Instance W))
    (current total : nat) : M (Run W C) unit :=
  match enabledModules with
  | [] => ret tt
  | (id, module) :: rest =>
      let current := S current in
      try_catch (tryBlock id (self module) current total)
                (catchBlock id (self module) current) ;;
      liftW (modify (delay 500)) ;;
      forEachModule rest current total
  end.

(** [result] is a result object the manager builds for [module]: the
    one of the [catch] block for some message, or the one of the [try]
    block for a value [scrape] resolved with, the report [formatData]
    returned for it and its structured payload. *)
Definition Constructed (id : string) (module : Module W) (current : nat)
    (result : ModuleResult) : Prop :=
  (∃ message, result = failureResult id module message)
  ∨ (∃ data formattedData payload,
       result = successResult id module data formattedData payload
       ∧ (∃ s s', awaitScrape current 0 (scrape module context (world s)) s
                  = (Ok data, s'))
       ∧ (∃ w w', formatData module data w = (Ok formattedData, w'))
       ∧ StructuredPayload module data payload).

(** A computation that leaves the array [results] as it is. *)
Definition keeps {A} (m : M (Run W C) A) : Prop :=
  ∀ s, results (m s).2 = results s.

(** The promise returned by [executeEnabledModules]: the result list when
    it resolves, and the world and the caller's state it leaves. *)
Definition executeEnabledModules (this : ModuleManager W) (w : W) (c : C)
    : Outcome (list ModuleResult) * W * C :=
  let enabledModules := getEnabledModules this in
  let total := length enabledModules in
  let '(o, s) := (forEachModule enabledModules 0 total ;; gets results)
                   {| world := w; caller := c; results := [] |} in
  (o, world s, caller s).

End Orchestrator.

(** *** Notions used to state the properties of a run *)

(** A callback that returns normally whatever it is called with. *)
Definition neverThrows {C A : Type} (callback : option (A → M C unit)) : Prop :=
  ∀ f, callback = Some f → ∀ a c, ∃ c', f a c = (Ok tt, c').

(** A completion callback that returns normally on every failure result. *)
Definition toleratesFailures {C : Type}
    (callback : option (ModuleResult → M C unit)) : Prop :=
  ∀ f, callback = Some f → ∀ r c, success r = false → ∃ c', f r c = (Ok tt, c').

(** What a call of [scrape] settles with, and the world it leaves, when each
    of its calls of [context.progressCallback] returns normally. *)
Fixpoint settle {W} (t : Scrape W) : Outcome JsValue * W :=
  match t with
  | ScrapeSettled o w => (o, w)
  | ScrapeProgress _ k => settle (k (Ok tt))
  end.

(** One of the steps [initialize], [validate], [scrape] of [module], started
    in world [w], fails with message [message] and leaves the world [w'];
    the steps before it have completed normally. *)
Inductive StepFails {W} (context : ExecutionContext) (module : Module W) (w : W)
    : string → W → Prop :=
| initialize_throws message w1 :
    initialize module w = (Threw message, w1) →
    StepFails context module w message w1
| validate_throws message w1 w2 :
    initialize module w = (Ok tt, w1) →
    validate module w1 = (Threw message, w2) →
    StepFails context module w message w2
| validate_invalid validation w1 w2 :
    initialize module w = (Ok tt, w1) →
    validate module w1 = (Ok validation, w2) →
    valid validation = false →
    StepFails context module w
      (js_or (message validation) "Module validation failed") w2
| scrape_throws validation message w1 w2 w3 :
    initialize module w = (Ok tt, w1) →
    validate module w1 = (Ok validation, w2) →
    valid validation = true →
    settle (scrape module context w2) = (Threw message, w3) →
    StepFails context module w message w3.


(** The [try] block of one module over the world alone, for callbacks that
    return normally: the raw data, the report and the payload, or the
    message thrown. *)
Definition moduleOutcome {W} (context : ExecutionContext) (module : Module W)
    : M W (JsValue * string * JsValue) :=
  initialize module ;;
  validation <- validate module ;;
  (if valid validation then ret tt
   else throw (js_or (message validation) "Module validation failed")) ;;
  data <- (λ w, settle (scrape module context w)) ;;
  formattedData <- formatData module data ;;
  jsonPayload <- match getJsonPayload module with
                 | Some f => f data
                 | None => ret data
                 end ;;
  ret (data, formattedData, jsonPayload).

Definition resultOf {W} (context : ExecutionContext) (id : string)
    (module : Module W) (w : W) : ModuleResult * W :=
  match moduleOutcome context module w with
  | (Ok (data, formattedData, jsonPayload), w') =>
      (successResult id module data formattedData jsonPayload, w')
  | (Threw message, w') => (failureResult id module message, w')
  end.

(** The results of running the modules of [enabledModules] one after the
    other from world [w], with the delay between them, and the world left. *)
Fixpoint runAll {W} (delay : Z → W → W) (context : ExecutionContext)
    (enabledModules : list (string * Instance W)) (w : W) : list ModuleResult * W :=
  match enabledModules with
  | [] => ([], w)
  | (id, module) :: rest =>
      let '(result, w1) := resultOf context id (self module) w in
      let '(others, w2) := runAll delay context rest (delay 500%Z w1) in
      (result :: others, w2)
  end.

(** ** The caller: the extraction job of background.js

    [startExtraction] creates the job, enables the selected modules and calls
    [executeEnabledModules] with the two callbacks below; [cancelExtraction]
    is run by the message listener on a CANCEL_EXTRACTION message. *)

Module Background.

Record Job : Type := {
  moduleIds : list string;
  job_customerName : string;
  job_tabId : Z;
  cancelled : bool
}.

(** Messages handed to [chrome.runtime.sendMessage] by the callbacks. *)
Inductive PopupMessage : Type :=
| Progress (progress : ProgressUpdate)
| MODULE_COMPLETED (moduleId moduleName : string) (success : option bool)
    (filename : string) (current total : nat)
| MODULE_ERROR (moduleId moduleName error : string).

(** The globals of the service worker that the callbacks reach, the local
    [completedCount] of [startExtraction] they close over, and the messages
    sent so far. *)
Record State : Type := {
  isExtractionActive : bool;
  currentExtractionJob : option Job;
  completedCount : nat;
  sent : list PopupMessage
}.

Definition setJob (j : option Job) (active : bool) (b : State) : State :=
  {| isExtractionActive := active; currentExtractionJob := j;
     completedCount := completedCount b; sent := sent b |}.

Definition cancelExtraction (b : State) : State :=
  match currentExtractionJob b with
  | Some job =>
      setJob (Some {| moduleIds := moduleIds job;
                      job_customerName := job_customerName job;
                      job_tabId := job_tabId job;
                      cancelled := true |}) false b
  | None => setJob None false b
  end.

(** [currentExtractionJob?.cancelled], as a condition. *)
Definition jobCancelled (b : State) : bool :=
  match currentExtractionJob b with
  | Some job => cancelled job
  | None => false
  end.

(** [sendMessageToPopup]: a failed delivery is caught and logged. *)
Definition sendMessageToPopup (message : PopupMessage) : M State unit :=
  modify (λ b, {| isExtractionActive := isExtractionActive b;
                  currentExtractionJob := currentExtractionJob b;
                  completedCount := completedCount b;
                  sent := sent b ++ [message] |}).

Definition incrementCompleted : M State unit :=
  modify (λ b, {| isExtractionActive := isExtractionActive b;
                  currentExtractionJob := currentExtractionJob b;
                  completedCount := S (completedCount b);
                  sent := sent b |}).

Section Callbacks.
(** [JSON.stringify] of the payload followed by
    [await chrome.downloads.download({ url, filename: filepath, ... })];
    either may throw. *)
Variable download : string → JsValue → M State Z.
Variable folderName : string.
Variable totalModules : nat.

Definition progressCallback (progress : ProgressUpdate) : M State unit :=
  isCancelled <- gets jobCancelled ;;
  if isCancelled then ret tt else sendMessageToPopup (Progress progress).

(** [result.jsonPayload != null ? result.jsonPayload
                                 : { error: result.error || 'Unknown' }] *)
Definition payloadOf (result : ModuleResult) : JsValue :=
  match jsonPayload result with
  | JsNull | JsUndefined =>
      JsObject [("error", JsString (js_or (error result) "Unknown"))]
  | payload => payload
  end.

Definition completionCallback (result : ModuleResult) : M State unit :=
  isCancelled <- gets jobCancelled ;;
  if isCancelled then ret tt
  else
    incrementCompleted ;;
    count <- gets completedCount ;;
    if String.eqb (moduleId result) "login-history" then
      sendMessageToPopup
        (MODULE_COMPLETED (moduleId result) (moduleName result)
           (Some (success result)) "N/A (CSV download only)" count totalModules)
    else
      let filename := filename result +:+ ".json" in
      let filepath := folderName +:+ "/" +:+ filename in
      try_catch
        (download filepath (payloadOf result) ;;
         sendMessageToPopup
           (MODULE_COMPLETED (moduleId result) (moduleName result) None
              filename count totalModules))
        (λ downloadError,
           sendMessageToPopup
             (MODULE_ERROR (moduleId result) (moduleName result) downloadError)).
End Callbacks.

End Background.

(** ** Strings

    The string methods the modules use, on ASCII text. *)

Definition LF : string := String (ascii_of_nat 10) "".
Definition TAB : string := String (ascii_of_nat 9) "".

(** The white space class [\s], restricted to ASCII. *)
Definition isWhiteSpace (c : ascii) : bool :=
  let n := nat_of_ascii c in
  (Nat.leb 9 n && Nat.leb n 13) || Nat.eqb n 32.

Definition lowerChar (c : ascii) : ascii :=
  let n := nat_of_ascii c in
  if Nat.leb 65 n && Nat.leb n 90 then ascii_of_nat (n + 32) else c.

Definition upperChar (c : ascii) : ascii :=
  let n := nat_of_ascii c in
  if Nat.leb 97 n && Nat.leb n 122 then ascii_of_nat (n - 32) else c.

Fixpoint mapChars (f : ascii → ascii) (s : string) : string :=
  match s with
  | EmptyString => EmptyString
  | String c rest => String (f c) (mapChars f rest)
  end.

Definition toLowerCase : string → string := mapChars lowerChar.
Definition toUpperCase : string → string := mapChars upperChar.

(** [s.replace(/\s+/g, sep)]: every maximal run of white space becomes one
    [sep]; [inRun] tells that the previous character was white space. *)
Fixpoint replaceWhiteSpaceRuns (sep : string) (inRun : bool) (s : string) : string :=
  match s with
  | EmptyString => EmptyString
  | String c rest =>
      if isWhiteSpace c then
        if inRun then replaceWhiteSpaceRuns sep true rest
        else sep +:+ replaceWhiteSpaceRuns sep true rest
      else String c (replaceWhiteSpaceRuns sep false rest)
  end.

Fixpoint trimStart (s : string) : string :=
  match s with
  | String c rest => if isWhiteSpace c then trimStart rest else s
  | EmptyString => EmptyString
  end.

Fixpoint trimEnd (s : string) : string :=
  match s with
  | EmptyString => EmptyString
  | String c rest =>
      match trimEnd rest with
      | EmptyString => if isWhiteSpace c then EmptyString else String c EmptyString
      | kept => String c kept
      end
  end.

Definition trim (s : string) : string := trimEnd (trimStart s).

(** [s.repeat(n)] *)
Fixpoint repeatString (s : string) (n : nat) : string :=
  match n with
  | O => EmptyString
  | S n' => s +:+ repeatString s n'
  end.

Definition decimal (n : Z) : string := NilZero.string_of_int (Z.to_int n).

(** [items.join(separator)] for an array of strings. *)
Fixpoint join (separator : string) (items : list string) : string :=
  match items with
  | [] => ""
  | [item] => item
  | item :: rest => item +:+ separator +:+ join separator rest
  end.

(** [s.includes(part)] *)
Fixpoint includes (part s : string) : bool :=
  String.prefix part s
  || match s with
     | EmptyString => false
     | String _ rest => includes part rest
     end.

(** [s.replace(/,/g, '')] *)
Fixpoint removeCommas (s : string) : string :=
  match s with
  | EmptyString => EmptyString
  | String c rest =>
      if Ascii.eqb c "," then removeCommas rest else String c (removeCommas rest)
  end.

Definition isDigit (c : ascii) : bool :=
  let n := nat_of_ascii c in Nat.leb 48 n && Nat.leb n 57.

(** The value of the longest prefix of decimal digits of [s], after the
    digits read so far, whose value is [acc]; [None] when there is none. *)
Fixpoint leadingDigits (acc : option Z) (s : string) : option Z :=
  match s with
  | String c rest =>
      if isDigit c then
        leadingDigits
          (Some (10 * default 0%Z acc + Z.of_nat (nat_of_ascii c - 48))%Z) rest
      else acc
  | EmptyString => acc
  end.

(** *** Numbers

    The numbers of the license summary are results of [parseInt] and sums
    of them: integers that are binary64 values, the infinities and [NaN]
    (the sum of the two infinities).  [Int z] stands for the binary64
    value [z]; no negative zero arises, a sum of opposite numbers being
    [+0]. *)
Module Number.

Inductive t : Type :=
| Int (z : Z)
| Infinity (negative : bool)
| NaN.

(** The Number value for the integer [z]: [z] itself up to 2^53 in
    absolute value, and beyond that the nearest binary64 value, the one
    with an even significand when two are equally near, or an infinity
    when it does not fit. *)
Definition ofMathInt (z : Z) : t :=
  if (Z.abs z <=? 2 ^ 53)%Z then Int z
  else
    match SpecFloat.binary_normalize 53 1024 z 0 false with
    | SpecFloat.S754_finite negative m e =>
        Int ((if negative then -1 else 1) * Z.shiftl (Z.pos m) e)
    | SpecFloat.S754_infinity negative => Infinity negative
    | SpecFloat.S754_zero _ => Int 0
    | SpecFloat.S754_nan => NaN
    end.

(** [x + y]: the Number value for the exact sum. *)
Definition add (x y : t) : t :=
  match x, y with
  | NaN, _ | _, NaN => NaN
  | Infinity s, Infinity s' => if Bool.eqb s s' then Infinity s else NaN
  | Infinity s, Int _ | Int _, Infinity s => Infinity s
  | Int a, Int b => ofMathInt (a + b)
  end.

(** The multiple of a power of ten with the fewest significant digits that
    reads back as [v], for [v] a positive binary64 integer; [exponent] is
    the largest power of ten tried.  When two numerals with as many digits
    read back as [v] the nearer one is taken, which is what the standard
    recommends and the engines print. *)
Fixpoint shortest (v : Z) (exponent : nat) : Z :=
  let p := (10 ^ Z.of_nat exponent)%Z in
  let below := (v / p * p)%Z in
  let above := (below + p)%Z in
  let readsBack c := match ofMathInt c with Int z => (z =? v)%Z | _ => false end in
  match readsBack below, readsBack above with
  | true, true => if (v - below <=? above - v)%Z then below else above
  | true, false => below
  | false, true => above
  | false, false =>
      match exponent with
      | O => v
      | S exponent' => shortest v exponent'
      end
  end.

Fixpoint withoutTrailingZeros (digits : string) : string :=
  match digits with
  | EmptyString => EmptyString
  | String c rest =>
      match withoutTrailingZeros rest with
      | EmptyString => if Ascii.eqb c "0" then EmptyString else String c EmptyString
      | kept => String c kept
      end
  end.

(** [String(x)] for [x] positive: the digits of the shortest numeral, in
    full below 10^21 and in exponent notation from there on. *)
Definition positiveToString (v : Z) : string :=
  let digits := decimal (shortest v (String.length (decimal v) - 1)) in
  let n := String.length digits in
  if Nat.leb n 21 then digits
  else
    match withoutTrailingZeros digits with
    | String first EmptyString =>
        String first ("e+" +:+ decimal (Z.of_nat (n - 1)))
    | String first more =>
        String first ("." +:+ more +:+ "e+" +:+ decimal (Z.of_nat (n - 1)))
    | EmptyString => digits
    end.

(** [String(x)], as in a template literal. *)
Definition toString (x : t) : string :=
  match x with
  | NaN => "NaN"
  | Infinity negative => if negative then "-Infinity" else "Infinity"
  | Int z =>
      if (z =? 0)%Z then "0"
      else if (z <? 0)%Z then "-" +:+ positiveToString (- z)
      else positiveToString z
  end.

End Number.

(** The integer [parseInt(s, 10)] reads: white space, an optional sign
    and the leading digits; 0 when there is no digit, where [parseInt]
    returns [NaN].  (The digits are all taken into account, as the engines
    do; the standard allows an approximation after the twentieth.) *)
Definition mathIntOrZero (s : string) : Z :=
  match trimStart s with
  | String "-" rest => (- default 0 (leadingDigits None rest))%Z
  | String "+" rest => default 0%Z (leadingDigits None rest)
  | digits => default 0%Z (leadingDigits None digits)
  end.

(** [parseInt(s, 10) || 0]: the Number value for the integer read; [NaN]
    and zero both give 0. *)
Definition parseIntOrZero (s : string) : Number.t :=
  Number.ofMathInt (mathIntOrZero s).

(** ** The module classes and their file names *)

Module BaseModule.
(** [this.name.toLowerCase().replace(/\s+/g, '-')] *)
Definition getFilename (name : string) : string :=
  replaceWhiteSpaceRuns "-" false (toLowerCase name).
End BaseModule.

Inductive ModuleClass : Type :=
| LicensesModule
| ProfilesModule
| GeneralInfoModule
| HealthCheckModule
| StorageModule
| SandboxesModule
| SharingSettingsModule
| SensitiveDataModule
| LoginHistoryModule.

#[global] Instance ModuleClass_eq_dec : EqDecision ModuleClass.
Proof. solve_decision. Defined.

(** The [name] each constructor passes to [super(name, description)]. *)
Definition className (c : ModuleClass) : string :=
  match c with
  | LicensesModule => "Licenses"
  | ProfilesModule => "Profiles"
  | GeneralInfoModule => "General Information"
  | HealthCheckModule => "Health Check"
  | StorageModule => "Storage"
  | SandboxesModule => "Sandboxes"
  | SharingSettingsModule => "Sharing Settings"
  | SensitiveDataModule => "Sensitive Data"
  | LoginHistoryModule => "Login History"
  end.

(** [getFilename()] of an instance of the class: eight classes override it
    with a literal, [SensitiveDataModule] inherits the method of
    [BaseModule].  ([ProfilesModule] is the class of modules/profiles-module.js,
    the file background.js imports.) *)
Definition classFilename (c : ModuleClass) : string :=
  match c with
  | LicensesModule => "1_licenses"
  | ProfilesModule => "2_profiles"
  | GeneralInfoModule => "3_general_info"
  | HealthCheckModule => "4_health_check"
  | StorageModule => "5_storage"
  | SandboxesModule => "6_sandboxes"
  | SharingSettingsModule => "7_sharing_settings"
  | SensitiveDataModule => BaseModule.getFilename (className SensitiveDataModule)
  | LoginHistoryModule => "8_login_history"
  end.

(** The [registerModule] calls of background.js, in order. *)
Definition registeredModules : list (string * ModuleClass) :=
  [ ("licenses", LicensesModule);
    ("profiles", ProfilesModule);
    ("general-info", GeneralInfoModule);
    ("health-check", HealthCheckModule);
    ("storage", StorageModule);
    ("sandboxes", SandboxesModule);
    ("sharing-settings", SharingSettingsModule);
    ("sensitive-data", SensitiveDataModule);
    ("login-history", LoginHistoryModule) ].

(** The ordinal a consumer reads off a file name: the digit before the
    first underscore, when the name starts that way. *)
Definition ordinalPrefix (filename : string) : option nat :=
  match filename with
  | String d (String "_" _) =>
      if isDigit d then Some (nat_of_ascii d - 48) else None
  | _ => None
  end.

(** ** The clock

    [new Date().toLocaleString()] renders the current time in the locale and
    time zone of the browser, so the embedding takes the rendering as a
    parameter.  [toLocaleString_en_US_UTC] is the rendering for the locale
    en-US in the time zone UTC, e.g. [1/14/2026, 3:45:12 PM]. *)

Definition civilFromDays (days : Z) : Z * Z * Z :=
  let z := (days + 719468)%Z in
  let era := (z / 146097)%Z in
  let doe := (z - era * 146097)%Z in
  let yoe := ((doe - doe / 1460 + doe / 36524 - doe / 146096) / 365)%Z in
  let doy := (doe - (365 * yoe + yoe / 4 - yoe / 100))%Z in
  let mp := ((5 * doy + 2) / 153)%Z in
  let d := (doy - (153 * mp + 2) / 5 + 1)%Z in
  let m := (if mp <? 10 then mp + 3 else mp - 9)%Z in
  let y := (yoe + era * 400)%Z in
  ((if m <=? 2 then y + 1 else y)%Z, m, d).

Definition twoDigits (n : Z) : string :=
  if (n <? 10)%Z then "0" +:+ decimal n else decimal n.

Definition toLocaleString_en_US_UTC (ms : Z) : string :=
  let '(y, m, d) := civilFromDays (ms / 86400000) in
  let secs := ((ms mod 86400000) / 1000)%Z in
  let h := (secs / 3600)%Z in
  let h12 := (if h mod 12 =? 0 then 12 else h mod 12)%Z in
  decimal m +:+ "/" +:+ decimal d +:+ "/" +:+ decimal y +:+ ", "
    +:+ decimal h12 +:+ ":" +:+ twoDigits ((secs / 60) mod 60)
    +:+ ":" +:+ twoDigits (secs mod 60)
    +:+ (if (h <? 12)%Z then " AM" else " PM").

(** ** The sensitive-data module (modules/sensitive-data-module.js) *)

Module SensitiveData.

(** The object [scrape] resolves with. *)
Record Data : Type := {
  status : string;
  message : string;
  timestamp : string
}.

Definition formatData {S : Type} (data : Data) : M S string :=
  let output := "SENSITIVE DATA REPORT" +:+ LF in
  let output := output +:+ repeatString "=" 80 +:+ LF +:+ LF in
  let output := output +:+ "Status: " +:+ status data +:+ LF in
  let output := output +:+ "Message: " +:+ message data +:+ LF in
  let output := output +:+ "Timestamp: " +:+ timestamp data +:+ LF +:+ LF in
  let output := output +:+
    "This module is a placeholder and will be implemented in a future update."
    +:+ LF in
  ret output.

End SensitiveData.

(** ** The login-history module: [formatData] returns the empty string. *)

Module LoginHistory.
Definition formatData {S : Type} (data : JsValue) : M S string := ret "".
End LoginHistory.

(** ** The health-check module (class [HealthCheckModule]) *)

Module HealthCheck.

(** One row of a settings table, as [scrapeHealthCheckDataFunc] builds it:
    five strings, empty when the column is missing. *)
Record Setting : Type := {
  status : string;
  setting : string;
  group : string;
  yourValue : string;
  standardValue : string
}.

Record SettingsTable : Type := {
  title : string;
  tableSettings : list Setting
}.

(** The object [scrapeHealthCheckDataFunc] returns.  Every consumer below
    reads a field as [field || default], so an absent field behaves as the
    empty string or the empty array; only [error] is optional here. *)
Record Data : Type := {
  percentage : string;
  highRisk : list Setting;
  mediumRisk : list Setting;
  lowRisk : list Setting;
  informational : list Setting;
  settings : list Setting;
  tables : list SettingsTable;
  error : option string
}.

(** *** The page probe

    [chrome.scripting.executeScript] runs one of the functions below in the
    tab.  What it finds there is up to the page, so the browser is a
    parameter: it tells what each call settles with, how long the call
    takes and how the page changes meanwhile. *)

Inductive InjectedFunc : Type :=
| searchFunc (searchText : string)
| clickHealthCheckLinkFunc
| checkHealthCheckTablesReadyFunc
| expandHealthCheckSectionsFunc
| scrapeHealthCheckDataFunc.

(** [result?.[0]?.result] of a call. *)
Inductive InjectionResult : Type :=
| Nothing
| Step (success : bool) (error : option string)
| Ready (ready : bool) (found : nat)
| Scraped (data : Data).

Record Chrome (Page : Type) : Type := {
  tabs_get : Z → Z → Page → Outcome unit * N * Page;
  scripting_executeScript :
    Z → InjectedFunc → Z → Page → Outcome InjectionResult * N * Page;
  elapse : Z → Z → Page → Page
}.
Arguments tabs_get {Page} _.
Arguments scripting_executeScript {Page} _.
Arguments elapse {Page} _.

(** What the module did to the tab, in order. *)
Inductive Event : Type :=
| Injected (func : InjectedFunc) (settled : Outcome InjectionResult)
| Delayed (ms : Z).

(** The clock (milliseconds), the page and the log of the module's calls. *)
Record Browser (Page : Type) : Type := {
  now : Z;
  page : Page;
  events : list Event
}.
Arguments now {Page} _.
Arguments page {Page} _.
Arguments events {Page} _.

(** What a call of [scrape(context)] comes to: what its promise settles
    with, the time at which it settles, and the browser once the body of
    the promise executor has run to its end. *)
Record Settlement (Page : Type) : Type := {
  promise : Outcome Data;
  settledAt : Z;
  afterBody : Browser Page
}.
Arguments promise {Page} _.
Arguments settledAt {Page} _.
Arguments afterBody {Page} _.

Definition successOf (r : InjectionResult) : bool :=
  match r with
  | Step success _ => success
  | _ => false
  end.

(** [result?.error || 'Unknown error'] *)
Definition errorOf (r : InjectionResult) : string :=
  match r with
  | Step _ error => js_or error "Unknown error"
  | _ => "Unknown error"
  end.

Definition readyOf (r : InjectionResult) : bool :=
  match r with
  | Ready ready _ => ready
  | _ => false
  end.

Definition dataOf (r : InjectionResult) : option Data :=
  match r with
  | Scraped data => Some data
  | _ => None
  end.

Definition INITIAL_PAGE_LOAD_MS : Z := 12000.
Definition maxRetries : nat := 6.
Definition SCRAPE_TIMEOUT_MS : Z := 75000.
Definition MAX_SCRAPE_ATTEMPTS : nat := 3.
Definition RETRY_WAIT_MS : Z := 10000.

Definition looksLikeNoData (data : option Data) : bool :=
  match data with
  | None => true
  | Some data =>
      let pct := trim (percentage data) in
      let totalSettings := length (settings data) in
      let hasRows :=
        Nat.ltb 0 totalSettings
        || Nat.ltb 0 (length (highRisk data))
        || Nat.ltb 0 (length (mediumRisk data)) in
      (String.eqb pct "0%" || String.eqb pct "N/A" || String.eqb pct "")
      && negb hasRows
  end.

(** [data.error && (!data.settings || data.settings.length === 0)] *)
Definition scrapingError (data : Data) : option string :=
  match error data with
  | Some e =>
      match e, settings data with
      | String _ _, [] => Some e
      | _, _ => None
      end
  | None => None
  end.

Section Scrape.
Context {Page : Type}.
Variable chrome : Chrome Page.
Variable context : ExecutionContext.

Definition executeScript (func : InjectedFunc) : M (Browser Page) InjectionResult :=
  λ b, let '(o, took, p) :=
         scripting_executeScript chrome (tabId context) func (now b) (page b) in
       (o, {| now := now b + Z.of_N took; page := p;
              events := events b ++ [Injected func o] |}).

(** [await self.delay(ms)] *)
Definition delay (ms : Z) : M (Browser Page) unit :=
  modify (λ b, {| now := now b + ms; page := elapse chrome ms (now b) (page b);
                  events := events b ++ [Delayed ms] |}).

(** [Promise.race] of the scrape call and a 75 s timer: the call wins
    when it settles before the timer fires. *)
Definition raceScrape : M (Browser Page) InjectionResult :=
  λ b, let '(o, took, p) :=
         scripting_executeScript chrome (tabId context)
           scrapeHealthCheckDataFunc (now b) (page b) in
       if (Z.of_N took <? SCRAPE_TIMEOUT_MS)%Z then
         (o, {| now := now b + Z.of_N took; page := p;
                events := events b ++ [Injected scrapeHealthCheckDataFunc o] |})
       else
         let o' := Threw
           "Health Check scrape timed out after 75s (page may be too large)" in
         (o', {| now := now b + SCRAPE_TIMEOUT_MS; page := p;
                 events := events b ++ [Injected scrapeHealthCheckDataFunc o'] |}).

(** The readiness loop: [remaining] iterations are left before
    [retryCount] reaches [maxRetries]; the result is [tablesFound]. *)
Fixpoint waitForTables (remaining retryCount : nat) : M (Browser Page) bool :=
  match remaining with
  | O => ret false
  | S remaining' =>
      let retryCount := S retryCount in
      checkResult <- executeScript checkHealthCheckTablesReadyFunc ;;
      if readyOf checkResult then ret true
      else
        (if Nat.ltb retryCount maxRetries then delay 5000 else ret tt) ;;
        waitForTables remaining' retryCount
  end.

(** The scrape loop: [remaining] attempts are left, this one being number
    [attempt]; [healthCheckData] is the variable of that name. *)
Fixpoint scrapeWithRetry (remaining attempt : nat) (healthCheckData : option Data)
    : M (Browser Page) (option Data) :=
  match remaining with
  | O => ret healthCheckData
  | S remaining' =>
      dataResult <- raceScrape ;;
      match dataOf dataResult with
      | None => throw "Failed to scrape health check data - no data returned"
      | Some data =>
          match scrapingError data with
          | Some e => throw ("Health check scraping error: " +:+ e)
          | None =>
              if negb (looksLikeNoData (Some data)) then ret (Some data)
              else
                (if Nat.ltb attempt MAX_SCRAPE_ATTEMPTS
                 then delay RETRY_WAIT_MS else ret tt) ;;
                scrapeWithRetry remaining' (S attempt) (Some data)
          end
      end
  end.

(** Step 5 and the resolution of the promise. *)
Definition scrapeStep : M (Browser Page) Data :=
  healthCheckData <- scrapeWithRetry MAX_SCRAPE_ATTEMPTS 1 None ;;
  match healthCheckData with
  | Some data => ret data
  | None => throw "Cannot read properties of null (reading 'percentage')"
  end.

(** Steps 4 (after the initial wait) to 5. *)
Definition awaitTablesThenScrape : M (Browser Page) Data :=
  tablesFound <- waitForTables maxRetries 0 ;;
  (if tablesFound then
     executeScript expandHealthCheckSectionsFunc ;;
     delay 2000 ;;
     delay 8000
   else ret tt) ;;
  scrapeStep.

(** The body of the promise executor after the 150 s timer is set:
    [Ok] is a call of [resolve], [Threw] a call of [reject]. *)
Definition scrapeBody : M (Browser Page) Data :=
  searchResult <- executeScript (searchFunc "Health Check") ;;
  if negb (successOf searchResult) then
    throw ("Failed to search for Health Check: " +:+ errorOf searchResult)
  else
    delay 2000 ;;
    clickResult <- executeScript clickHealthCheckLinkFunc ;;
    if negb (successOf clickResult) then
      throw ("Failed to click Health Check link: " +:+ errorOf clickResult)
    else
      delay INITIAL_PAGE_LOAD_MS ;;
      awaitTablesThenScrape.

(** [scrape(context)].  The 150 s timer is set once [chrome.tabs.get] has
    resolved.  The promise settles with the first of the body's [resolve]
    or [reject] and of the timer's [reject]; a body that settles first
    clears the timer.  The timer does not stop the body: when it fires
    first the promise is rejected at that time, and the body still runs to
    its end, its own [resolve] or [reject] then being without effect.  (A
    body that settles in the very millisecond of the timer is taken to
    come second.)  When [chrome.tabs.get] is rejected no timer is set and
    the promise is rejected with its error. *)
Definition scrape (b : Browser Page) : Settlement Page :=
  let '(o, took, p) := tabs_get chrome (tabId context) (now b) (page b) in
  let b := {| now := now b + Z.of_N took; page := p; events := events b |} in
  match o with
  | Threw e => {| promise := Threw e; settledAt := now b; afterBody := b |}
  | Ok _ =>
      let deadline := (now b + 150000)%Z in
      let '(o, b') := scrapeBody b in
      if (now b' <? deadline)%Z
      then {| promise := o; settledAt := now b'; afterBody := b' |}
      else {| promise := Threw
                "Timeout: Health Check operation took too long (exceeded 150 seconds)";
              settledAt := deadline; afterBody := b' |}
  end.
End Scrape.

(** *** The shape of the two loops in the log *)

(** A reply to the scrape call after which the loop goes on: data without
    a scraping error that looks like no data. *)
Definition NoDataReply (settled : Outcome InjectionResult) : Prop :=
  ∃ data, settled = Ok (Scraped data)
          ∧ scrapingError data = None
          ∧ looksLikeNoData (Some data) = true.


(** The calls of [func] that settled with [replies], in order, with a wait
    of [ms] between two consecutive calls and none before the first or
    after the last. *)
Definition spaced (ms : Z) (func : InjectedFunc)
    (replies : list (Outcome InjectionResult)) : list Event :=
  drop 1 (replies ≫= λ settled, [Delayed ms; Injected func settled]).

(** *** The report *)

Section Format.
Context {S : Type}.
(** [new Date()] in state [s] is [Date_now s] milliseconds after the epoch. *)
Variable Date_now : S → Z.
Variable toLocaleString : Z → string.

Definition headerRow : string :=
  "STATUS" +:+ TAB +:+ "SETTING" +:+ TAB +:+ "GROUP" +:+ TAB
    +:+ "YOUR VALUE" +:+ TAB +:+ "STANDARD VALUE" +:+ LF.

Definition rowToLine (s : Setting) : string :=
  orDefault (status s) "N/A" +:+ TAB +:+ orDefault (setting s) "N/A" +:+ TAB
    +:+ orDefault (group s) "N/A" +:+ TAB +:+ orDefault (yourValue s) "N/A"
    +:+ TAB +:+ orDefault (standardValue s) "N/A" +:+ LF.

(** One block of the report, appended to [output]. *)
Definition appendSection (output : string) (heading : string)
    (rows : list Setting) : string :=
  let output := output +:+ repeatString "=" 100 +:+ LF in
  let output := output +:+ heading +:+ LF in
  let output := output +:+ repeatString "=" 100 +:+ LF in
  let output := output +:+ LF in
  let output := output +:+ headerRow in
  let output := foldl (λ output setting, output +:+ rowToLine setting) output rows in
  output +:+ LF.

Definition sections (data : Data) : list (list Setting * string) :=
  [ (highRisk data, "HIGH-RISK SECURITY SETTINGS");
    (mediumRisk data, "MEDIUM-RISK SECURITY SETTINGS");
    (lowRisk data, "LOW-RISK SECURITY SETTINGS");
    (informational data, "INFORMATIONAL SECURITY SETTINGS") ].

Definition formatData (data : Data) : M S string :=
  λ s,
    let output := "" in
    let output := output +:+ "HEALTH CHECK REPORT" +:+ LF in
    let output := output +:+ "Generated: " +:+ toLocaleString (Date_now s) +:+ LF in
    let output := output +:+ "Health Check Score: "
                    +:+ orDefault (percentage data) "N/A" +:+ LF in
    let output := output +:+ LF in
    let output :=
      match tables data with
      | _ :: _ =>
          foldl (λ output table,
                   appendSection output
                     (toUpperCase (orDefault (title table) "Security Settings"))
                     (tableSettings table))
                output (tables data)
      | [] =>
          foldl (λ output '(rows, heading), appendSection output heading rows)
                output (sections data)
      end in
    (Ok output, s).

(** The text of the report after the time stamp. *)
Definition afterStamp (data : Data) : string :=
  let output := LF +:+ "Health Check Score: "
                  +:+ orDefault (percentage data) "N/A" +:+ LF in
  let output := output +:+ LF in
  match tables data with
  | _ :: _ =>
      foldl (λ output table,
               appendSection output
                 (toUpperCase (orDefault (title table) "Security Settings"))
                 (tableSettings table))
            output (tables data)
  | [] =>
      foldl (λ output '(rows, heading), appendSection output heading rows)
            output (sections data)
  end.
End Format.

End HealthCheck.

(** ** The reports of the other modules

    Each [formatData] below starts its report with a title line and the line
    [Generated: ] followed by [new Date().toLocaleString()]; [body] is the
    rest of the function, with the [output] built so far as its argument.
    The raw data is the object the module's [scrape] resolves with: cell
    texts are strings, counts are integers. *)

Definition RULE : string := repeatString "=" 100.

Module Licenses.

(** [{ headers, licenses }]: the header cells and one array of cell texts
    per row. *)
Record Data : Type := {
  headers : list string;
  licenses : list (list string)
}.

Record Count : Type := { used : Number.t; total : Number.t }.

Record Summary : Type := {
  internal : Count;
  integration : Count;
  external : Count
}.

Definition internalLicenses : list string := ["Salesforce"; "Salesforce Platform"].
Definition integrationLicenses : list string := ["Salesforce Integration"].
Definition externalLicenses : list string :=
  [ "Customer Community Login";
    "Partner Community";
    "Guest User License";
    "Partner Community Login";
    "Customer Community";
    "Customer Community Plus";
    "Partner Community Plus";
    "Customer Community Plus Login" ].

(** The three column indices, [None] standing for [-1]. *)
Record Columns : Type := {
  nameIndex : option nat;
  totalLicensesIndex : option nat;
  usedLicensesIndex : option nat
}.

(** One call of the callback of [data.headers.forEach]. *)
Definition locateColumn (found : Columns) (header : string) (index : nat) : Columns :=
  let headerLower := toLowerCase header in
  if includes "name" headerLower then
    {| nameIndex := Some index;
       totalLicensesIndex := totalLicensesIndex found;
       usedLicensesIndex := usedLicensesIndex found |}
  else if includes "total" headerLower && includes "license" headerLower then
    {| nameIndex := nameIndex found;
       totalLicensesIndex := Some index;
       usedLicensesIndex := usedLicensesIndex found |}
  else if includes "used" headerLower && includes "license" headerLower then
    {| nameIndex := nameIndex found;
       totalLicensesIndex := totalLicensesIndex found;
       usedLicensesIndex := Some index |}
  else found.

Fixpoint locateColumns (found : Columns) (headers : list string) (index : nat)
    : Columns :=
  match headers with
  | [] => found
  | header :: rest => locateColumns (locateColumn found header index) rest (S index)
  end.

Definition add (count : Count) (usedMore totalMore : Number.t) : Count :=
  {| used := Number.add (used count) usedMore;
     total := Number.add (total count) totalMore |}.

(** [row[index] || fallback] *)
Definition cell (row : list string) (index : nat) (fallback : string) : string :=
  orDefault (nth index row "") fallback.

(** One call of the callback of [data.licenses.forEach]. *)
Definition countRow (columns : Columns) (summary : Summary) (row : list string)
    : Summary :=
  match nameIndex columns, totalLicensesIndex columns, usedLicensesIndex columns with
  | Some nameIndex, Some totalLicensesIndex, Some usedLicensesIndex =>
      let licenseName := cell row nameIndex "" in
      let totalStr := cell row totalLicensesIndex "0" in
      let usedStr := cell row usedLicensesIndex "0" in
      let total := parseIntOrZero (removeCommas totalStr) in
      let used := parseIntOrZero (removeCommas usedStr) in
      if bool_decide (licenseName ∈ internalLicenses) then
        {| internal := add (internal summary) used total;
           integration := integration summary;
           external := external summary |}
      else if bool_decide (licenseName ∈ integrationLicenses) then
        {| internal := internal summary;
           integration := add (integration summary) used total;
           external := external summary |}
      else if bool_decide (licenseName ∈ externalLicenses) then
        {| internal := internal summary;
           integration := integration summary;
           external := add (external summary) used total |}
      else summary
  | _, _, _ => summary
  end.

Definition calculateLicenseSummary (data : Data) : Summary :=
  let zero := {| used := Number.Int 0; total := Number.Int 0 |} in
  let summary := {| internal := zero; integration := zero; external := zero |} in
  let columns :=
    locateColumns {| nameIndex := None; totalLicensesIndex := None;
                     usedLicensesIndex := None |} (headers data) 0 in
  foldl (countRow columns) summary (licenses data).

Definition summaryLine (label : string) (count : Count) : string :=
  label +:+ TAB +:+ Number.toString (used count) +:+ TAB
    +:+ Number.toString (total count) +:+ LF.

Definition body (data : Data) (output : string) : string :=
  let output := output +:+ "Total License Types: "
                  +:+ decimal (Z.of_nat (length (licenses data))) +:+ LF in
  let output := output +:+ LF in
  match licenses data with
  | [] => output +:+ "No license data found" +:+ LF
  | _ :: _ =>
      let summary := calculateLicenseSummary data in
      let output := output +:+ RULE +:+ LF in
      let output := output +:+ "LICENSE SUMMARY" +:+ LF in
      let output := output +:+ RULE +:+ LF in
      let output := output +:+ LF in
      let output := output +:+ summaryLine "Internal Licenses" (internal summary) in
      let output := output
                      +:+ summaryLine "Integration Licenses" (integration summary) in
      let output := output +:+ summaryLine "External Licenses" (external summary) in
      let output := output +:+ LF in
      let output := output +:+ RULE +:+ LF in
      let output := output +:+ "ALL USER LICENSES" +:+ LF in
      let output := output +:+ RULE +:+ LF in
      let output := output +:+ LF in
      let output := match headers data with
                    | [] => output
                    | _ :: _ => output +:+ join TAB (headers data) +:+ LF
                    end in
      let output := foldl (λ output row, output +:+ join TAB row +:+ LF)
                          output (licenses data) in
      output +:+ LF
  end.

End Licenses.

Module Profiles.

(** One element of the array [scrape] resolves with. *)
Record Profile : Type := {
  profileName : string;
  userLicense : string;
  profileType : string;
  activeUserCount : Z;
  modifyAllData : bool;
  runReports : bool;
  exportReports : bool
}.

Definition yesNo (b : bool) : string := if b then "Yes" else "No".

Definition row (output : string) (profile : Profile) : string :=
  let output := output +:+ orDefault (profileName profile) "N/A" +:+ TAB in
  let output := output +:+ orDefault (userLicense profile) "Unknown" +:+ TAB in
  let output := output +:+ orDefault (profileType profile) "Unknown" +:+ TAB in
  let output := output +:+ decimal (activeUserCount profile) +:+ TAB in
  let output := output +:+ yesNo (modifyAllData profile) +:+ TAB in
  let output := output +:+ yesNo (runReports profile) +:+ TAB in
  output +:+ yesNo (exportReports profile) +:+ LF.

Definition body (data : list Profile) (output : string) : string :=
  let output := output +:+ LF in
  let output := output +:+ "Profile Name" +:+ TAB +:+ "User License" +:+ TAB
                  +:+ "Profile Type" +:+ TAB +:+ "Active Users" +:+ TAB
                  +:+ "Modify All Data" +:+ TAB +:+ "Run Reports" +:+ TAB
                  +:+ "Export Reports" +:+ LF in
  foldl row output data.

End Profiles.

Module GeneralInfo.

Record CompanyInfo : Type := {
  accountName : string;
  orgId : string;
  location : string;
  edition : string;
  samlEnabled : bool;
  samlSettingNames : list string;
  companyFound : bool
}.

Record Sites : Type := {
  total : Z;
  active : Z;
  inactive : Z;
  sitesFound : bool;
  sitesError : option string
}.

Record ReleaseUpdates : Type := {
  overdueSecurityUpdates : string;
  securityUpdatesDueSoon : string;
  updatesFound : bool;
  updatesError : option string
}.

Record Data : Type := {
  companyInfo : CompanyInfo;
  sites : Sites;
  releaseUpdates : ReleaseUpdates
}.

(** [if (error) output += `Error\t${error}\n`] *)
Definition errorLine (output : string) (error : option string) : string :=
  match error with
  | Some (String c rest) => output +:+ "Error" +:+ TAB +:+ String c rest +:+ LF
  | _ => output
  end.

Definition body (data : Data) (output : string) : string :=
  let output := output +:+ LF in
  let output := output +:+ RULE +:+ LF in
  let output := output +:+ "COMPANY / ORGANIZATION INFORMATION" +:+ LF in
  let output := output +:+ RULE +:+ LF in
  let output := output +:+ LF in
  let ci := companyInfo data in
  let output :=
    if companyFound ci then
      let output := output +:+ "Account Name" +:+ TAB +:+ accountName ci +:+ LF in
      let output := output +:+ "Organization ID" +:+ TAB +:+ orgId ci +:+ LF in
      let output := output +:+ "Location (Instance)" +:+ TAB +:+ location ci +:+ LF in
      output +:+ "Edition" +:+ TAB +:+ edition ci +:+ LF
    else
      let output := output +:+ "Account Name" +:+ TAB +:+ LF in
      let output := output +:+ "Organization ID" +:+ TAB +:+ LF in
      let output := output +:+ "Location (Instance)" +:+ TAB +:+ LF in
      output +:+ "Edition" +:+ TAB +:+ LF in
  let output := output +:+ "SAML Enabled" +:+ TAB
                  +:+ (if samlEnabled ci then "Yes" else "No") +:+ LF in
  let output := output +:+ "SAML Settings" +:+ TAB
                  +:+ join ", " (samlSettingNames ci) +:+ LF in
  let output := output +:+ LF in
  let output := output +:+ RULE +:+ LF in
  let output := output +:+ "SITES INFORMATION" +:+ LF in
  let output := output +:+ RULE +:+ LF in
  let output := output +:+ LF in
  let output :=
    if negb (sitesFound (sites data)) then
      let output := output +:+ "Sites" +:+ TAB +:+ "0" +:+ LF in
      errorLine output (sitesError (sites data))
    else
      let output := output +:+ "Total Sites" +:+ TAB
                      +:+ decimal (total (sites data)) +:+ LF in
      let output := output +:+ "Active Sites" +:+ TAB
                      +:+ decimal (active (sites data)) +:+ LF in
      output +:+ "Inactive Sites" +:+ TAB +:+ decimal (inactive (sites data)) +:+ LF in
  let output := output +:+ LF in
  let output := output +:+ RULE +:+ LF in
  let output := output +:+ "RELEASE UPDATES INFORMATION" +:+ LF in
  let output := output +:+ RULE +:+ LF in
  let output := output +:+ LF in
  let output :=
    if negb (updatesFound (releaseUpdates data)) then
      let output := output +:+ "# Overdue Security Updates" +:+ TAB
                      +:+ "Not Available" +:+ LF in
      let output := output +:+ "# Security Updates Due Soon" +:+ TAB
                      +:+ "Not Available" +:+ LF in
      errorLine output (updatesError (releaseUpdates data))
    else
      let output := output +:+ "# Overdue Security Updates" +:+ TAB
                      +:+ overdueSecurityUpdates (releaseUpdates data) +:+ LF in
      output +:+ "# Security Updates Due Soon" +:+ TAB
        +:+ securityUpdatesDueSoon (releaseUpdates data) +:+ LF in
  output +:+ LF.

End GeneralInfo.

Module Storage.

(** [{ headers, rows }]: every row is an array of cell texts. *)
Record Table : Type := {
  headers : list string;
  rows : list (list string)
}.

Record Data : Type := {
  overview : Table;
  dataStorageObjects : Table;
  fileStorageObjects : Table
}.

(** The header line, when there are headers, and one line per row. *)
Definition appendTable (output : string) (table : Table) : string :=
  let output := match headers table with
                | [] => output
                | _ :: _ => output +:+ join TAB (headers table) +:+ LF
                end in
  foldl (λ output row, output +:+ join TAB row +:+ LF) output (rows table).

Definition body (data : Data) (output : string) : string :=
  let output := output +:+ "Source: Setup > Data > Storage Usage" +:+ LF in
  let output := output +:+ LF in
  let output := output +:+ RULE +:+ LF in
  let output := output +:+ "PART A – STORAGE OVERVIEW (GLOBAL LIMITS)" +:+ LF in
  let output := output +:+ RULE +:+ LF in
  let output := output +:+ "Columns: Storage Type, Limit, Used, Percentage Used"
                  +:+ LF in
  let output := output +:+ LF in
  let output := appendTable output (overview data) in
  let output := output +:+ LF in
  let output := output +:+ RULE +:+ LF in
  let output := output +:+ "PART B – DATA STORAGE OBJECTS (ALL ROWS)" +:+ LF in
  let output := output +:+ RULE +:+ LF in
  let output := output +:+ LF in
  let output := appendTable output (dataStorageObjects data) in
  let output := output +:+ LF in
  let output := output +:+ RULE +:+ LF in
  let output := output +:+ "PART B – FILE STORAGE OBJECTS (ALL ROWS)" +:+ LF in
  let output := output +:+ RULE +:+ LF in
  let output := output +:+ LF in
  appendTable output (fileStorageObjects data).

End Storage.

Module Sandboxes.

Record License : Type := {
  type : string;
  used : string;
  allowance : string
}.

Record Sandbox : Type := {
  name : string;
  sandboxType : string;
  status : string;
  location : string;
  releaseType : string;
  currentOrgId : string;
  completedOn : string;
  description : string;
  copiedFrom : string
}.

(** [{ licenses, rows }] *)
Record Data : Type := {
  licenses : list License;
  rows : list Sandbox
}.

Definition body (data : Data) (output : string) : string :=
  let output := output +:+ "Source: Setup > Environments > Sandboxes" +:+ LF in
  let output := output +:+ LF in
  let output := output +:+ RULE +:+ LF in
  let output := output +:+ "AVAILABLE SANDBOX LICENSES" +:+ LF in
  let output := output +:+ RULE +:+ LF in
  let output := output +:+ LF in
  let output := output +:+ "Type" +:+ TAB +:+ "Used" +:+ TAB +:+ "Allowance" +:+ LF in
  let output :=
    foldl (λ output l,
             output +:+ type l +:+ TAB +:+ used l +:+ TAB +:+ allowance l +:+ LF)
          output (licenses data) in
  let output := output +:+ LF in
  let output := output +:+ RULE +:+ LF in
  let output := output +:+ "SANDBOXES (FULL TABLE)" +:+ LF in
  let output := output +:+ RULE +:+ LF in
  let output := output +:+ LF in
  let output := output +:+ "Name" +:+ TAB +:+ "Type" +:+ TAB +:+ "Status" +:+ TAB
                  +:+ "Location" +:+ TAB +:+ "Release Type" +:+ TAB
                  +:+ "Current Org Id" +:+ TAB +:+ "Completed On" +:+ TAB
                  +:+ "Description" +:+ TAB +:+ "Copied From" +:+ LF in
  foldl (λ output row,
           output +:+ join TAB [ name row; sandboxType row; status row; location row;
                                 releaseType row; currentOrgId row; completedOn row;
                                 description row; copiedFrom row ] +:+ LF)
        output (rows data).

End Sandboxes.

Module SharingSettings.

Record Row : Type := {
  object : string;
  defaultInternalAccess : string;
  defaultExternalAccess : string
}.

(** [{ rows, error }] *)
Record Data : Type := {
  rows : list Row;
  error : option string
}.

Definition body (data : Data) (output : string) : string :=
  let output := output +:+
    "Source: Setup > Security > Sharing Settings > Organization-Wide Defaults"
    +:+ LF in
  let output := output +:+ LF in
  let output := output +:+ RULE +:+ LF in
  let output := output +:+ "ORGANIZATION-WIDE DEFAULTS" +:+ LF in
  let output := output +:+ RULE +:+ LF in
  let output := output +:+ LF in
  let output := output +:+ "Object" +:+ TAB +:+ "Default Internal Access" +:+ TAB
                  +:+ "Default External Access" +:+ LF in
  foldl (λ output row,
           output +:+ object row +:+ TAB +:+ defaultInternalAccess row +:+ TAB
             +:+ defaultExternalAccess row +:+ LF)
        output (rows data).

End SharingSettings.

(** *** [formatData] by class *)

(** The raw data of each class. *)
Definition RawData (c : ModuleClass) : Type :=
  match c with
  | LicensesModule => Licenses.Data
  | ProfilesModule => list Profiles.Profile
  | GeneralInfoModule => GeneralInfo.Data
  | HealthCheckModule => HealthCheck.Data
  | StorageModule => Storage.Data
  | SandboxesModule => Sandboxes.Data
  | SharingSettingsModule => SharingSettings.Data
  | SensitiveDataModule => SensitiveData.Data
  | LoginHistoryModule => JsValue
  end.

Section Reports.
Context {S : Type}.
Variable Date_now : S → Z.
Variable toLocaleString : Z → string.

(** A report that starts with [title] and the generation time. *)
Definition stamped (title : string) (body : string → string) : M S string :=
  λ s,
    let output := "" in
    let output := output +:+ title +:+ LF in
    let output := output +:+ "Generated: " +:+ toLocaleString (Date_now s) +:+ LF in
    (Ok (body output), s).

Definition classFormatData (c : ModuleClass) : RawData c → M S string :=
  match c with
  | LicensesModule => λ data, stamped "USER LICENSES REPORT" (Licenses.body data)
  | ProfilesModule => λ data, stamped "PROFILE INFORMATION REPORT" (Profiles.body data)
  | GeneralInfoModule =>
      λ data, stamped "GENERAL INFORMATION REPORT" (GeneralInfo.body data)
  | HealthCheckModule => HealthCheck.formatData Date_now toLocaleString
  | StorageModule => λ data, stamped "STORAGE USAGE REPORT" (Storage.body data)
  | SandboxesModule => λ data, stamped "SANDBOXES REPORT" (Sandboxes.body data)
  | SharingSettingsModule =>
      λ data, stamped "SHARING SETTINGS REPORT" (SharingSettings.body data)
  | SensitiveDataModule => SensitiveData.formatData
  | LoginHistoryModule => LoginHistory.formatData
  end.
End Reports.

(** The classes whose report carries no generation time. *)
Definition unstamped (c : ModuleClass) : bool :=
  match c with
  | SensitiveDataModule | LoginHistoryModule => true
  | _ => false
  end.

(** [body] only appends to the output it is given. *)
Definition Appends (body : string → string) : Prop :=
  ∀ output, body output = output +:+ body "".

(** ** Sample inputs

    Small concrete modules, managers and pages on which the functions above
    are evaluated. *)

Module Samples.

(** A module over the world [nat] (a counter of the calls made) whose
    [scrape] resolves with [value]. *)
Definition resolving (moduleName file : string) (value : JsValue) : Module nat :=
  {| name := moduleName;
     initialize := ret tt;
     validate := ret {| valid := true; message := None |};
     scrape := λ _ w, ScrapeSettled (Ok value) (S w);
     formatData := λ _, ret "report";
     getJsonPayload := None;
     getFilename := file;
     getDateFormat := None |}.

(** The same, with a [scrape] that throws. *)
Definition rejecting (moduleName file reason : string) : Module nat :=
  {| name := moduleName;
     initialize := ret tt;
     validate := ret {| valid := true; message := None |};
     scrape := λ _ w, ScrapeSettled (Threw reason) (S w);
     formatData := λ _, ret "report";
     getJsonPayload := None;
     getFilename := file;
     getDateFormat := None |}.

Definition licenses : Instance nat :=
  {| oid := 1; self := resolving "Licenses" "1_licenses" (JsNumber 7) |}.
Definition profiles : Instance nat :=
  {| oid := 2; self := rejecting "Profiles" "2_profiles" "link not found" |}.
Definition profiles' : Instance nat :=
  {| oid := 3; self := resolving "Profiles" "2_profiles" (JsArray []) |}.

Definition manager : ModuleManager nat :=
  registerModule "profiles" profiles (registerModule "licenses" licenses constructor).

Definition context : ExecutionContext := {| tabId := 42; customerName := "Acme" |}.

(** A run of the sample manager with no callbacks and nothing interleaved. *)
Definition run (ids : list string) : Outcome (list ModuleResult) * nat * unit :=
  executeEnabledModules (λ _ w, w) (λ _ c, c) context None None
    (enableModules ids manager) 0 tt.

(** A completion callback that throws on every result. *)
Definition throwing : option (ModuleResult → M unit unit) :=
  Some (λ _, throw "download failed").

(** An extraction job that is being run, and a schedule that delivers a
    cancel request before the second module starts. *)
Definition job : Background.State :=
  {| Background.isExtractionActive := true;
     Background.currentExtractionJob :=
       Some {| Background.moduleIds := ["licenses"; "profiles"];
               Background.job_customerName := "Acme";
               Background.job_tabId := 42;
               Background.cancelled := false |};
     Background.completedCount := 0;
     Background.sent := [] |}.

Definition cancelBeforeSecond (site : CallSite)
    : Background.State → Background.State :=
  match site with
  | AtStart 2 => Background.cancelExtraction
  | _ => λ b, b
  end.

Definition download : string → JsValue → M Background.State Z :=
  λ _ _, ret 1%Z.

Definition jobRun (interleaved : CallSite → Background.State → Background.State)
    (b : Background.State) : Outcome (list ModuleResult) * nat * Background.State :=
  executeEnabledModules (λ _ w, w) interleaved context
    (Some Background.progressCallback)
    (Some (Background.completionCallback download "Acme_2026-01-14" 2))
    (enableModules ["licenses"; "profiles"] manager) 0 b.

(** Health-check data: a scored page with one table, and the placeholder
    an unrendered page yields. *)
Definition passwordRow : HealthCheck.Setting :=
  {| HealthCheck.status := "Compliant";
     HealthCheck.setting := "Minimum password length";
     HealthCheck.group := "Password Policies";
     HealthCheck.yourValue := "";
     HealthCheck.standardValue := "8" |}.

Definition scored : HealthCheck.Data :=
  {| HealthCheck.percentage := "87%";
     HealthCheck.highRisk := [passwordRow];
     HealthCheck.mediumRisk := [];
     HealthCheck.lowRisk := [];
     HealthCheck.informational := [];
     HealthCheck.settings := [passwordRow];
     HealthCheck.tables :=
       [ {| HealthCheck.title := "High-Risk Security Settings";
            HealthCheck.tableSettings := [passwordRow] |} ];
     HealthCheck.error := None |}.

Definition unrendered : HealthCheck.Data :=
  {| HealthCheck.percentage := "N/A";
     HealthCheck.highRisk := [];
     HealthCheck.mediumRisk := [];
     HealthCheck.lowRisk := [];
     HealthCheck.informational := [];
     HealthCheck.settings := [];
     HealthCheck.tables := [];
     HealthCheck.error := None |}.

(** A browser whose page is a script: the replies the next calls of
    [executeScript] settle with and the time each takes. *)
Definition Script : Type := list (Outcome HealthCheck.InjectionResult * N).

Definition scripted : HealthCheck.Chrome Script :=
  {| HealthCheck.tabs_get := λ _ _ page, (Ok tt, 40%N, page);
     HealthCheck.scripting_executeScript := λ _ _ _ page,
       match page with
       | [] => (Ok HealthCheck.Nothing, 0%N, [])
       | (settled, took) :: rest => (settled, took, rest)
       end;
     HealthCheck.elapse := λ _ _ page, page |}.

Definition browserAt (time : Z) (script : Script) : HealthCheck.Browser Script :=
  {| HealthCheck.now := time; HealthCheck.page := script; HealthCheck.events := [] |}.

Definition neverReady : Script :=
  replicate 6 (Ok (HealthCheck.Ready false 0), 200%N).

Definition stillLoading : Script :=
  replicate 3 (Ok (HealthCheck.Scraped unrendered), 300%N).

Definition sensitive : SensitiveData.Data :=
  {| SensitiveData.status := "not_implemented";
     SensitiveData.message := "Sensitive Data module is not yet implemented";
     SensitiveData.timestamp := "2026-01-14T15:45:12.000Z" |}.

End Samples.

(** ** Notions used to state further properties *)

(** The manager after the calls [registerModule(id, instance)] for the
    entries of [entries], in order (background.js registers its nine
    modules this way). *)
Definition registerAll {W} (entries : list (string * Instance W))
    (this : ModuleManager W) : ModuleManager W :=
  foldl (λ this entry, registerModule entry.1 entry.2 this) this entries.

(** A callback that appends what it is called with to a log and returns. *)
Definition record {A} (a : A) : M (list A) unit := modify (λ log, log ++ [a]).

Definition isStart (update : ProgressUpdate) : bool :=
  match update with
  | MODULE_STARTED _ _ _ _ => true
  | Forwarded _ => false
  end.

(** The number of scripts injected and the time slept in a log of the
    health-check module. *)
Definition injections (log : list HealthCheck.Event) : nat :=
  foldr (λ event count, match event with
                        | HealthCheck.Injected _ _ => S count
                        | HealthCheck.Delayed _ => count
                        end) 0%nat log.

Definition slept (log : list HealthCheck.Event) : Z :=
  foldr (λ event total, match event with
                        | HealthCheck.Injected _ _ => total
                        | HealthCheck.Delayed ms => (ms + total)%Z
                        end) 0%Z log.

(** [m] adds to the log at most [calls] injections and [ms] milliseconds
    of sleep, whatever the browser does. *)
Definition Within {Page A} (calls : nat) (ms : Z)
    (m : M (HealthCheck.Browser Page) A) : Prop :=
  ∀ b, ∃ new, HealthCheck.events (m b).2 = HealthCheck.events b ++ new
              ∧ (injections new ≤ calls)%nat
              ∧ (0 ≤ slept new ≤ ms)%Z.

(** ** Text of any content: UTF-16 code units

    The functions below look at the characters of texts that come from the
    page or from the user (a customer name, a cell text), which need not be
    ASCII.  There a JavaScript string is the list of its UTF-16 code units,
    which is what [length], [substring], [trim] and a regular expression
    without the [u] flag work on. *)

Module Utf16.

(** The code units of an ASCII literal. *)
Definition units (literal : string) : list N :=
  N_of_ascii <$> list_ascii_of_string literal.

(** The class [\s] of a regular expression, which is also what [trim]
    removes: the white space and line terminator code points. *)
Definition isWhiteSpace (u : N) : bool :=
  ((9 <=? u) && (u <=? 13) || (u =? 32) || (u =? 160) || (u =? 5760)
   || (8192 <=? u) && (u <=? 8202) || (u =? 8232) || (u =? 8233)
   || (u =? 8239) || (u =? 8287) || (u =? 12288) || (u =? 65279))%N.

(** [s.replace(/[class]/g, replacement)] for a class of single code units. *)
Definition replaceEach (class : N → bool) (replacement : list N) (s : list N)
    : list N :=
  s ≫= λ u, if class u then replacement else [u].

(** [s.replace(/[class]+/g, replacement)]: every maximal run of code units
    of the class becomes one [replacement]; [inRun] tells that the previous
    code unit was of the class. *)
Fixpoint replaceRuns (class : N → bool) (replacement : list N) (inRun : bool)
    (s : list N) : list N :=
  match s with
  | [] => []
  | u :: rest =>
      if class u then
        if inRun then replaceRuns class replacement true rest
        else replacement ++ replaceRuns class replacement true rest
      else u :: replaceRuns class replacement false rest
  end.

Fixpoint trimStart (s : list N) : list N :=
  match s with
  | u :: rest => if isWhiteSpace u then trimStart rest else s
  | [] => []
  end.

Fixpoint trimEnd (s : list N) : list N :=
  match s with
  | [] => []
  | u :: rest =>
      match trimEnd rest with
      | [] => if isWhiteSpace u then [] else [u]
      | kept => u :: kept
      end
  end.

Definition trim (s : list N) : list N := trimEnd (trimStart s).

End Utf16.

(** ** utils.js *)

Module Utils.

(** [sanitizeText(text)]; [None] stands for an argument that is not a
    string. *)
Definition sanitizeText (text : option (list N)) : list N :=
  match text with
  | None => []
  | Some text =>
      Utf16.trim (Utf16.replaceRuns Utf16.isWhiteSpace (Utf16.units " ") false text)
  end.

(** [set.add(x)] on the elements of a [Set], in insertion order. *)
Definition setAdd {A} `{EqDecision A} (set : list A) (x : A) : list A :=
  if decide (x ∈ set) then set else set ++ [x].

(** [[...new Set(urls)]] *)
Definition removeDuplicateUrls {A} `{EqDecision A} (urls : list A) : list A :=
  foldl setAdd [] urls.

End Utils.

(** ** File and folder names *)

(** [sanitizeFilename] of background.js:
    [name.replace(/[^a-zA-Z0-9-_]/g, '_')]. *)
Definition isFilenameChar (u : N) : bool :=
  ((97 <=? u) && (u <=? 122) || (65 <=? u) && (u <=? 90)
   || (48 <=? u) && (u <=? 57) || (u =? 45) || (u =? 95))%N.

Module BackgroundNames.
Definition sanitizeFilename (name : list N) : list N :=
  Utf16.replaceEach (λ u, negb (isFilenameChar u)) (Utf16.units "_") name.
End BackgroundNames.

(** The character class of download-manager.js: the characters
    [<], [>], [:], the double quote, [/], [\], [|], [?], [*] and the control
    characters U+0000 to U+001F. *)
Definition isInvalidPathChar (u : N) : bool :=
  ((u =? 60) || (u =? 62) || (u =? 58) || (u =? 34) || (u =? 47) || (u =? 92)
   || (u =? 124) || (u =? 63) || (u =? 42) || (u <=? 31))%N.

Module DownloadManager.

(** The first version of download-manager.js: every character of the
    class above becomes [_], then every run of white space becomes one
    [_] ([.replace(/\s+/g, '_')]). *)
Definition sanitizeFilename (name : list N) : list N :=
  Utf16.replaceRuns Utf16.isWhiteSpace (Utf16.units "_") false
    (Utf16.replaceEach isInvalidPathChar (Utf16.units "_") name).

(** The second version: every character of the class becomes [_], then
    [.trim().replace(/_+/g, '_') || 'Unknown_Customer']. *)
Definition sanitizeFilename' (name : list N) : list N :=
  match Utf16.replaceRuns (N.eqb 95) (Utf16.units "_") false
          (Utf16.trim (Utf16.replaceEach isInvalidPathChar (Utf16.units "_") name))
  with
  | [] => Utf16.units "Unknown_Customer"
  | sanitized => sanitized
  end.

End DownloadManager.

(** Every code unit of [s] that is of the class is [only] and does not
    follow another one of the class; with [afterRun] set, [s] does not
    start with one of the class either. *)
Fixpoint isolated (class : N → bool) (only : N) (afterRun : bool) (s : list N)
    : bool :=
  match s with
  | [] => true
  | u :: rest =>
      if class u
      then (u =? only)%N && negb afterRun && isolated class only true rest
      else isolated class only false rest
  end.

(** ** Dates

    [new Date().toISOString()] for the time [t], in milliseconds since the
    epoch: [YYYY-MM-DDTHH:mm:ss.sssZ] in UTC, the year with four digits
    from 0 to 9999 and with a sign and six digits otherwise. *)

Definition digit (n : Z) : ascii := ascii_of_nat (48 + Z.to_nat (n mod 10)).

(** The last [width] decimal digits of [n]: [String(n).padStart(width, '0')]
    when [0 <= n < 10 ^ width]. *)
Fixpoint padStart (width : nat) (n : Z) : string :=
  match width with
  | O => ""
  | S width' => padStart width' (n / 10) +:+ String (digit n) ""
  end.

Definition isoYear (y : Z) : string :=
  if ((0 <=? y) && (y <=? 9999))%Z then padStart 4 y
  else (if (y <? 0)%Z then "-" else "+") +:+ padStart 6 (Z.abs y).

Definition toISOString (t : Z) : string :=
  let '(y, m, d) := civilFromDays (t / 86400000) in
  let ms := (t mod 86400000)%Z in
  isoYear y +:+ "-" +:+ padStart 2 m +:+ "-" +:+ padStart 2 d +:+ "T"
    +:+ padStart 2 (ms / 3600000) +:+ ":" +:+ padStart 2 ((ms / 60000) mod 60)
    +:+ ":" +:+ padStart 2 ((ms / 1000) mod 60) +:+ "." +:+ padStart 3 (ms mod 1000)
    +:+ "Z".

(** [s.split('T')[0]]: the text before the first [T]. *)
Fixpoint beforeT (s : string) : string :=
  match s with
  | EmptyString => EmptyString
  | String c rest => if Ascii.eqb c "T" then EmptyString else String c (beforeT rest)
  end.

(** [getCurrentDate()] of background.js, [toISOString().slice(0, 10)], and
    of download-manager.js, [toISOString().split('T')[0]], at time [t]. *)
Definition getCurrentDate (t : Z) : string := String.substring 0 10 (toISOString t).

Definition getCurrentDate' (t : Z) : string := beforeT (toISOString t).

(** [`${sanitizeFilename(customerName)}_${getCurrentDate()}`] and
    [`${folderName}/${result.filename}.json`] in [startExtraction]. *)
Definition folderName (sanitizeFilename : list N → list N) (customerName : list N)
    (t : Z) : list N :=
  sanitizeFilename customerName ++ Utf16.units "_" ++ Utf16.units (getCurrentDate t).

Definition filepath (folder : list N) (filename : string) : list N :=
  folder ++ Utf16.units "/" ++ Utf16.units (filename +:+ ".json").

(** ** Scripts injected by the other modules

    The modules below drive the page through
    [chrome.scripting.executeScript({ target: { tabId }, func, args })].
    What a script finds is up to the page, so the tab is a parameter:
    [W] is its state, and each script is an operation on [W] that settles
    with the value the module reads off the call's result
    ([result[0]?.result]), or throws when the call is rejected. *)

(** [{ success, error }] as [searchFunc] and the click functions return it;
    a missing result has [success] false and no [error]. *)
Record Reply : Type := {
  succeeded : bool;
  failure : option string
}.

(** [`${label}: ${reply.error || 'Unknown error'}`] *)
Definition failed (label : string) (reply : Reply) : string :=
  label +:+ ": " +:+ js_or (failure reply) "Unknown error".

(** ** Computations that report progress

    A module's [scrape] may call [context.progressCallback(update)] between
    its steps.  [Done] is a settled computation, [Emit update k] one that
    calls the callback with [update] and goes on with [k o], [o] being what
    the call returned or threw. *)

Inductive Res (W A : Type) : Type :=
| Done (o : Outcome A) (w : W)
| Emit (update : JsValue) (k : Outcome unit → Res W A).
Arguments Done {W A} o w.
Arguments Emit {W A} update k.

Definition Prog (W A : Type) : Type := W → Res W A.

Fixpoint andThen {W A B} (r : Res W A) (f : A → Prog W B) : Res W B :=
  match r with
  | Done (Ok a) w => f a w
  | Done (Threw e) w => Done (Threw e) w
  | Emit update k => Emit update (λ o, andThen (k o) f)
  end.

Definition pbind {W A B} (m : Prog W A) (f : A → Prog W B) : Prog W B :=
  λ w, andThen (m w) f.

Definition pret {W A} (a : A) : Prog W A := λ w, Done (Ok a) w.

(** A step that reports no progress. *)
Definition quiet {W A} (m : M W A) : Prog W A :=
  λ w, let '(o, w') := m w in Done o w'.

(** [context.progressCallback(update)]: what the callback throws is thrown
    at the place of the call. *)
Definition emit {W} (update : JsValue) : Prog W unit :=
  λ w, Emit update (λ o, Done o w).

(** The updates a computation emits and what it settles with, when every
    call of the callback returns normally. *)
Fixpoint emitted {W A} (r : Res W A) : list JsValue :=
  match r with
  | Done _ _ => []
  | Emit update k => update :: emitted (k (Ok tt))
  end.

Fixpoint settled {W A} (r : Res W A) : Outcome A * W :=
  match r with
  | Done o w => (o, w)
  | Emit _ k => settled (k (Ok tt))
  end.

(** ** Numbers

    [Math.round((current / total) * 100)] in IEEE 754 double precision, as
    JavaScript computes it. *)

Definition Math_round (x : PrimFloat.float) : Z :=
  match FloatOps.Prim2SF x with
  | SpecFloat.S754_finite s m e =>
      let numerator := if s then Z.neg m else Z.pos m in
      if (0 <=? e)%Z then (numerator * 2 ^ e)%Z
      else ((2 * numerator + 2 ^ (- e)) / (2 * 2 ^ (- e)))%Z
  | _ => 0%Z
  end.

Definition number (n : nat) : PrimFloat.float :=
  PrimFloat.of_uint63 (Uint63.of_Z (Z.of_nat n)).

Definition percentOf (current total : nat) : Z :=
  Math_round (PrimFloat.mul (PrimFloat.div (number current) (number total))
                (number 100)).

(** ** The profiles module: [scrape] (modules/profiles-module.js) *)

Module ProfilesScrape.

(** One element of the array [scrape] resolves with: the fields the report
    prints, the [url] and, when something went wrong, an [error]. *)
Record Entry : Type := {
  profile : Profiles.Profile;
  url : string;
  error : option string
}.

(** The fields [TEST_MODE], [TEST_MODE_LIMIT] and [TEST_MODE_PROFILE_NAME]
    of the module object, and the values the constructor gives them. *)
Record Settings : Type := {
  TEST_MODE : bool;
  TEST_MODE_LIMIT : option nat;
  TEST_MODE_PROFILE_NAME : option string
}.

Definition constructed : Settings :=
  {| TEST_MODE := false; TEST_MODE_LIMIT := None; TEST_MODE_PROFILE_NAME := None |}.

(** The tab: the injected scripts, each on the tab with the given id, the
    whole of [scrapeProfile(url)] (which opens a tab of its own), the
    passing of time and the assignment to the field [extractedUrls]. *)
Record Tab (W : Type) : Type := {
  searchFunc : Z → string → M W Reply;
  clickElementFunc : Z → string → M W Reply;
  extractLinksFromPageFunc : Z → M W (list string);
  clickNextPageButtonFunc : Z → M W bool;
  getProfileNamesFromLinksFunc : Z → list string → string → M W (list string);
  countActiveUsersFunc : Z → M W Z;
  scrapeProfile : string → M W Entry;
  elapse : Z → W → W;
  set_extractedUrls : list string → W → W
}.
Arguments searchFunc {W} _.
Arguments clickElementFunc {W} _.
Arguments extractLinksFromPageFunc {W} _.
Arguments clickNextPageButtonFunc {W} _.
Arguments getProfileNamesFromLinksFunc {W} _.
Arguments countActiveUsersFunc {W} _.
Arguments scrapeProfile {W} _.
Arguments elapse {W} _.
Arguments set_extractedUrls {W} _.

Section Scrape.
Context {W : Type}.
Variable tab : Tab W.

(** [await this.delay(ms)] *)
Definition delay (ms : Z) : M W unit := modify (elapse tab ms).

(** The loop of [extractProfileLinks]: [remaining] iterations are left
    before [pageNum] exceeds [maxPages]. *)
Fixpoint extractPages (tabId : Z) (remaining : nat) (allLinks : list string)
    : M W (list string) :=
  match remaining with
  | O => ret allLinks
  | S remaining' =>
      pageLinks <- extractLinksFromPageFunc tab tabId ;;
      match pageLinks with
      | [] => match allLinks with
              | [] => ret []
              | _ => ret allLinks
              end
      | _ =>
          let allLinks := foldl Utils.setAdd allLinks pageLinks in
          hasNext <- clickNextPageButtonFunc tab tabId ;;
          if negb hasNext then ret allLinks
          else
            delay 2500 ;;
            extractPages tabId remaining' allLinks
      end
  end.

Definition maxPages : nat := 100.

Definition extractProfileLinks (tabId : Z) : M W (list string) :=
  extractPages tabId maxPages [].

(** [filterProfilesByName(tabId, links, profileName)] *)
Definition filterProfilesByName (tabId : Z) (links : list string)
    (profileName : string) : M W (list string) :=
  getProfileNamesFromLinksFunc tab tabId links (toLowerCase profileName).

(** The loop of [countActiveUsersWithPagination], which has no bound of
    its own: [None] when it is still running after [fuel] pages. *)
Fixpoint countPages (tabId : Z) (fuel : nat) (totalCount : Z) (w : W)
    : option (Outcome Z * W) :=
  match fuel with
  | O => None
  | S fuel' =>
      match countActiveUsersFunc tab tabId w with
      | (Threw e, w1) => Some (Threw e, w1)
      | (Ok pageCount, w1) =>
          let totalCount := (totalCount + pageCount)%Z in
          match clickNextPageButtonFunc tab tabId w1 with
          | (Threw e, w2) => Some (Threw e, w2)
          | (Ok nextClicked, w2) =>
              if nextClicked
              then countPages tabId fuel' totalCount (elapse tab 3000 w2)
              else Some (Ok totalCount, w2)
          end
      end
  end.

Definition countActiveUsersWithPagination (tabId : Z) (fuel : nat)
    : W → option (Outcome Z * W) :=
  countPages tabId fuel 0.

(** Step 0 of [scrape]: the navigation to the list of profiles. *)
Definition navigate (tabId : Z) : M W unit :=
  try_catch
    (searchResult <- searchFunc tab tabId "Profiles" ;;
     (if negb (succeeded searchResult)
      then throw (failed "Search failed" searchResult) else ret tt) ;;
     delay 2000 ;;
     clickResult <- clickElementFunc tab tabId "a#Profiles_font" ;;
     (if negb (succeeded clickResult)
      then throw (failed "Failed to click Profiles link" clickResult) else ret tt) ;;
     delay 10000)
    (λ message, throw ("Failed to navigate to Profiles page: " +:+ message)).

(** Step 1: the links of the profiles to scrape. *)
Definition findLinks (tabId : Z) : M W (list string) :=
  try_catch
    (links <- extractProfileLinks tabId ;;
     match links with
     | [] => throw ("No profile links found on the page. "
                    +:+ "Make sure you are on the Salesforce Profiles list page.")
     | _ => ret links
     end)
    (λ message, throw ("Failed to extract profile links: " +:+ message)).

(** The filters of the test mode. *)
Definition testModeFilters (settings : Settings) (tabId : Z) (links : list string)
    : M W (list string) :=
  if TEST_MODE settings then
    links <- match TEST_MODE_PROFILE_NAME settings with
             | Some (String c rest) => filterProfilesByName tabId links (String c rest)
             | _ => ret links
             end ;;
    match TEST_MODE_LIMIT settings with
    | Some (S limit) =>
        if Nat.ltb (S limit) (length links) then ret (take (S limit) links)
        else ret links
    | _ => ret links
    end
  else ret links.

(** The entry pushed when [scrapeProfile(url)] rejects. *)
Definition errorEntry (url message : string) : Entry :=
  {| profile := {| Profiles.profileName := "ERROR";
                   Profiles.userLicense := "Unknown";
                   Profiles.profileType := "Unknown";
                   Profiles.activeUserCount := 0;
                   Profiles.modifyAllData := false;
                   Profiles.runReports := false;
                   Profiles.exportReports := false |};
     url := url;
     error := Some message |}.

Definition progressUpdate (moduleName : string) (current totalProfiles : nat)
    : JsValue :=
  JsObject
    [ ("type", JsString "MODULE_PROGRESS");
      ("moduleId", JsString "profiles");
      ("moduleName", JsString moduleName);
      ("percentage", JsNumber (percentOf current totalProfiles));
      ("statusText",
       JsString ("Scraping profile " +:+ decimal (Z.of_nat current) +:+ " of "
                 +:+ decimal (Z.of_nat totalProfiles)));
      ("current", JsNumber (Z.of_nat current));
      ("total", JsNumber (Z.of_nat totalProfiles)) ].

(** Step 2, the loop over the links: [i] links are done, [scrapedData]
    holds their entries. *)
Fixpoint scrapeEach (moduleName : string) (totalProfiles : nat)
    (links : list string) (i : nat) (scrapedData : list Entry)
    : Prog W (list Entry) :=
  match links with
  | [] => pret scrapedData
  | url :: rest =>
      let current := S i in
      pbind (emit (progressUpdate moduleName current totalProfiles)) (λ _,
      pbind (quiet (try_catch (scrapeProfile tab url)
                      (λ message, ret (errorEntry url message)))) (λ profileData,
      pbind (quiet (delay 1000)) (λ _,
      scrapeEach moduleName totalProfiles rest current
        (scrapedData ++ [profileData]))))
  end.

(** [entry] is what the loop pushes for [url]: what [scrapeProfile(url)]
    resolved with, or the error entry for what it rejected with. *)
Definition EntryFor (url : string) (entry : Entry) : Prop :=
  (∃ w w', scrapeProfile tab url w = (Ok entry, w'))
  ∨ (∃ message w w', scrapeProfile tab url w = (Threw message, w')
                     ∧ entry = errorEntry url message).

(** [scrape(context)] of a module object with the given settings and
    [name]; the manager always provides [context.progressCallback]. *)
Definition scrape (settings : Settings) (moduleName : string)
    (context : ExecutionContext) : Prog W (list Entry) :=
  pbind (quiet (navigate (tabId context))) (λ _,
  pbind (quiet (findLinks (tabId context))) (λ links,
  pbind (quiet (modify (set_extractedUrls tab links))) (λ _,
  pbind (quiet (testModeFilters settings (tabId context) links)) (λ links,
  scrapeEach moduleName (length links) links 0 [])))).

End Scrape.

(** A list of profiles (or of users) shown page by page: the page on
    display and the pages after it.  [Next] shows the following page, when
    there is one. *)
Record Paged (A : Type) : Type := {
  shown : A;
  later : list A
}.
Arguments shown {A} _.
Arguments later {A} _.

Definition next {A} : M (Paged A) bool :=
  λ site, match later site with
          | [] => (Ok false, site)
          | page :: pages => (Ok true, {| shown := page; later := pages |})
          end.

(** A tab on a paged list of profile links; a page shows its links and its
    number of active users. *)
Definition paged : Tab (Paged (list string * Z)) :=
  {| searchFunc := λ _ _, ret {| succeeded := true; failure := None |};
     clickElementFunc := λ _ _, ret {| succeeded := true; failure := None |};
     extractLinksFromPageFunc := λ _, gets (λ site, (shown site).1);
     clickNextPageButtonFunc := λ _, next;
     getProfileNamesFromLinksFunc := λ _ links _, ret links;
     countActiveUsersFunc := λ _, gets (λ site, (shown site).2);
     scrapeProfile := λ url,
       ret {| profile := {| Profiles.profileName := url;
                            Profiles.userLicense := "Salesforce";
                            Profiles.profileType := "Standard";
                            Profiles.activeUserCount := 0;
                            Profiles.modifyAllData := false;
                            Profiles.runReports := false;
                            Profiles.exportReports := false |};
              url := url; error := None |};
     elapse := λ _ site, site;
     set_extractedUrls := λ _ site, site |}.

(** A tab on a list that always has a next page. *)
Definition endless : Tab nat :=
  {| searchFunc := λ _ _, ret {| succeeded := true; failure := None |};
     clickElementFunc := λ _ _, ret {| succeeded := true; failure := None |};
     extractLinksFromPageFunc := λ _, ret [];
     clickNextPageButtonFunc := λ _ page, (Ok true, S page);
     getProfileNamesFromLinksFunc := λ _ links _, ret links;
     countActiveUsersFunc := λ _, ret 25%Z;
     scrapeProfile := λ url, throw "Timeout: Operation took too long";
     elapse := λ _ page, page;
     set_extractedUrls := λ _ page, page |}.

(** The pages of a list up to the first empty one. *)
Fixpoint beforeEmpty {A} (pages : list (list A)) : list (list A) :=
  match pages with
  | [] => []
  | [] :: _ => []
  | page :: rest => page :: beforeEmpty rest
  end.

End ProfilesScrape.

(** ** The general-information module: [scrape] *)

Module GeneralInfoScrape.
Import GeneralInfo.

(** What [scrapeCompanyInfoFunc], [scrapeSSOFunc] and
    [scrapeSitesTableFunc] return, as the module reads it: a missing text
    is empty, a missing number is 0 ([|| 0]); [None] is a missing result. *)
Record Company : Type := {
  company_accountName : string;
  company_orgId : string;
  company_location : string;
  company_edition : string
}.

Record Sso : Type := {
  sso_samlEnabled : bool;
  sso_samlSettingNames : list string
}.

Record SitesCount : Type := {
  count_total : Z;
  count_active : Z;
  count_inactive : Z
}.

Record Tab (W : Type) : Type := {
  searchFunc : Z → string → M W Reply;
  clickElementFunc : Z → string → M W Reply;
  clickCompanyInformationLinkFunc : Z → M W Reply;
  clickSingleSignOnLinkFunc : Z → M W Reply;
  checkElementExistsFunc : Z → string → M W bool;
  checkForAllClearFunc : Z → M W bool;
  scrapeCompanyInfoFunc : Z → M W Company;
  scrapeSSOFunc : Z → M W Sso;
  scrapeSitesTableFunc : Z → M W (option SitesCount);
  elapse : Z → W → W
}.
Arguments searchFunc {W} _.
Arguments clickElementFunc {W} _.
Arguments clickCompanyInformationLinkFunc {W} _.
Arguments clickSingleSignOnLinkFunc {W} _.
Arguments checkElementExistsFunc {W} _.
Arguments checkForAllClearFunc {W} _.
Arguments scrapeCompanyInfoFunc {W} _.
Arguments scrapeSSOFunc {W} _.
Arguments scrapeSitesTableFunc {W} _.
Arguments elapse {W} _.

(** The tab and the field [this.data] of the module object. *)
Record State (W : Type) : Type := {
  page : W;
  this_data : Data
}.
Arguments page {W} _.
Arguments this_data {W} _.

(** The value [scrape] assigns to [this.data] at its start. *)
Definition initial : Data :=
  {| companyInfo := {| accountName := ""; orgId := ""; location := "";
                       edition := ""; samlEnabled := false;
                       samlSettingNames := []; companyFound := false |};
     sites := {| total := 0; active := 0; inactive := 0; sitesFound := false;
                 sitesError := None |};
     releaseUpdates := {| overdueSecurityUpdates := "Not checked";
                          securityUpdatesDueSoon := "Not checked";
                          updatesFound := false; updatesError := None |} |}.

Section Scrape.
Context {W : Type}.
Variable tab : Tab W.
Variable tabId : Z.

(** A call on the tab. *)
Definition onPage {A} (m : M W A) : M (State W) A :=
  λ s, let '(o, w) := m (page s) in (o, {| page := w; this_data := this_data s |}).

Definition delay (ms : Z) : M (State W) unit :=
  modify (λ s, {| page := elapse tab ms (page s); this_data := this_data s |}).

Definition set_companyInfo (f : CompanyInfo → CompanyInfo) : M (State W) unit :=
  modify (λ s, {| page := page s;
                  this_data := {| companyInfo := f (companyInfo (this_data s));
                                  sites := sites (this_data s);
                                  releaseUpdates := releaseUpdates (this_data s) |} |}).

Definition set_sites (f : Sites → Sites) : M (State W) unit :=
  modify (λ s, {| page := page s;
                  this_data := {| companyInfo := companyInfo (this_data s);
                                  sites := f (sites (this_data s));
                                  releaseUpdates := releaseUpdates (this_data s) |} |}).

Definition set_releaseUpdates (f : ReleaseUpdates → ReleaseUpdates)
    : M (State W) unit :=
  modify (λ s, {| page := page s;
                  this_data := {| companyInfo := companyInfo (this_data s);
                                  sites := sites (this_data s);
                                  releaseUpdates := f (releaseUpdates (this_data s)) |} |}).

Definition companyFound_is (found : bool) (ci : CompanyInfo) : CompanyInfo :=
  {| accountName := accountName ci; orgId := orgId ci; location := location ci;
     edition := edition ci; samlEnabled := samlEnabled ci;
     samlSettingNames := samlSettingNames ci; companyFound := found |}.

Definition sitesFound_is (found : bool) (st : Sites) : Sites :=
  {| total := total st; active := active st; inactive := inactive st;
     sitesFound := found; sitesError := sitesError st |}.

Definition updatesFound_is (found : bool) (ru : ReleaseUpdates) : ReleaseUpdates :=
  {| overdueSecurityUpdates := overdueSecurityUpdates ru;
     securityUpdatesDueSoon := securityUpdatesDueSoon ru;
     updatesFound := found; updatesError := updatesError ru |}.

(** A click on the link with the classic id and, when that fails, the
    module's own click function. *)
Definition clickEither (selector : string) (fallback : Z → M W Reply)
    : M (State W) Reply :=
  clickResult <- onPage (clickElementFunc tab tabId selector) ;;
  if negb (succeeded clickResult) then onPage (fallback tabId) else ret clickResult.

Definition scrapeCompanyInfo : M (State W) unit :=
  try_catch
    (searchResult <- onPage (searchFunc tab tabId "Company Information") ;;
     if negb (succeeded searchResult) then ret tt
     else
       delay 2000 ;;
       clickResult <- clickEither "a#CompanyProfileInfo_font"
                        (clickCompanyInformationLinkFunc tab) ;;
       if negb (succeeded clickResult) then ret tt
       else
         delay 6000 ;;
         info <- onPage (scrapeCompanyInfoFunc tab tabId) ;;
         match company_accountName info, company_orgId info,
               company_location info, company_edition info with
         | "", "", "", "" => ret tt
         | _, _, _, _ =>
             set_companyInfo (λ _,
               {| accountName := company_accountName info;
                  orgId := company_orgId info;
                  location := company_location info;
                  edition := company_edition info;
                  samlEnabled := false;
                  samlSettingNames := [];
                  companyFound := true |})
         end)
    (λ err, set_companyInfo (companyFound_is false)).

Definition scrapeSingleSignOnInfo : M (State W) unit :=
  try_catch
    (searchResult <- onPage (searchFunc tab tabId "Single Sign-On") ;;
     if negb (succeeded searchResult) then ret tt
     else
       delay 2000 ;;
       clickResult <- clickEither "a#SAMLSSO_font" (clickSingleSignOnLinkFunc tab) ;;
       if negb (succeeded clickResult) then ret tt
       else
         delay 5000 ;;
         sso <- onPage (scrapeSSOFunc tab tabId) ;;
         set_companyInfo (λ ci,
           {| accountName := accountName ci; orgId := orgId ci;
              location := location ci; edition := edition ci;
              samlEnabled := sso_samlEnabled sso;
              samlSettingNames := sso_samlSettingNames sso;
              companyFound := companyFound ci |}))
    (λ err, ret tt).

Definition scrapeSitesInfo : M (State W) unit :=
  try_catch
    (searchResult <- onPage (searchFunc tab tabId "Sites") ;;
     (if negb (succeeded searchResult)
      then throw (failed "Search failed" searchResult) else ret tt) ;;
     delay 2000 ;;
     linkExists <- onPage (checkElementExistsFunc tab tabId "a#SetupNetworks_font") ;;
     if negb linkExists then set_sites (sitesFound_is false)
     else
       clickResult <- onPage (clickElementFunc tab tabId "a#SetupNetworks_font") ;;
       (if negb (succeeded clickResult)
        then throw (failed "Failed to click Sites link" clickResult) else ret tt) ;;
       delay 5000 ;;
       sitesData <- onPage (scrapeSitesTableFunc tab tabId) ;;
       match sitesData with
       | Some sitesData =>
           set_sites (λ st,
             {| total := count_total sitesData;
                active := count_active sitesData;
                inactive := count_inactive sitesData;
                sitesFound := true;
                sitesError := sitesError st |})
       | None => set_sites (sitesFound_is false)
       end)
    (λ message, set_sites (λ st,
       {| total := total st; active := active st; inactive := inactive st;
          sitesFound := false; sitesError := Some message |})).

(** The check behind one of the two items of the Release Updates page:
    [set] stores the verdict. *)
Definition checkItem (selector : string) (set : string → M (State W) unit)
    : M (State W) unit :=
  clickResult <- onPage (clickElementFunc tab tabId selector) ;;
  if negb (succeeded clickResult) then ret tt
  else
    delay 2000 ;;
    isAllClear <- onPage (checkForAllClearFunc tab tabId) ;;
    set (if isAllClear then "None" else "Found").

Definition scrapeReleaseUpdatesInfo : M (State W) unit :=
  try_catch
    (searchResult <- onPage (searchFunc tab tabId "Release Updates") ;;
     (if negb (succeeded searchResult)
      then throw (failed "Search failed" searchResult) else ret tt) ;;
     delay 2000 ;;
     linkExists <- onPage (checkElementExistsFunc tab tabId "a#ReleaseUpdates_font") ;;
     if negb linkExists then set_releaseUpdates (updatesFound_is false)
     else
       clickResult <- onPage (clickElementFunc tab tabId "a#ReleaseUpdates_font") ;;
       (if negb (succeeded clickResult)
        then throw (failed "Failed to click Release Updates link" clickResult)
        else ret tt) ;;
       delay 5000 ;;
       checkItem "a#duesoon__item" (λ verdict,
         set_releaseUpdates (λ ru,
           {| overdueSecurityUpdates := verdict;
              securityUpdatesDueSoon := securityUpdatesDueSoon ru;
              updatesFound := updatesFound ru;
              updatesError := updatesError ru |})) ;;
       checkItem "a#overdue__item" (λ verdict,
         set_releaseUpdates (λ ru,
           {| overdueSecurityUpdates := overdueSecurityUpdates ru;
              securityUpdatesDueSoon := verdict;
              updatesFound := updatesFound ru;
              updatesError := updatesError ru |})) ;;
       set_releaseUpdates (updatesFound_is true))
    (λ message, set_releaseUpdates (λ ru,
       {| overdueSecurityUpdates := overdueSecurityUpdates ru;
          securityUpdatesDueSoon := securityUpdatesDueSoon ru;
          updatesFound := false; updatesError := Some message |})).

(** [scrape(context)]: the value it resolves with is [this.data]. *)
Definition scrape : M (State W) Data :=
  modify (λ s, {| page := page s; this_data := initial |}) ;;
  scrapeCompanyInfo ;;
  scrapeSingleSignOnInfo ;;
  scrapeSitesInfo ;;
  scrapeReleaseUpdatesInfo ;;
  gets this_data.

End Scrape.

End GeneralInfoScrape.

(** ** [startExtraction] (background.js)

    The function as a transformation of the service worker, the run of
    the modules being the one of [executeEnabledModules].  The requests to
    the local log collector between [#region agent log] markers, which are
    not awaited and whose failures are ignored, are left out. *)

Module Worker.
Import Background.

(** What [startExtraction] itself sends to the popup. *)
Inductive Announcement : Type :=
| EXTRACTION_COMPLETE (results : list ModuleResult) (filename : string)
| EXTRACTION_ERROR (error : string).

(** The requests it starts without awaiting them: the read of the upload
    settings, whose callback triggers the upload, and the trigger of the
    login analysis.  What their callbacks do later is not part of the
    call. *)
Inductive Request : Type :=
| storage_local_get (keys : list string)
| fetch_run_login_analysis (delaySeconds : Z) (folder : string).

(** The service worker: its globals, the module manager, the world of the
    modules, and what [startExtraction] has sent and requested. *)
Record Service (W : Type) : Type := {
  globals : State;
  moduleManager : ModuleManager W;
  tabWorld : W;
  announced : list Announcement;
  requested : list Request
}.
Arguments globals {W} _.
Arguments moduleManager {W} _.
Arguments tabWorld {W} _.
Arguments announced {W} _.
Arguments requested {W} _.

(** The assignments at the start of [startExtraction]: the job object and
    the counter [completedCount] of the new run. *)
Definition beginJob (ids : list string) (customer : string) (tab : Z) (b : State)
    : State :=
  {| isExtractionActive := true;
     currentExtractionJob :=
       Some {| moduleIds := ids; job_customerName := customer; job_tabId := tab;
               cancelled := false |};
     completedCount := 0;
     sent := sent b |}.

Section StartExtraction.
Context {W : Type}.
Variable delay : Z → W → W.
(** What the other handlers of the worker do to the globals while the run
    is suspended: before each callback, and before the run is resumed at
    its end. *)
Variable interleaved : CallSite → State → State.
Variable resumed : State → State.
(** [sanitizeFilename] and [getCurrentDate()], the latter read off the
    world. *)
Variable sanitizeFilename : string → string.
Variable getCurrentDate : W → string.
Variable download : string → JsValue → M State Z.

Definition startExtraction (ids : list string) (customer : string) (tab : Z)
    (sv : Service W) : Service W :=
  if isExtractionActive (globals sv) then sv
  else
    let started := beginJob ids customer tab (globals sv) in
    let manager := enableModules ids (moduleManager sv) in
    let folderName := sanitizeFilename customer +:+ "_" +:+ getCurrentDate (tabWorld sv) in
    let totalModules := length ids in
    let '(settled, w, b) :=
      executeEnabledModules delay interleaved
        {| tabId := tab; customerName := customer |}
        (Some progressCallback)
        (Some (completionCallback download folderName totalModules))
        manager (tabWorld sv) started in
    let b := resumed b in
    let '(announcements, requests) :=
      match settled with
      | Ok results =>
          if jobCancelled b then ([], [])
          else
            ([EXTRACTION_COMPLETE results folderName],
             storage_local_get ["autoUploadToSheets"; "shareWithEmails"]
               :: (if existsb (λ r, String.eqb (moduleId r) "login-history") results
                   then [fetch_run_login_analysis 15 folderName] else []))
      | Threw message => ([EXTRACTION_ERROR message], [])
      end in
    {| globals := setJob None false b;
       moduleManager := manager;
       tabWorld := w;
       announced := announced sv ++ announcements;
       requested := requested sv ++ requests |}.

End StartExtraction.

End Worker.

(** ** The registrations of background.js and the selection of the popup *)

(** The module manager of the service worker after the nine
    [registerModule(id, new Class())] calls at the top of background.js;
    [new] gives the instance created for a class. *)
Definition registrations {W} (new : ModuleClass → Instance W) : ModuleManager W :=
  registerAll ((λ entry, (entry.1, new entry.2)) <$> registeredModules) constructor.

Module Popup.

(** The [checked] properties of the nine check boxes in
    [moduleCheckboxes]. *)
Record ModuleCheckboxes : Type := {
  licenses : bool;
  profiles : bool;
  generalInfo : bool;
  healthCheck : bool;
  storage : bool;
  sandboxes : bool;
  sharingSettings : bool;
  sensitiveData : bool;
  loginHistory : bool
}.

(** [if (checked) selected.push(id)] *)
Definition pushIf (checked : bool) (id : string) (selected : list string)
    : list string :=
  if checked then selected ++ [id] else selected.

Definition getSelectedModules (moduleCheckboxes : ModuleCheckboxes) : list string :=
  let selected := [] in
  let selected := pushIf (licenses moduleCheckboxes) "licenses" selected in
  let selected := pushIf (profiles moduleCheckboxes) "profiles" selected in
  let selected := pushIf (generalInfo moduleCheckboxes) "general-info" selected in
  let selected := pushIf (healthCheck moduleCheckboxes) "health-check" selected in
  let selected := pushIf (storage moduleCheckboxes) "storage" selected in
  let selected := pushIf (sandboxes moduleCheckboxes) "sandboxes" selected in
  let selected := pushIf (sharingSettings moduleCheckboxes) "sharing-settings" selected in
  let selected := pushIf (sensitiveData moduleCheckboxes) "sensitive-data" selected in
  let selected := pushIf (loginHistory moduleCheckboxes) "login-history" selected in
  selected.

End Popup.

(** ** [downloadModuleResults] (download-manager.js) *)

Module DownloadResults.

(** What is put in the blob: [JSON.stringify(result.jsonPayload, null, 2)],
    of type application/json, or the text [result.data || ''], of type
    text/plain. *)
Inductive Content : Type :=
| Stringified (jsonPayload : JsValue)
| Plain (data : string).

(** [result.jsonPayload != null] *)
Definition hasPayload (result : ModuleResult) : bool :=
  match jsonPayload result with
  | JsNull | JsUndefined => false
  | _ => true
  end.

Section Download.
Context {S : Type}.
(** The body of the [try] block up to
    [await chrome.downloads.download({ url, filename: filepath, saveAs: false })]:
    the serialization, the blob and the download, any of which may throw;
    it resolves with the download id. *)
Variable download : list N → Content → M S Z.

Definition attempt (folderName : list N) (result : ModuleResult) : M S Z :=
  let ext := if hasPayload result then "json" else "txt" in
  let filename := filename result +:+ "." +:+ ext in
  let filepath := folderName ++ Utf16.units "/" ++ Utf16.units filename in
  let content := if hasPayload result then Stringified (jsonPayload result)
                 else Plain (data result) in
  download filepath content.

(** The [for ... of moduleResults] loop. *)
Fixpoint eachResult (folderName : list N) (moduleResults : list ModuleResult)
    (downloadIds : list Z) : M S (list Z) :=
  match moduleResults with
  | [] => ret downloadIds
  | result :: rest =>
      downloadIds <- try_catch
                       (downloadId <- attempt folderName result ;;
                        ret (downloadIds ++ [downloadId]))
                       (λ _, ret downloadIds) ;;
      eachResult folderName rest downloadIds
  end.

(** The first version, at the time [t]. *)
Definition downloadModuleResults (t : Z) (customerName : list N)
    (moduleResults : list ModuleResult) : M S (list Z) :=
  let timestamp := getCurrentDate' t in
  let folderName := DownloadManager.sanitizeFilename customerName
                      ++ Utf16.units "_" ++ Utf16.units timestamp in
  eachResult folderName moduleResults [].

(** The second version, which turns the underscores of the customer name
    into spaces first ([customerName.replace(/_/g, ' ')]). *)
Definition downloadModuleResults' (t : Z) (customerName : list N)
    (moduleResults : list ModuleResult) : M S (list Z) :=
  let timestamp := getCurrentDate' t in
  let folderName := DownloadManager.sanitizeFilename'
                      (Utf16.replaceEach (N.eqb 95) (Utf16.units " ") customerName)
                      ++ Utf16.units "_" ++ Utf16.units timestamp in
  eachResult folderName moduleResults [].

(** The outcomes of the download of each result in turn, from the state
    [s] on. *)
Fixpoint outcomes (folderName : list N) (moduleResults : list ModuleResult) (s : S)
    : list (Outcome Z) :=
  match moduleResults with
  | [] => []
  | result :: rest =>
      let '(o, s') := attempt folderName result s in
      o :: outcomes folderName rest s'
  end.

End Download.

(** The ids of the downloads that succeeded. *)
Definition succeeded (outcomes : list (Outcome Z)) : list Z :=
  omap (λ o, match o with Ok downloadId => Some downloadId | Threw _ => None end)
    outcomes.

(** [run] resolves, after one download attempt per result, in order, into
    the folder, with the ids of the attempts that succeeded (at most one
    per result). *)
Definition AttemptsEach {S} (download : list N → Content → M S Z)
    (folderName : list N) (moduleResults : list ModuleResult) (s : S)
    (run : Outcome (list Z) * S) : Prop :=
  ∃ attempts,
    attempts = outcomes download folderName moduleResults s
    ∧ length attempts = length moduleResults
    ∧ (length (succeeded attempts) ≤ length moduleResults)%nat
    ∧ run = (Ok (succeeded attempts),
             foldl (λ s result, (attempt download folderName result s).2) s
               moduleResults).

End DownloadResults.

(** ** Notions used to state properties of the license summary *)

Module LicenseColumns.
Import Licenses.

Inductive Column : Type := Name | Total | Used.

(** The column a header is taken for by the callback of
    [data.headers.forEach], if any. *)
Definition columnOf (header : string) : option Column :=
  let headerLower := toLowerCase header in
  if includes "name" headerLower then Some Name
  else if includes "total" headerLower && includes "license" headerLower then Some Total
  else if includes "used" headerLower && includes "license" headerLower then Some Used
  else None.

(** The index found for a column, [None] standing for [-1]. *)
Definition indexOf (column : Column) (columns : Columns) : option nat :=
  match column with
  | Name => nameIndex columns
  | Total => totalLicensesIndex columns
  | Used => usedLicensesIndex columns
  end.

Definition zero : Summary :=
  {| internal := {| used := Number.Int 0; total := Number.Int 0 |};
     integration := {| used := Number.Int 0; total := Number.Int 0 |};
     external := {| used := Number.Int 0; total := Number.Int 0 |} |}.

(** The columns found in the headers. *)
Definition columnsOf (headers : list string) : Columns :=
  locateColumns {| nameIndex := None; totalLicensesIndex := None;
                   usedLicensesIndex := None |} headers 0.

(** The sum of the absolute values of the integers that [parseInt] reads
    in the used and the total cell of the rows. *)
Definition magnitude (columns : Columns) (rows : list (list string)) : Z :=
  match totalLicensesIndex columns, usedLicensesIndex columns with
  | Some totalLicensesIndex, Some usedLicensesIndex =>
      foldr (λ row sum,
               Z.abs (mathIntOrZero (removeCommas (cell row usedLicensesIndex "0")))
               + Z.abs (mathIntOrZero (removeCommas (cell row totalLicensesIndex "0")))
               + sum)%Z
            0%Z rows
  | _, _ => 0%Z
  end.

(** A number that is an integer of absolute value at most [bound], and a
    summary made of such numbers. *)
Definition UpTo (bound : Z) (x : Number.t) : Prop :=
  ∃ z, x = Number.Int z ∧ (Z.abs z ≤ bound)%Z.

Definition Exact (bound : Z) (summary : Summary) : Prop :=
  ∀ count, count ∈ [internal summary; integration summary; external summary] →
    UpTo bound (used count) ∧ UpTo bound (total count).

End LicenseColumns.

(** ** [generateFilename] (utils.js) *)

Module Filenames.

(** The replacement of [.replace(/[:.]/g, '-')] on one character. *)
Definition dashed (c : ascii) : ascii :=
  if (Ascii.eqb c ":" || Ascii.eqb c ".")%bool then "-"%char else c.

(** [s.slice(0, -n)] *)
Definition withoutLast (n : nat) (s : string) : string :=
  String.substring 0 (String.length s - n) s.

(** [generateFilename(prefix, extension)] at the time [t]; [None] stands
    for an argument left out or [undefined], which takes the default. *)
Definition generateFilename (prefix extension : option string) (t : Z) : string :=
  let prefix := default "scraped_data" prefix in
  let extension := default "xlsx" extension in
  let timestamp := withoutLast 5 (mapChars dashed (toISOString t)) in
  prefix +:+ "_" +:+ timestamp +:+ "." +:+ extension.

(** The UTC date and time of the second [seconds] after the epoch, in
    the years 0 to 9999, written [YYYY-MM-DDTHH-MM-SS]. *)
Definition utcSecond (seconds : Z) : string :=
  let '(y, m, d) := civilFromDays (seconds / 86400) in
  let s := (seconds mod 86400)%Z in
  padStart 4 y +:+ "-" +:+ padStart 2 m +:+ "-" +:+ padStart 2 d +:+ "T"
    +:+ padStart 2 (s / 3600) +:+ "-" +:+ padStart 2 ((s / 60) mod 60)
    +:+ "-" +:+ padStart 2 (s mod 60).

End Filenames.

(** * Properties *)

(** ** The registry *)

Section RegistryFacts.
Context {W : Type}.
Implicit Types (reg : gmap string (Instance W)) (h : Enabled) (m : Instance W).

Lemma registered_Some reg id m : reg !! id = Some m → registered reg id.
Proof. intros H. unfold registered. by rewrite H. Qed.

Lemma registered_None reg id : reg !! id = None → ¬ registered reg id.
Proof. intros H [m Hm]. unfold registered in *. congruence. Qed.

Lemma enableSelected_order reg ids order h out :
  (enableSelected reg ids order h out).1.1
  = order ++ filter (registered reg) ids.
Proof.
  revert order h out. induction ids as [|id ids IH]; intros order h out; simpl.
  - by rewrite app_nil_r.
  - destruct (reg !! id) as [m|] eqn:Hid.
    + rewrite IH, filter_cons_True by eauto using registered_Some.
      by rewrite <- app_assoc.
    + rewrite IH, filter_cons_False by eauto using registered_None. done.
Qed.

Lemma enableSelected_flags_mono reg ids order h out o :
  o ∈ h → o ∈ (enableSelected reg ids order h out).1.2.
Proof.
  revert order h out. induction ids as [|id ids IH]; intros order h out Ho; simpl.
  - done.
  - destruct (reg !! id) as [m|]; apply IH; [|done].
    unfold enable. set_solver.
Qed.

Lemma enableSelected_flags reg ids order h out id m :
  id ∈ ids → reg !! id = Some m →
  oid m ∈ (enableSelected reg ids order h out).1.2.
Proof.
  revert order h out. induction ids as [|id' ids IH]; intros order h out Hin Hm.
  - by apply elem_of_nil in Hin.
  - simpl. apply elem_of_cons in Hin as [->|Hin].
    + rewrite Hm. apply enableSelected_flags_mono. unfold enable. set_solver.
    + destruct (reg !! id'); by apply IH.
Qed.

Lemma collectEnabled_all reg h order :
  (∀ id, id ∈ order → ∃ m, reg !! id = Some m ∧ oid m ∈ h) →
  collectEnabled reg h order = omap (λ id, pair id <$> reg !! id) order.
Proof.
  induction order as [|id order IH]; intros Hall; [done|].
  simpl. destruct (Hall id) as (m & Hm & Ho); [by left|].
  rewrite Hm. simpl. unfold isEnabled. rewrite bool_decide_eq_true_2 by done.
  f_equal. apply IH. intros id' Hin. apply Hall. by right.
Qed.

Lemma omap_lookup_fst reg (ids : list string) :
  (omap (λ id, pair id <$> reg !! id) ids).*1 = filter (registered reg) ids.
Proof.
  induction ids as [|id ids IH]; [done|]. csimpl.
  destruct (reg !! id) as [m|] eqn:Hid; csimpl.
  - rewrite filter_cons_True by eauto using registered_Some. by rewrite IH.
  - by rewrite filter_cons_False by eauto using registered_None.
Qed.

Lemma omap_filter_registered reg (ids : list string) :
  omap (λ id, pair id <$> reg !! id) (filter (registered reg) ids)
  = omap (λ id, pair id <$> reg !! id) ids.
Proof.
  induction ids as [|id ids IH]; [done|].
  destruct (reg !! id) as [m|] eqn:Hid.
  - rewrite filter_cons_True by eauto using registered_Some. csimpl.
    by rewrite Hid, IH.
  - rewrite filter_cons_False by eauto using registered_None.
    csimpl. by rewrite Hid.
Qed.

Lemma getEnabledModules_enableModules (ids : list string) (this : ModuleManager W) :
  getEnabledModules (enableModules ids this)
  = omap (λ id, pair id <$> modules this !! id) ids.
Proof.
  unfold getEnabledModules, enableModules.
  set (disabled := foldr _ _ _).
  pose proof (enableSelected_order (modules this) ids [] disabled (console this)) as Hord.
  pose proof (λ id m, enableSelected_flags (modules this) ids [] disabled (console this) id m) as Hfl.
  destruct (enableSelected _ _ _ _ _) as [[order h] out]. simpl in *. subst order.
  rewrite collectEnabled_all.
  - apply omap_filter_registered.
  - intros id [Hreg Hin]%list_elem_of_filter. destruct Hreg as [m Hm].
    exists m. split; [done|]. by apply (Hfl id m).
Qed.

Lemma modules_enableModules (ids : list string) (this : ModuleManager W) :
  modules (enableModules ids this) = modules this.
Proof.
  unfold enableModules. by destruct (enableSelected _ _ _ _ _) as [[order h] out].
Qed.

(** C3.  [enableModules ids] followed by [getEnabledModules] yields exactly
    the identifiers of [ids] that are registered, each with the instance
    registered under it, in the order of [ids]; the result is a sublist of
    [ids], so no identifier occurs more often than it was given; an
    unknown identifier is skipped and leaves the registry as it was. *)
Theorem enable_then_getEnabledModules (ids : list string) (this : ModuleManager W) :
  let enabled := getEnabledModules (enableModules ids this) in
  enabled.*1 = filter (registered (modules this)) ids
  ∧ (∀ id m, (id, m) ∈ enabled → getModule id this = Some m)
  ∧ enabled.*1 `sublist_of` ids
  ∧ modules (enableModules ids this) = modules this.
Proof.
  simpl. rewrite getEnabledModules_enableModules, omap_lookup_fst.
  split_and!.
  - done.
  - intros id m (id' & Hin & Hm)%list_elem_of_omap.
    unfold getModule. destruct (modules this !! id') eqn:E; simplify_eq/=. done.
  - apply sublist_filter.
  - apply modules_enableModules.
Qed.

(** C9.  Registering [m2] under an identifier that already holds [m1]
    succeeds: [getModule] then returns [m2], not [m1], and all the second
    call adds to the console is one warning and the usual log line. *)
Theorem registerModule_overwrites (id : string) (m1 m2 : Instance W)
    (this : ModuleManager W) :
  oid m1 ≠ oid m2 →
  let this1 := registerModule id m1 this in
  let this2 := registerModule id m2 this1 in
  getModule id this1 = Some m1
  ∧ getModule id this2 = Some m2
  ∧ getModule id this2 ≠ Some m1
  ∧ console this2
    = console this1
        ++ [console_warn ("Module " +:+ id +:+ " is already registered. Overwriting...");
            console_log ("[ModuleManager] Registered module: " +:+ id)].
Proof.
  intros Hne. simpl. unfold getModule. simpl.
  rewrite !lookup_insert_eq. split_and!.
  - done.
  - done.
  - intros [=]. congruence.
  - destruct (decide (is_Some (Some m1))) as [_|Hn]; [done|].
    destruct Hn. by eexists.
Qed.

End RegistryFacts.

(** ** The orchestrator *)

Section OrchestratorFacts.
Context {W C : Type}.
Variable delay : Z → W → W.
Variable interleaved : CallSite → C → C.
Variable context : ExecutionContext.
Variable progressCallback : option (ProgressUpdate → M C unit).
Variable completionCallback : option (ModuleResult → M C unit).

Local Abbreviation tryBlock_ :=
  (tryBlock interleaved context progressCallback completionCallback).
Local Abbreviation catchBlock_ := (catchBlock interleaved completionCallback).
Local Abbreviation awaitScrape_ := (awaitScrape interleaved progressCallback).
Local Abbreviation gather_ := (gather interleaved context progressCallback).
Local Abbreviation deliver_ := (deliver interleaved completionCallback).
Local Abbreviation forEachModule_ :=
  (forEachModule delay interleaved context progressCallback completionCallback).
Local Abbreviation notify_ := (notify progressCallback).
Local Abbreviation Constructed_ := (Constructed interleaved context progressCallback).

Implicit Types (s : Run W C) (module : Module W).

Ltac step :=
  match goal with
  | |- context [match ?m ?x with _ => _ end] =>
      destruct (m x) as [[?|?] ?] eqn:?
  | |- context [if ?b then _ else _] => destruct b eqn:?
  | |- context [match ?o with Some _ => _ | None => _ end] => destruct o eqn:?
  end.

Lemma tryBlock_gather id module current total s :
  tryBlock_ id module current total s
  = (x <- gather_ id module current total ;;
     deliver_ (successResult id module x.1.1 x.1.2 x.2) current) s.
Proof.
  unfold tryBlock, gather, deliver, bind, ret.
  repeat (step; try reflexivity).
Qed.

Lemma awaitScrape_results t current nth s :
  results (awaitScrape_ current nth t s).2 = results s.
Proof.
  revert nth s. induction t as [o w|update k IH]; intros nth s; simpl; [done|].
  destruct (notify_ _ _) as [r c]. by rewrite IH.
Qed.

(** Before [results.push] the array is untouched. *)
Lemma keeps_bind {A B} (m : M (Run W C) A) (k : A → M (Run W C) B) :
  keeps m → (∀ a, keeps (k a)) → keeps (bind m k).
Proof.
  intros Hm Hk s. unfold bind. specialize (Hm s).
  destruct (m s) as [[a|e] s1]; simpl in *; [|done].
  by rewrite Hk.
Qed.

Lemma keeps_ret {A} (a : A) : keeps (ret (S := Run W C) a).
Proof. by intros s. Qed.

Lemma keeps_throw {A} e : keeps (throw (S := Run W C) (A := A) e).
Proof. by intros s. Qed.

Lemma keeps_liftW {A} (m : M W A) : keeps (liftW (C := C) m).
Proof. intros s. unfold liftW. by destruct (m (world s)). Qed.

Lemma keeps_liftC {A} (m : M C A) : keeps (liftC (W := W) m).
Proof. intros s. unfold liftC. by destruct (m (caller s)). Qed.

Lemma keeps_atSite site : keeps (atSite (W := W) interleaved site).
Proof. by intros s. Qed.

Lemma gather_results id module current total :
  keeps (gather_ id module current total).
Proof.
  unfold gather.
  repeat first
    [ apply keeps_bind; [|intros ?]
    | apply keeps_atSite | apply keeps_liftC | apply keeps_liftW
    | apply keeps_ret | apply keeps_throw
    | intros s; apply awaitScrape_results
    | match goal with |- keeps (if ?b then _ else _) => destruct b end
    | match goal with
      | |- keeps (match ?o with Some _ => _ | None => _ end) => destruct o
      end ].
Qed.

Ltac step_in H :=
  match type of H with
  | context [match ?m ?x with _ => _ end] =>
      destruct (m x) as [[?|?] ?] eqn:?
  | context [if ?b then _ else _] => destruct b eqn:?
  | context [match ?o with Some _ => _ | None => _ end] => destruct o eqn:?
  end.

(** What [gather] returns comes from the module. *)
Lemma gather_Ok id module current total s data formattedData payload s' :
  gather_ id module current total s = (Ok (data, formattedData, payload), s') →
  (∃ s1 s2, awaitScrape_ current 0 (scrape module context (world s1)) s1
            = (Ok data, s2))
  ∧ (∃ w w', formatData module data w = (Ok formattedData, w'))
  ∧ StructuredPayload module data payload.
Proof.
  unfold gather, bind, ret, throw, StructuredPayload.
  intros H.
  repeat (step_in H; try discriminate H).
  all: simplify_eq; split_and!; eauto.
  all: unfold liftW in *;
    repeat match goal with
           | H : (let '(_, _) := ?m ?w in _) = _ |- _ =>
               destruct (m w) as [? ?] eqn:?; simplify_eq
           end; eauto.
  destruct (getJsonPayload module) as [f|]; simpl in *.
  - destruct (f data w) as [o w2] eqn:Hf. simplify_eq. eauto.
  - by simplify_eq.
Qed.

(** The rest of the [try] block always completes: it pushes the result
    and swallows what the completion callback throws. *)
Lemma deliver_spec result current s :
  ∃ c', deliver_ result current s
        = (Ok tt, {| world := world s; caller := c';
                     results := results s ++ [result] |}).
Proof.
  unfold deliver, bind, push, atSite, modify, try_catch, liftC, ret. simpl.
  destruct completionCallback as [callback|]; simpl; [|eauto].
  destruct (callback result _) as [[[]|e] c']; eauto.
Qed.

(** The [catch] block pushes the failure result, whatever the completion
    callback does afterwards. *)
Lemma catchBlock_spec id module current message s :
  ∃ o c', catchBlock_ id module current message s
          = (o, {| world := world s; caller := c';
                   results := results s ++ [failureResult id module message] |})
          ∧ (toleratesFailures completionCallback → o = Ok tt).
Proof.
  unfold catchBlock, bind, push, atSite, modify, liftC, ret. simpl.
  destruct completionCallback as [callback|] eqn:Hcb; simpl; [|eauto].
  destruct (callback _ _) as [o c'] eqn:Hcall.
  exists o, c'. split; [done|]. intros Htol.
  destruct (Htol callback eq_refl (failureResult id module message)
              (interleaved (AtCompletion current) (caller s)) eq_refl) as [c'' Hc].
  congruence.
Qed.

(** One iteration of the loop, up to the delay: exactly one result is
    pushed, before the completion callback is called; the iteration throws
    only if that callback throws on a failure result. *)
Lemma iteration_spec id module current total s :
  ∃ o result s',
    try_catch (tryBlock_ id module current total) (catchBlock_ id module current) s
    = (o, s')
    ∧ results s' = results s ++ [result]
    ∧ Constructed_ id module current result
    ∧ (toleratesFailures completionCallback → o = Ok tt)
    ∧ (o ≠ Ok tt → success result = false).
Proof.
  unfold try_catch. rewrite tryBlock_gather. unfold bind.
  pose proof (gather_results id module current total s) as Hkeep.
  destruct (gather_ id module current total s) as [[[[data text] payload]|e] s1] eqn:Hg;
    simpl in *.
  - destruct (deliver_spec (successResult id module data text payload) current s1)
      as [c' ->].
    eexists _, _, _. split; [done|]. simpl. rewrite Hkeep.
    split; [done|]. split; [|done].
    right. exists data, text, payload. split; [done|].
    eapply gather_Ok, Hg.
  - destruct (catchBlock_spec id module current e s1) as (o & c' & -> & Htol).
    eexists _, _, _. split; [done|]. simpl. rewrite Hkeep.
    split; [done|]. split; [|done].
    left. by exists e.
Qed.

Lemma forEachModule_spec enabledModules current total s :
  ∃ o s',
    forEachModule_ enabledModules current total s = (o, s')
    ∧ (o = Ok tt →
       ∃ rs, results s' = results s ++ rs
             ∧ Forall2 (λ r e, ∃ n, Constructed_ e.1 (self e.2) n r) rs enabledModules)
    ∧ (toleratesFailures completionCallback → o = Ok tt).
Proof.
  revert current s.
  induction enabledModules as [|[id module] rest IH]; intros current s.
  - exists (Ok tt), s. split_and!; [done| |done].
    intros _. exists []. by rewrite app_nil_r.
  - simpl. unfold bind at 1.
    destruct (iteration_spec id (self module) (S current) total s)
      as (o & r & s1 & -> & Hres & Hbuilt & Htol & _).
    destruct o as [[]|e].
    + unfold bind at 1. unfold liftW at 1, modify at 1. simpl.
      set (s2 := {| world := delay 500 (world s1); caller := caller s1;
                    results := results s1 |}).
      destruct (IH (S current) s2) as (o' & s' & -> & Hok & Htol').
      exists o', s'. split_and!; [done| |done].
      intros Ho'. destruct (Hok Ho') as (rs & Hrs & Hall).
      exists (r :: rs). split.
      * rewrite Hrs. simpl. rewrite Hres. by rewrite <- app_assoc.
      * constructor; [|done]. by exists (S current).
    + exists (Threw e), s1. split_and!; [done|done|].
      intros Ht. by specialize (Htol Ht).
Qed.

Lemma Constructed_fields id module n r :
  Constructed_ id module n r →
  moduleId r = id ∧ moduleName r = name module ∧ filename r = getFilename module.
Proof. intros [(e & ->)|(d & t & p & -> & _)]; done. Qed.

(** C1.  When [executeEnabledModules] returns, its list holds one result
    per enabled module, in the order of [getEnabledModules], each carrying
    the identifier, name and file name of its module, be it a success or a
    failure; and it does return whenever the completion callback returns
    normally on failure results (the one call the loop does not guard). *)
Theorem one_result_per_enabled_module (this : ModuleManager W) (w : W) (c : C) :
  let enabled := getEnabledModules this in
  let run := executeEnabledModules delay interleaved context progressCallback
               completionCallback this w c in
  (∀ rs, run.1.1 = Ok rs →
     length rs = length enabled
     ∧ moduleId <$> rs = enabled.*1
     ∧ Forall2 (λ r e, moduleName r = name (self e.2)
                       ∧ filename r = getFilename (self e.2)) rs enabled)
  ∧ (toleratesFailures completionCallback → ∃ rs, run.1.1 = Ok rs).
Proof.
  simpl. unfold executeEnabledModules, bind, gets.
  set (s0 := {| world := w; caller := c; results := [] |}).
  destruct (forEachModule_spec (getEnabledModules this) 0
              (length (getEnabledModules this)) s0) as (o & s' & -> & Hok & Htol).
  split.
  - intros rs Hrun. destruct o as [[]|e]; simpl in Hrun; [|discriminate].
    destruct (Hok eq_refl) as (rs' & Hrs & Hall). simpl in Hrs.
    assert (rs = rs') as -> by congruence. clear Hrun Hrs.
    split_and!.
    + by eapply Forall2_length.
    + clear Hok Htol. induction Hall as [|r e rs es (n & Hr) _ IH]; [done|].
      csimpl. f_equal; [|done]. by apply Constructed_fields in Hr as (? & _).
    + eapply Forall2_impl; [exact Hall|].
      intros r e (n & Hr). by apply Constructed_fields in Hr as (_ & ? & ?).
  - intros Ht. rewrite (Htol Ht). simpl. eauto.
Qed.

(** *** Runs whose callbacks return normally *)

Lemma notify_neverThrows update c :
  neverThrows progressCallback → ∃ c', notify_ update c = (Ok tt, c').
Proof.
  intros Hq. unfold notify. destruct progressCallback as [f|] eqn:Hf.
  - apply (Hq f eq_refl).
  - by exists c.
Qed.

Lemma awaitScrape_neverThrows t current nth s :
  neverThrows progressCallback →
  ∃ c', awaitScrape_ current nth t s
        = ((settle t).1, {| world := (settle t).2; caller := c';
                            results := results s |}).
Proof.
  intros Hq. revert nth s.
  induction t as [o w|update k IH]; intros nth s; simpl; [eauto|].
  destruct (notify_neverThrows (Forwarded update)
              (interleaved (AtProgress current nth) (caller s)) Hq) as [c' ->].
  destruct (IH (Ok tt) (S nth)
              {| world := world s; caller := c'; results := results s |})
    as [c'' ->].
  eauto.
Qed.

Lemma gather_neverThrows id module current total s :
  neverThrows progressCallback →
  ∃ c', gather_ id module current total s
        = ((moduleOutcome context module (world s)).1,
           {| world := (moduleOutcome context module (world s)).2;
              caller := c'; results := results s |}).
Proof.
  intros Hq. unfold gather, moduleOutcome, bind, atSite, modify, liftC, liftW.
  simpl.
  destruct (notify_neverThrows (MODULE_STARTED id (name module) current total)
              (interleaved (AtStart current) (caller s)) Hq) as [c1 ->].
  simpl.
  destruct (initialize module (world s)) as [[[]|e] w1]; simpl; [|eauto].
  destruct (validate module w1) as [[v|e] w2]; simpl; [|eauto].
  destruct (valid v); unfold ret, throw; simpl; [|eauto].
  destruct (awaitScrape_neverThrows (scrape module context w2) current 0
              {| world := w2; caller := c1; results := results s |} Hq)
    as [c2 ->].
  simpl. destruct (settle (scrape module context w2)) as [[data|e] w3]; simpl; [|eauto].
  destruct (formatData module data w3) as [[text|e] w4]; simpl; [|eauto].
  destruct (getJsonPayload module) as [f|]; simpl; [|eauto].
  destruct (f data w4) as [[payload|e] w5]; simpl; eauto.
Qed.

Lemma iteration_neverThrows id module current total s :
  neverThrows progressCallback → toleratesFailures completionCallback →
  ∃ c',
    try_catch (tryBlock_ id module current total) (catchBlock_ id module current) s
    = (Ok tt, {| world := (resultOf context id module (world s)).2;
                 caller := c';
                 results := results s ++ [(resultOf context id module (world s)).1] |}).
Proof.
  intros Hq Htol. unfold try_catch. rewrite tryBlock_gather. unfold bind, resultOf.
  destruct (gather_neverThrows id module current total s Hq) as [c1 ->].
  destruct (moduleOutcome context module (world s)) as [[[[data text] payload]|e] w1];
    simpl.
  - destruct (deliver_spec (successResult id module data text payload) current
                {| world := w1; caller := c1; results := results s |}) as [c2 ->].
    eauto.
  - destruct (catchBlock_spec id module current e
                {| world := w1; caller := c1; results := results s |})
      as (o & c2 & -> & Ho).
    rewrite (Ho Htol). eauto.
Qed.

Lemma forEachModule_neverThrows enabledModules current total s :
  neverThrows progressCallback → toleratesFailures completionCallback →
  ∃ c',
    forEachModule_ enabledModules current total s
    = (Ok tt, {| world := (runAll delay context enabledModules (world s)).2;
                 caller := c';
                 results := results s
                            ++ (runAll delay context enabledModules (world s)).1 |}).
Proof.
  intros Hq Htol. revert current s.
  induction enabledModules as [|[id module] rest IH]; intros current s.
  - exists (caller s). simpl. rewrite app_nil_r. by destruct s.
  - simpl. unfold bind at 1.
    destruct (iteration_neverThrows id (self module) (S current) total s Hq Htol)
      as [c1 ->].
    unfold bind at 1. unfold liftW at 1, modify at 1. simpl.
    destruct (resultOf context id (self module) (world s)) as [r w1]. simpl.
    destruct (IH (S current)
                {| world := delay 500 w1; caller := c1;
                   results := results s ++ [r] |}) as [c2 ->].
    simpl. destruct (runAll delay context rest (delay 500 w1)) as [rs w2]. simpl.
    exists c2. by rewrite <- app_assoc.
Qed.

Lemma bind_assoc {St A B D} (m : M St A) (k : A → M St B) (k' : B → M St D)
    (st : St) :
  bind (bind m k) k' st = bind m (λ a, bind (k a) k') st.
Proof. unfold bind. by destruct (m st) as [[a|e] st1]. Qed.

Lemma bind_ext {St A B} (m : M St A) (k k' : A → M St B) (st : St) :
  (∀ a st1, k a st1 = k' a st1) → bind m k st = bind m k' st.
Proof. intros H. unfold bind. destruct (m st) as [[a|e] st1]; [apply H|done]. Qed.

Lemma forEachModule_app pre post current total s :
  forEachModule_ (pre ++ post) current total s
  = (forEachModule_ pre current total ;;
     forEachModule_ post (current + length pre) total) s.
Proof.
  revert current s. induction pre as [|[id module] pre IH]; intros current s.
  - simpl. unfold bind, ret. by rewrite Nat.add_0_r.
  - simpl. rewrite bind_assoc. apply bind_ext. intros _ s1.
    rewrite bind_assoc. apply bind_ext. intros _ s2.
    rewrite IH. by rewrite Nat.add_succ_comm.
Qed.

Lemma StepFails_moduleOutcome module w message w' :
  StepFails context module w message w' →
  moduleOutcome context module w = (Threw message, w').
Proof.
  unfold moduleOutcome, bind, ret, throw.
  intros [msg w1 Hi|msg w1 w2 Hi Hv|v w1 w2 Hi Hv Hinv|v msg w1 w2 w3 Hi Hv Hval Hs].
  - by rewrite Hi.
  - by rewrite Hi, Hv.
  - by rewrite Hi, Hv, Hinv.
  - by rewrite Hi, Hv, Hval, Hs.
Qed.

Lemma executeEnabledModules_neverThrows (this : ModuleManager W) (w : W) (c : C) :
  neverThrows progressCallback → toleratesFailures completionCallback →
  (executeEnabledModules delay interleaved context progressCallback
     completionCallback this w c).1
  = (Ok (runAll delay context (getEnabledModules this) w).1,
     (runAll delay context (getEnabledModules this) w).2).
Proof.
  intros Hq Htol. unfold executeEnabledModules, bind, gets.
  destruct (forEachModule_neverThrows (getEnabledModules this) 0
              (length (getEnabledModules this))
              {| world := w; caller := c; results := [] |} Hq Htol) as [c' ->].
  done.
Qed.

Lemma runAll_ids enabledModules w :
  moduleId <$> (runAll delay context enabledModules w).1 = enabledModules.*1.
Proof.
  revert w. induction enabledModules as [|[id module] rest IH]; intros w; [done|].
  simpl. unfold resultOf.
  destruct (moduleOutcome context (self module) w) as [[[[d t] p]|e] w1];
    specialize (IH (delay 500 w1));
    destruct (runAll delay context rest (delay 500 w1)) as [rs w2];
    csimpl in *; by rewrite IH.
Qed.



(** C10.  Every iteration of the loop pushes exactly one result, a failure
    or a success.  A run of the module that ends in failure, which is a
    [try] block that throws [message] (from [initialize], [validate],
    [scrape], [formatData], [getJsonPayload] or the start notification),
    gets the result of the [catch] block for that message: its structured
    payload is the object [{ error: message }] and it has no raw data.  A
    run of the module whose steps all complete gets the result of the
    [try] block: it is a success and carries as raw data the value that
    [scrape] resolved with in this run, as report what [formatData]
    returned for it, and as structured payload what [getJsonPayload]
    returned for it (the raw data itself when the module has no such
    method).  Hence every result of a returned list is of one of these two
    shapes. *)
Theorem failure_and_success_results :
  (∀ id (module : Instance W) current total s,
     ∃ r, results (forEachModule_ [(id, module)] current total s).2
          = results s ++ [r]
        ∧ moduleId r = id
        ∧ if success r then
            error r = None ∧ is_Some (rawData r)
          else
            ∃ message, error r = Some message
              ∧ jsonPayload r = JsObject [("error", JsString message)]
              ∧ rawData r = None)
  ∧ (∀ id (module : Instance W) current total s message s1,
       tryBlock_ id (self module) (S current) total s = (Threw message, s1) →
       ∃ r, results (forEachModule_ [(id, module)] current total s).2
            = results s ++ [r]
          ∧ r = failureResult id (self module) message
          ∧ success r = false
          ∧ error r = Some message
          ∧ jsonPayload r = JsObject [("error", JsString message)]
          ∧ rawData r = None)
  ∧ (∀ id (module : Instance W) current total s c1 w1 validation w2 raw s3
       formattedData w4 payload w5,
       notify_ (MODULE_STARTED id (name (self module)) (S current) total)
         (interleaved (AtStart (S current)) (caller s)) = (Ok tt, c1) →
       initialize (self module) (world s) = (Ok tt, w1) →
       validate (self module) w1 = (Ok validation, w2) →
       valid validation = true →
       awaitScrape_ (S current) 0 (scrape (self module) context w2)
         {| world := w2; caller := c1; results := results s |} = (Ok raw, s3) →
       formatData (self module) raw (world s3) = (Ok formattedData, w4) →
       match getJsonPayload (self module) with
       | Some f => f raw w4 = (Ok payload, w5)
       | None => payload = raw
       end →
       ∃ r, results (forEachModule_ [(id, module)] current total s).2
            = results s ++ [r]
          ∧ r = successResult id (self module) raw formattedData payload
          ∧ success r = true
          ∧ error r = None
          ∧ rawData r = Some raw
          ∧ data r = formattedData
          ∧ jsonPayload r = payload)
  ∧ (∀ (this : ModuleManager W) w c rs,
       (executeEnabledModules delay interleaved context progressCallback
          completionCallback this w c).1.1 = Ok rs →
       Forall (λ r, if success r
                    then error r = None ∧ is_Some (rawData r)
                    else ∃ message, error r = Some message
                           ∧ jsonPayload r = JsObject [("error", JsString message)]
                           ∧ rawData r = None) rs).
Proof.
  assert (∀ id (module : Instance W) current total s o s1,
            try_catch (tryBlock_ id (self module) (S current) total)
              (catchBlock_ id (self module) (S current)) s = (o, s1) →
            results (forEachModule_ [(id, module)] current total s).2 = results s1)
    as Hloop.
  { intros id module current total s o s1 Hit. simpl. unfold bind at 1.
    rewrite Hit. destruct o as [[]|e]; [|done].
    unfold bind, liftW, modify, ret. done. }
  split_and!.
  - intros id module current total s.
    destruct (iteration_spec id (self module) (S current) total s)
      as (o & r & s1 & Hit & Hres & Hbuilt & _ & _).
    exists r. rewrite (Hloop _ _ _ _ _ _ _ Hit). split; [done|].
    destruct Hbuilt as [(e & ->)|(d & t & p & -> & _)]; simpl; eauto.
  - intros id module current total s message s1 Htry.
    exists (failureResult id (self module) message).
    split; [|done].
    assert (results s1 = results s) as Hkeep.
    { rewrite tryBlock_gather in Htry. unfold bind in Htry.
      pose proof (gather_results id (self module) (S current) total s) as Hg.
      destruct (gather_ id (self module) (S current) total s) as [[x|e] sg];
        simpl in *.
      - destruct (deliver_spec (successResult id (self module) x.1.1 x.1.2 x.2)
                    (S current) sg) as [c' Hd].
        rewrite Hd in Htry. discriminate Htry.
      - by injection Htry as _ <-. }
    destruct (catchBlock_spec id (self module) (S current) message s1)
      as (o & c' & Hcatch & _).
    erewrite Hloop; [|unfold try_catch; rewrite Htry; exact Hcatch].
    simpl. by rewrite Hkeep.
  - intros id module current total s c1 w1 validation w2 raw s3 formattedData w4
      payload w5 Hstart Hinit Hvalidate Hvalid Hscrape Hformat Hpayload.
    exists (successResult id (self module) raw formattedData payload).
    split; [|done].
    assert (∃ sg, gather_ id (self module) (S current) total s
                  = (Ok (raw, formattedData, payload), sg)
                  ∧ results sg = results s) as (sg & Hg & Hkeep).
    { pose proof (gather_results id (self module) (S current) total s) as Hk.
      revert Hk.
      unfold gather, bind, atSite, modify, liftC, liftW, ret. simpl.
      rewrite Hstart. simpl. rewrite Hinit. simpl. rewrite Hvalidate. simpl.
      rewrite Hvalid. simpl. rewrite Hscrape. simpl. rewrite Hformat. simpl.
      destruct (getJsonPayload (self module)) as [f|]; simpl.
      - rewrite Hpayload. simpl. eauto.
      - subst payload. simpl. eauto. }
    destruct (deliver_spec (successResult id (self module) raw formattedData payload)
                (S current) sg) as [c' Hd].
    erewrite Hloop;
      [|unfold try_catch; rewrite tryBlock_gather; unfold bind; rewrite Hg;
        simpl; rewrite Hd; reflexivity].
    simpl. by rewrite Hkeep.
  - intros this w c rs. unfold executeEnabledModules, bind, gets.
    destruct (forEachModule_spec (getEnabledModules this) 0
                (length (getEnabledModules this))
                {| world := w; caller := c; results := [] |})
      as (o & s' & -> & Hok & _).
    destruct o as [[]|e]; simpl; [|discriminate].
    intros [= <-]. destruct (Hok eq_refl) as (rs & -> & Hall). simpl.
    clear Hok. induction Hall as [|r e rs es (n & Hr) _ IH]; constructor; [|done].
    destruct Hr as [(msg & ->)|(d & t & p & -> & _)]; simpl; eauto.
Qed.
End OrchestratorFacts.

(** ** Cancellation *)

Section BackgroundFacts.
Variable download : string → JsValue → M Background.State Z.
Variable folderName : string.
Variable totalModules : nat.

Lemma progressCallback_neverThrows :
  neverThrows (Some Background.progressCallback).
Proof.
  intros f [= <-] progress b.
  unfold Background.progressCallback, bind, gets, ret,
    Background.sendMessageToPopup, modify.
  destruct (Background.jobCancelled b); eauto.
Qed.

Lemma completionCallback_neverThrows :
  neverThrows (Some (Background.completionCallback download folderName totalModules)).
Proof.
  intros f [= <-] result b.
  unfold Background.completionCallback, bind, gets, ret, try_catch,
    Background.sendMessageToPopup, Background.incrementCompleted, modify.
  destruct (Background.jobCancelled b); [eauto|]. simpl.
  destruct (String.eqb _ _); [eauto|].
  destruct (download _ _ _) as [[downloadId|downloadError] b']; eauto.
Qed.

Lemma neverThrows_toleratesFailures {C} (callback : option (ModuleResult → M C unit)) :
  neverThrows callback → toleratesFailures callback.
Proof. intros Hq f Hf r c _. by apply (Hq f Hf). Qed.

(** C4.  Take two runs of [executeEnabledModules] as [startExtraction]
    calls it, from the same manager and world: whatever the state of the
    job at the start of each (cancelled or not) and whatever the other
    handlers do to it before each callback ([cancelExtraction], for one),
    both runs resolve with the same result list and leave the same world;
    the list has a result for every enabled module, in order. *)
Theorem run_is_cancellation_agnostic {W} (delay : Z → W → W)
    (context : ExecutionContext) (this : ModuleManager W) (w : W)
    (interleaved1 interleaved2 : CallSite → Background.State → Background.State)
    (job1 job2 : Background.State) :
  let run interleaved job :=
    executeEnabledModules delay interleaved context
      (Some Background.progressCallback)
      (Some (Background.completionCallback download folderName totalModules))
      this w job in
  (run interleaved1 job1).1 = (run interleaved2 job2).1
  ∧ ∃ rs, (run interleaved1 job1).1.1 = Ok rs
          ∧ moduleId <$> rs = (getEnabledModules this).*1.
Proof.
  simpl.
  rewrite !executeEnabledModules_neverThrows
    by auto using progressCallback_neverThrows, completionCallback_neverThrows,
                  neverThrows_toleratesFailures.
  split; [done|]. simpl. eexists. split; [done|]. apply runAll_ids.
Qed.

End BackgroundFacts.

(** ** The health-check module: polling and retry *)

Section HealthCheckFacts.
Import HealthCheck.
Context {Page : Type}.
Variable chrome : Chrome Page.
Variable context : ExecutionContext.

Local Abbreviation raceScrape_ := (raceScrape chrome context).
Local Abbreviation executeScript_ := (executeScript chrome context).
Local Abbreviation delay_ := (delay chrome).
Local Abbreviation scrapeWithRetry_ := (scrapeWithRetry chrome context).
Local Abbreviation waitForTables_ := (waitForTables chrome context).

Implicit Types (b : Browser Page) (replies : list (Outcome InjectionResult)).

Local Arguments looksLikeNoData : simpl never.
Local Arguments scrapingError : simpl never.

Lemma spaced_singleton ms func settled :
  spaced ms func [settled] = [Injected func settled].
Proof. done. Qed.

Lemma spaced_cons ms func settled replies :
  replies ≠ [] →
  spaced ms func (settled :: replies)
  = Injected func settled :: Delayed ms :: spaced ms func replies.
Proof. by destruct replies. Qed.

Lemma removelast_cons {A} (x : A) (l : list A) :
  l ≠ [] → removelast (x :: l) = x :: removelast l.
Proof. by destruct l. Qed.

Lemma last_cons_ne {A} (x : A) (l : list A) :
  l ≠ [] → last (x :: l) = last l.
Proof. by destruct l. Qed.

Lemma raceScrape_events b :
  events (raceScrape_ b).2
  = events b ++ [Injected scrapeHealthCheckDataFunc (raceScrape_ b).1].
Proof.
  unfold raceScrape.
  destruct (scripting_executeScript _ _ _ _ _) as [[o took] p].
  by destruct (_ <? _)%Z.
Qed.


Lemma scrapeWithRetry_spec (remaining attempt : nat) healthCheckData b o b' :
  (1 ≤ remaining)%nat → attempt + remaining = S MAX_SCRAPE_ATTEMPTS →
  scrapeWithRetry_ remaining attempt healthCheckData b = (o, b') →
  ∃ replies,
    events b' = events b ++ spaced RETRY_WAIT_MS scrapeHealthCheckDataFunc replies
    ∧ (1 ≤ length replies ≤ remaining)%nat
    ∧ Forall NoDataReply (removelast replies)
    ∧ ∀ data, last replies = Some (Ok (Scraped data)) →
              scrapingError data = None →
              o = Ok (Some data)
              ∧ ((length replies < remaining)%nat → looksLikeNoData (Some data) = false).
Proof.
  revert attempt healthCheckData b o b'.
  induction remaining as [|n IH];
    intros attempt healthCheckData b o b' Hpos Hinv Hrun; [lia|].
  simpl in Hrun. unfold bind at 1 in Hrun.
  pose proof (raceScrape_events b) as Hev.
  destruct (raceScrape_ b) as [[res|e] b1]; simpl in Hev.
  2:{ simplify_eq. exists [Threw e]. simpl.
      split_and!; [done|lia|lia|constructor|]. intros data [=]. }
  destruct (dataOf res) as [data|] eqn:Hdata.
  2:{ unfold throw in Hrun. simplify_eq. exists [Ok res]. simpl.
      split_and!; [done|lia|lia|constructor|].
      intros data [= ->]. discriminate Hdata. }
  assert (res = Scraped data) as -> by (destruct res; simplify_eq/=; done).
  destruct (scrapingError data) as [e|] eqn:Herr.
  { unfold throw in Hrun. simplify_eq. exists [Ok (Scraped data)]. simpl.
    split_and!; [done|lia|lia|constructor|].
    intros data' [= <-]. congruence. }
  destruct (looksLikeNoData (Some data)) eqn:Hno; simpl in Hrun.
  2:{ unfold ret in Hrun. simplify_eq. exists [Ok (Scraped data)]. simpl.
      split_and!; [done|lia|lia|constructor|].
      intros data' [= <-] _. done. }
  destruct n as [|n].
  - assert ((attempt <? MAX_SCRAPE_ATTEMPTS)%nat = false) as Hlt
      by (apply Nat.ltb_ge; unfold MAX_SCRAPE_ATTEMPTS in *; lia).
    rewrite Hlt in Hrun. unfold bind, ret in Hrun. simpl in Hrun.
    unfold ret in Hrun. simplify_eq.
    exists [Ok (Scraped data)]. simpl.
    split_and!; [done|lia|lia|constructor|].
    intros data' [= <-] _. split; [done|lia].
  - assert ((attempt <? MAX_SCRAPE_ATTEMPTS)%nat = true) as Hlt
      by (apply Nat.ltb_lt; unfold MAX_SCRAPE_ATTEMPTS in *; lia).
    rewrite Hlt in Hrun. unfold bind at 1 in Hrun.
    unfold delay at 1, modify at 1 in Hrun.
    match type of Hrun with
    | scrapeWithRetry _ _ _ _ _ ?b2 = _ =>
        destruct (IH (S attempt) (Some data) b2 o b')
          as (replies & Hev' & Hlen & Hno' & Hlast); [lia|lia|exact Hrun|]
    end.
    assert (replies ≠ []) as Hne by (intros ->; simpl in Hlen; lia).
    exists (Ok (Scraped data) :: replies).
    rewrite spaced_cons, removelast_cons, last_cons_ne by done.
    split_and!.
    + rewrite Hev'. simpl. rewrite Hev. by rewrite <- !app_assoc.
    + simpl. lia.
    + simpl. lia.
    + constructor; [|done]. by exists data.
    + intros data' Hl He. destruct (Hlast data' Hl He) as [-> Hearly].
      split; [done|]. simpl. intros ?. apply Hearly. lia.
Qed.


(** C7.  The scrape step calls the scrape function at least once and at
    most 3 times, with one wait of 10000 ms between two consecutive calls
    and no other action; every call but the last settled with data that
    carries no scraping error and matches the no-data heuristic, and a call
    that is not the third is the last only if its reply does not match it.
    Whenever the last call settles with data that carries no scraping
    error, the step resolves with that data, also when it is the third
    reply in a row that looks like no data. *)
Theorem scrape_retries_on_no_data b :
  let '(o, b') := scrapeStep chrome context b in
  ∃ replies,
    events b' = events b ++ spaced 10000 scrapeHealthCheckDataFunc replies
    ∧ (1 ≤ length replies ≤ 3)%nat
    ∧ Forall NoDataReply (removelast replies)
    ∧ ∀ data, last replies = Some (Ok (Scraped data)) →
              scrapingError data = None →
              o = Ok data
              ∧ ((length replies < 3)%nat → looksLikeNoData (Some data) = false).
Proof.
  unfold scrapeStep, bind.
  destruct (scrapeWithRetry_ MAX_SCRAPE_ATTEMPTS 1 None b) as [o1 b1] eqn:Hrun.
  apply scrapeWithRetry_spec in Hrun as (replies & Hev & Hlen & Hno & Hlast);
    [|unfold MAX_SCRAPE_ATTEMPTS; lia|done].
  assert (∃ o b', (match o1 with
                   | Ok a => match a with
                             | Some data => ret data
                             | None => throw
                                 "Cannot read properties of null (reading 'percentage')"
                             end b1
                   | Threw e => (Threw e, b1)
                   end) = (o, b') ∧ b' = b1
                  ∧ ∀ data, o1 = Ok (Some data) → o = Ok data)
    as (o & b' & -> & -> & Ho).
  { destruct o1 as [[data|]|e]; eexists _, _; split_and!; try done.
    by intros data' [= <-]. }
  exists replies. split_and!; [done|apply Hlen|apply Hlen|done|].
  intros data Hl He. destruct (Hlast data Hl He) as [Ho1 Hearly].
  split; [by apply Ho|done].
Qed.

End HealthCheckFacts.

(** ** Reports *)

Section StringFacts.
Lemma append_cons (c : ascii) (s t : string) :
  String c s +:+ t = String c (s +:+ t).
Proof. reflexivity. Qed.

Lemma append_empty_l (s : string) : "" +:+ s = s.
Proof. reflexivity. Qed.

Lemma append_assoc (s1 s2 s3 : string) : (s1 +:+ s2) +:+ s3 = s1 +:+ (s2 +:+ s3).
Proof.
  induction s1 as [|c s1 IH]; [done|]. rewrite !append_cons. by rewrite IH.
Qed.

Lemma append_empty_r (s : string) : s +:+ "" = s.
Proof. induction s as [|c s IH]; [done|]. rewrite append_cons. by rewrite IH. Qed.

Lemma length_append (s1 s2 : string) :
  String.length (s1 +:+ s2) = String.length s1 + String.length s2.
Proof.
  induction s1 as [|c s1 IH]; [done|]. rewrite append_cons. simpl. by rewrite IH.
Qed.

Lemma append_inv_tail (s1 s2 t : string) : s1 +:+ t = s2 +:+ t → s1 = s2.
Proof.
  revert s2. induction s1 as [|c1 s1 IH]; intros [|c2 s2] H.
  - done.
  - apply (f_equal String.length) in H. rewrite append_empty_l, append_cons in H.
    simpl in H. rewrite length_append in H. lia.
  - apply (f_equal String.length) in H. rewrite append_empty_l, append_cons in H.
    simpl in H. rewrite length_append in H. lia.
  - rewrite !append_cons in H. injection H as -> H. f_equal. by apply IH.
Qed.

(** A loop that only appends to [output] appends the same text whatever
    [output] holds. *)
Lemma foldl_append {A} (step : string → A → string) (l : list A) (output : string) :
  (∀ out x, step out x = out +:+ step "" x) →
  foldl step output l = output +:+ foldl step "" l.
Proof.
  intros Hstep. revert output. induction l as [|x l IH]; intros output; simpl.
  - by rewrite append_empty_r.
  - rewrite IH, (IH (step "" x)), Hstep. by rewrite append_assoc.
Qed.
End StringFacts.

Section ReportFacts.
Context {S : Type}.
Variable Date_now : S → Z.
Variable toLocaleString : Z → string.

Lemma foldl_appends {A} (step : string → A → string) (l : list A) (a b : string) :
  (∀ out x, step out x = out +:+ step "" x) →
  foldl step (a +:+ b) l = (a +:+ b) +:+ foldl step "" l.
Proof. apply foldl_append. Qed.

Ltac normalize := rewrite ?append_assoc, ?append_empty_l; reflexivity.

Lemma appendSection_append output heading rows :
  HealthCheck.appendSection output heading rows
  = output +:+ HealthCheck.appendSection "" heading rows.
Proof.
  unfold HealthCheck.appendSection.
  rewrite !(foldl_appends _ rows) by (intros; reflexivity).
  normalize.
Qed.

Lemma formatData_text data (s : S) :
  HealthCheck.formatData Date_now toLocaleString data s
  = (Ok (("HEALTH CHECK REPORT" +:+ LF +:+ "Generated: ")
           +:+ (toLocaleString (Date_now s) +:+ HealthCheck.afterStamp data)), s).
Proof.
  unfold HealthCheck.formatData, HealthCheck.afterStamp. f_equal. f_equal.
  destruct (HealthCheck.tables data) as [|table rest].
  - rewrite !(foldl_appends _ (HealthCheck.sections data))
      by (intros out [rows heading]; apply appendSection_append).
    normalize.
  - rewrite !(foldl_appends _ (table :: rest))
      by (intros out t; apply appendSection_append).
    normalize.
Qed.

Lemma stamped_text title body (s : S) :
  Appends body →
  stamped Date_now toLocaleString title body s
  = (Ok ((title +:+ LF +:+ "Generated: ")
           +:+ (toLocaleString (Date_now s) +:+ LF +:+ body "")), s).
Proof.
  intros Hbody. unfold stamped. f_equal. f_equal. rewrite Hbody. normalize.
Qed.

Lemma Licenses_body_appends data : Appends (Licenses.body data).
Proof.
  intros output. unfold Licenses.body.
  destruct (Licenses.licenses data) as [|row rows] eqn:Hrows; [normalize|].
  destruct (Licenses.headers data);
    rewrite !(foldl_appends _ (row :: rows)) by (intros; normalize);
    normalize.
Qed.

Lemma Profiles_row_appends output profile :
  Profiles.row output profile = output +:+ Profiles.row "" profile.
Proof. unfold Profiles.row. normalize. Qed.

Lemma Profiles_body_appends data : Appends (Profiles.body data).
Proof.
  intros output. unfold Profiles.body.
  rewrite !(foldl_appends _ data) by apply Profiles_row_appends.
  normalize.
Qed.

Lemma errorLine_appends output error :
  GeneralInfo.errorLine output error = output +:+ GeneralInfo.errorLine "" error.
Proof.
  unfold GeneralInfo.errorLine. destruct error as [[|c rest]|]; try normalize.
  - by rewrite append_empty_r.
  - by rewrite append_empty_r.
Qed.

Lemma GeneralInfo_body_appends data : Appends (GeneralInfo.body data).
Proof.
  intros output. unfold GeneralInfo.body.
  destruct (GeneralInfo.companyFound _), (GeneralInfo.sitesFound _),
    (GeneralInfo.updatesFound _); simpl negb; cbv iota;
    rewrite ?(errorLine_appends (_ +:+ _)); normalize.
Qed.

Lemma appendTable_appends table (a b : string) :
  Storage.appendTable (a +:+ b) table = (a +:+ b) +:+ Storage.appendTable "" table.
Proof.
  unfold Storage.appendTable. destruct (Storage.headers table).
  - rewrite foldl_appends by (intros; normalize). reflexivity.
  - rewrite (foldl_append _ (Storage.rows table) (_ +:+ _)),
            (foldl_append _ (Storage.rows table) ("" +:+ _))
      by (intros; normalize).
    normalize.
Qed.

Lemma Storage_body_appends data : Appends (Storage.body data).
Proof.
  intros output. unfold Storage.body.
  rewrite !appendTable_appends. normalize.
Qed.

Lemma Sandboxes_body_appends data : Appends (Sandboxes.body data).
Proof.
  intros output. unfold Sandboxes.body.
  rewrite !(foldl_appends _ (Sandboxes.rows data)) by (intros; normalize).
  rewrite !(foldl_appends _ (Sandboxes.licenses data)) by (intros; normalize).
  normalize.
Qed.

Lemma SharingSettings_body_appends data : Appends (SharingSettings.body data).
Proof.
  intros output. unfold SharingSettings.body.
  rewrite !(foldl_appends _ (SharingSettings.rows data)) by (intros; normalize).
  normalize.
Qed.

(** Every stamped report is a fixed text, the rendered time and a text that
    depends on the raw data alone. *)
Lemma classFormatData_text (c : ModuleClass) (data : RawData c) :
  unstamped c = false →
  ∃ before after, ∀ s,
    classFormatData Date_now toLocaleString c data s
    = (Ok (before +:+ (toLocaleString (Date_now s) +:+ after)), s).
Proof.
  destruct c; simpl; intros Hc; try discriminate Hc; eexists _, _; intros s.
  - apply stamped_text, Licenses_body_appends.
  - apply stamped_text, Profiles_body_appends.
  - apply stamped_text, GeneralInfo_body_appends.
  - apply formatData_text.
  - apply stamped_text, Storage_body_appends.
  - apply stamped_text, Sandboxes_body_appends.
  - apply stamped_text, SharingSettings_body_appends.
Qed.

(** C5, as it holds.  For every module class, [formatData] returns a report
    without throwing and leaves the state as it is.  The reports of the
    sensitive-data and login-history modules depend on the raw data alone.
    The report of each of the seven other modules is determined by the raw
    data and the rendering of the time of the call: on the same raw data
    two calls yield the same text exactly when [new Date().toLocaleString()]
    is the same at both. *)
Theorem formatData_depends_on_data_and_clock (c : ModuleClass) (data : RawData c)
    (s s' : S) :
  (∃ text, classFormatData Date_now toLocaleString c data s = (Ok text, s))
  ∧ ((classFormatData Date_now toLocaleString c data s).1
     = (classFormatData Date_now toLocaleString c data s').1
     ↔ unstamped c = true
       ∨ toLocaleString (Date_now s) = toLocaleString (Date_now s')).
Proof.
  destruct (unstamped c) eqn:Hc.
  - destruct c; try discriminate Hc; simpl.
    + split; [by eexists|]. split; [by left|done].
    + split; [by eexists|]. split; [by left|done].
  - destruct (classFormatData_text c data Hc) as (before & after & Htext).
    rewrite !Htext. simpl. split; [by eexists|].
    split.
    + intros [= H]. right. apply String.app_inj in H.
      by apply append_inv_tail in H.
    + intros [Hu | ->]; [discriminate Hu | reflexivity].
Qed.
End ReportFacts.

(** C5, as stated, fails: on the same raw data the report of the
    health-check module differs between a call and a call one second
    later. *)
Lemma formatData_differs_one_second_later :
  let formatData :=
    classFormatData HealthCheck.now toLocaleString_en_US_UTC HealthCheckModule in
  let b := Samples.browserAt 1768405512000 [] in
  let later := (HealthCheck.delay Samples.scripted 1000 b).2 in
  (formatData Samples.scored b).1 ≠ (formatData Samples.scored later).1.
Proof. vm_compute. discriminate. Qed.

Lemma formatData_depends_on_data_and_clock_witness :
  let formatData :=
    classFormatData HealthCheck.now toLocaleString_en_US_UTC HealthCheckModule in
  (formatData Samples.scored (Samples.browserAt 1768405512000 [])).1
  = (formatData Samples.scored (Samples.browserAt 1768405512400 [])).1.
Proof.
  apply (formatData_depends_on_data_and_clock HealthCheck.now toLocaleString_en_US_UTC
           HealthCheckModule Samples.scored).
  right. vm_compute. reflexivity.
Defined.

(** ** File names *)

(** C6, as it holds.  Every module background.js registers is either the
    placeholder [SensitiveDataModule], whose file name is the one
    [BaseModule] derives from its name, [sensitive-data], without an
    ordinal; or one of the eight others, whose file name starts with an
    ordinal between 1 and 8 that is the position of the module among those
    eight in registration order. *)
Theorem registered_filenames (id : string) (c : ModuleClass) :
  (id, c) ∈ registeredModules →
  (c = SensitiveDataModule
   ∧ classFilename c = "sensitive-data"
   ∧ ordinalPrefix (classFilename c) = None)
  ∨ (∃ n, ordinalPrefix (classFilename c) = Some n
          ∧ (1 ≤ n ≤ 8)%nat
          ∧ filter (λ entry, entry.2 ≠ SensitiveDataModule) registeredModules
              !! (n - 1)%nat = Some (id, c)).
Proof.
  unfold registeredModules. intros Hin.
  repeat (apply elem_of_cons in Hin as [[= -> ->]|Hin];
          [first [ left; by vm_compute
                 | right; eexists; split; [vm_compute; reflexivity|];
                   split; [lia|]; vm_compute; reflexivity ]|]).
  by apply elem_of_nil in Hin.
Qed.

Lemma registered_filenames_witness :
  ("health-check", HealthCheckModule) ∈ registeredModules
  ∧ ordinalPrefix (classFilename HealthCheckModule) = Some 4.
Proof.
  assert (("health-check", HealthCheckModule) ∈ registeredModules) as Hin
    by (unfold registeredModules; set_solver).
  split; [exact Hin|].
  destruct (registered_filenames "health-check" HealthCheckModule Hin)
    as [(H & _)|(n & Hn & _)].
  - discriminate H.
  - vm_compute. reflexivity.
Defined.


(** C6, as stated, fails: the file name of the registered sensitive-data
    module carries no ordinal prefix. *)
Lemma sensitive_data_filename_has_no_ordinal :
  ("sensitive-data", SensitiveDataModule) ∈ registeredModules
  ∧ classFilename SensitiveDataModule = "sensitive-data"
  ∧ ¬ ∃ n, ordinalPrefix (classFilename SensitiveDataModule) = Some n.
Proof.
  split_and!.
  - unfold registeredModules. set_solver.
  - vm_compute. reflexivity.
  - intros [n Hn]. vm_compute in Hn. discriminate Hn.
Qed.

(** ** The properties on the sample inputs *)

Lemma registerModule_overwrites_witness :
  oid Samples.profiles ≠ oid Samples.profiles'
  ∧ getModule "profiles" (registerModule "profiles" Samples.profiles' Samples.manager)
    = Some Samples.profiles'.
Proof.
  assert (oid Samples.profiles ≠ oid Samples.profiles') as Hne by (vm_compute; lia).
  split; [exact Hne|].
  pose proof (registerModule_overwrites "profiles" Samples.profiles Samples.profiles'
                (registerModule "licenses" Samples.licenses constructor) Hne) as H.
  exact (proj1 (proj2 H)).
Defined.

Lemma enable_then_getEnabledModules_witness :
  (getEnabledModules
     (enableModules ["profiles"; "unknown"; "licenses"] Samples.manager)).*1
  = ["profiles"; "licenses"].
Proof.
  rewrite (proj1 (enable_then_getEnabledModules
                    ["profiles"; "unknown"; "licenses"] Samples.manager)).
  vm_compute. reflexivity.
Defined.

Lemma one_result_per_enabled_module_witness :
  ∃ rs, (Samples.run ["licenses"; "profiles"]).1.1 = Ok rs
        ∧ length rs = 2
        ∧ moduleId <$> rs = ["licenses"; "profiles"].
Proof.
  pose proof (one_result_per_enabled_module (λ _ w, w) (λ _ c, c) Samples.context
                None None (enableModules ["licenses"; "profiles"] Samples.manager)
                0 tt) as [Hreturned Hreturns].
  destruct Hreturns as [rs Hrs]; [intros f [=]|].
  exists rs. split; [exact Hrs|].
  destruct (Hreturned rs Hrs) as (Hlen & Hids & _).
  split.
  - rewrite Hlen. vm_compute. reflexivity.
  - rewrite Hids. vm_compute. reflexivity.
Defined.


Lemma run_is_cancellation_agnostic_witness :
  (Samples.jobRun Samples.cancelBeforeSecond Samples.job).1
  = (Samples.jobRun (λ _ b, b) Samples.job).1.
Proof.
  exact (proj1 (run_is_cancellation_agnostic Samples.download "Acme_2026-01-14" 2
                  (λ _ w, w) Samples.context
                  (enableModules ["licenses"; "profiles"] Samples.manager) 0
                  Samples.cancelBeforeSecond (λ _ b, b) Samples.job Samples.job)).
Defined.

Lemma failure_and_success_results_witness :
  let loop := forEachModule (λ _ w, w) (λ _ c, c) Samples.context None None in
  let s0 : Run nat unit := {| world := 0; caller := tt; results := [] |} in
  (∃ r, results (loop [("licenses", Samples.licenses)] 0 2 s0).2 = results s0 ++ [r]
        ∧ r = successResult "licenses" (self Samples.licenses) (JsNumber 7) "report"
                (JsNumber 7)
        ∧ success r = true
        ∧ error r = None
        ∧ rawData r = Some (JsNumber 7)
        ∧ data r = "report"
        ∧ jsonPayload r = JsNumber 7)
  ∧ (∃ r, results (loop [("profiles", Samples.profiles)] 0 2 s0).2 = results s0 ++ [r]
          ∧ r = failureResult "profiles" (self Samples.profiles) "link not found"
          ∧ success r = false
          ∧ error r = Some "link not found"
          ∧ jsonPayload r = JsObject [("error", JsString "link not found")]
          ∧ rawData r = None)
  ∧ ∃ rs, (Samples.run ["licenses"; "profiles"]).1.1 = Ok rs
          ∧ Forall (λ r, if success r
                         then error r = None ∧ is_Some (rawData r)
                         else ∃ message, error r = Some message
                                ∧ jsonPayload r = JsObject [("error", JsString message)]
                                ∧ rawData r = None) rs.
Proof.
  intros loop s0.
  destruct (failure_and_success_results (λ _ w, w) (λ _ c, c) Samples.context
              (C := unit) (W := nat) None None) as (_ & Hfailure & Hsuccess & Hall).
  split_and!.
  - apply (Hsuccess "licenses" Samples.licenses 0 2 s0 tt 0
             {| valid := true; message := None |} 0 (JsNumber 7)
             {| world := 1; caller := tt; results := [] |} "report" 1 (JsNumber 7) 1);
      reflexivity.
  - apply (Hfailure "profiles" Samples.profiles 0 2 s0 "link not found"
             {| world := 1; caller := tt; results := [] |}).
    vm_compute. reflexivity.
  - eexists. split; [vm_compute; reflexivity|].
    apply (Hall (enableModules ["licenses"; "profiles"] Samples.manager) 0 tt).
    vm_compute. reflexivity.
Defined.

Lemma scrape_retries_on_no_data_witness :
  let b := Samples.browserAt 0 Samples.stillLoading in
  let run := HealthCheck.scrapeStep Samples.scripted Samples.context b in
  run.1 = Ok Samples.unrendered
  ∧ ∃ replies,
      HealthCheck.events run.2
      = HealthCheck.events b
          ++ HealthCheck.spaced 10000 HealthCheck.scrapeHealthCheckDataFunc replies
      ∧ (1 ≤ length replies ≤ 3)%nat.
Proof.
  cbv zeta. split; [vm_compute; reflexivity|].
  pose proof (scrape_retries_on_no_data Samples.scripted Samples.context
                (Samples.browserAt 0 Samples.stillLoading)) as H.
  destruct (HealthCheck.scrapeStep _ _ _) as [o b'].
  destruct H as (replies & Hev & Hlen & _).
  exists replies. split; [exact Hev|exact Hlen].
Defined.


(** The one call the loop leaves unguarded: when a module fails and the
    completion callback throws on its failure result, the run is rejected and
    the modules after it are not started. *)
Example completion_callback_throwing_on_failure :
  executeEnabledModules (λ _ w, w) (λ _ c, c) Samples.context None Samples.throwing
    (enableModules ["profiles"; "licenses"] Samples.manager) 0 tt
  = (Threw "download failed", 1, tt).
Proof. vm_compute. reflexivity. Qed.

(** On a success result the same callback is guarded. *)
Example completion_callback_throwing_on_success :
  (executeEnabledModules (λ _ w, w) (λ _ c, c) Samples.context None Samples.throwing
     (enableModules ["licenses"] Samples.manager) 0 tt).1.1
  = Ok [successResult "licenses" (self Samples.licenses) (JsNumber 7) "report"
          (JsNumber 7)].
Proof. vm_compute. reflexivity. Qed.

(** The scenario of the specification: a page that never shows the tables
    and never finishes rendering; the promise resolves, before the 150 s
    timer fires, with the placeholder data. *)
Example health_check_on_a_page_that_never_renders :
  let script := [(Ok (HealthCheck.Step true None), 100%N);
                 (Ok (HealthCheck.Step true None), 100%N)]
                  ++ Samples.neverReady ++ Samples.stillLoading in
  let run := HealthCheck.scrape Samples.scripted Samples.context
               (Samples.browserAt 0 script) in
  HealthCheck.promise run = Ok Samples.unrendered
  ∧ HealthCheck.settledAt run = 61340%Z.
Proof. vm_compute. split; reflexivity. Qed.

(** ** Further properties of the registry *)

Section RegistryExtras.
Context {W : Type}.
Implicit Types (reg : gmap string (Instance W)) (h : Enabled) (m : Instance W).

Lemma getModule_registerModule id id' m (this : ModuleManager W) :
  getModule id' (registerModule id m this)
  = if decide (id' = id) then Some m else getModule id' this.
Proof.
  unfold getModule, registerModule. simpl.
  destruct (decide (id' = id)) as [->|Hne].
  - by rewrite lookup_insert_eq.
  - by rewrite lookup_insert_ne.
Qed.

(** X1.  After any sequence of registrations on a new manager, [getModule]
    returns the instance of the last registration under the identifier
    asked for, and [null] when there was none: a registration changes the
    lookup of its own identifier only, and an identifier that was never
    registered is not found. *)
Theorem getModule_after_registrations (entries : list (string * Instance W))
    (id : string) :
  getModule id (registerAll entries constructor)
  = snd <$> last (filter (λ entry, entry.1 = id) entries).
Proof.
  unfold registerAll.
  assert (∀ this : ModuleManager W,
    getModule id (foldl (λ this entry, registerModule entry.1 entry.2 this) this entries)
    = match last (filter (λ entry, entry.1 = id) entries) with
      | Some entry => Some entry.2
      | None => getModule id this
      end) as H.
  { induction entries as [|[id' m] entries IH]; intros this; [done|].
    simpl. rewrite IH. rewrite getModule_registerModule.
    destruct (decide (id = id')) as [->|Hne].
    - rewrite filter_cons_True by done.
      rewrite last_cons. by destruct (last _).
    - rewrite filter_cons_False by (simpl; congruence). done. }
  rewrite H. destruct (last _); [done|]. unfold getModule, constructor. simpl.
  apply lookup_empty.
Qed.

Lemma disable_all_spec reg h o :
  o ∈ foldr (λ entry h, disable entry.2 h) h (map_to_list reg)
  ↔ o ∈ h ∧ ∀ id m, reg !! id = Some m → oid m ≠ o.
Proof.
  assert (∀ l : list (string * Instance W),
    o ∈ foldr (λ entry h, disable entry.2 h) h l
    ↔ o ∈ h ∧ ∀ e, e ∈ l → oid e.2 ≠ o) as H.
  { induction l as [|e l IH]; simpl.
    - split; [intros ?; split; [done|]; intros e []%elem_of_nil|tauto].
    - unfold disable at 1. rewrite elem_of_difference, IH, not_elem_of_singleton.
      split.
      + intros [[Hh Hl] Hne]. split; [done|].
        intros e' [->|?]%elem_of_cons; [congruence|by apply Hl].
      + intros [Hh Hl]. split_and!; [done| |].
        * intros e' He. apply Hl. by right.
        * intros Heq. apply (Hl e); [by left|done]. }
  rewrite H. split; intros [Hh Hl]; (split; [done|]).
  - intros id m Hm. apply (Hl (id, m)). by apply elem_of_map_to_list.
  - intros [id m] Hm%elem_of_map_to_list. by apply (Hl id m).
Qed.

Lemma enableSelected_flags_spec reg ids order h out o :
  o ∈ (enableSelected reg ids order h out).1.2
  ↔ o ∈ h ∨ ∃ id m, id ∈ ids ∧ reg !! id = Some m ∧ oid m = o.
Proof.
  revert order h out. induction ids as [|id ids IH]; intros order h out; simpl.
  - split; [by left|]. intros [?|(id & m & []%elem_of_nil & _)]. done.
  - destruct (reg !! id) as [m|] eqn:Hid; rewrite IH.
    + unfold enable. rewrite elem_of_union, elem_of_singleton. split.
      * intros [[->|?]|(id' & m' & ? & ? & ?)].
        -- right. exists id, m. split_and!; [by left|done|done].
        -- by left.
        -- right. exists id', m'. split_and!; [by right|done|done].
      * intros [?|(id' & m' & [->|?]%elem_of_cons & Hm' & <-)].
        -- left. by right.
        -- left. left. congruence.
        -- right. by exists id', m'.
    + split.
      * intros [?|(id' & m' & ? & ? & ?)]; [by left|].
        right. exists id', m'. split_and!; [by right|done|done].
      * intros [?|(id' & m' & [->|?]%elem_of_cons & Hm' & <-)]; [by left|congruence|].
        right. by exists id', m'.
Qed.

Lemma flags_enableModules (ids : list string) (this : ModuleManager W) o :
  o ∈ flags (enableModules ids this)
  ↔ (∃ id m, id ∈ ids ∧ modules this !! id = Some m ∧ oid m = o)
    ∨ (o ∈ flags this ∧ ∀ id m, modules this !! id = Some m → oid m ≠ o).
Proof.
  unfold enableModules.
  pose proof (enableSelected_flags_spec (modules this) ids []
    (foldr (λ entry h, disable entry.2 h) (flags this) (map_to_list (modules this)))
    (console this) o) as H.
  destruct (enableSelected _ _ _ _ _) as [[order h] out]. simpl in *.
  rewrite H, disable_all_spec. tauto.
Qed.

Lemma executionOrder_enableModules (ids : list string) (this : ModuleManager W) :
  executionOrder (enableModules ids this) = filter (registered (modules this)) ids.
Proof.
  unfold enableModules.
  pose proof (enableSelected_order (modules this) ids []
    (foldr (λ entry h, disable entry.2 h) (flags this) (map_to_list (modules this)))
    (console this)) as H.
  destruct (enableSelected _ _ _ _ _) as [[order h] out]. done.
Qed.

(** X3.  The [isEnabled] flag of a module object after [enableModules]:
    it is set exactly when the object is registered under one of the
    identifiers given, or when it is not registered at all and was set
    before.  An object registered under two identifiers is enabled as soon
    as one of them is given; with the empty list every registered object
    is disabled. *)
Theorem enableModules_sets_the_flags (ids : list string) (this : ModuleManager W)
    (m : Instance W) :
  isEnabled m (flags (enableModules ids this)) = true
  ↔ (∃ id m', id ∈ ids ∧ getModule id this = Some m' ∧ oid m' = oid m)
    ∨ (isEnabled m (flags this) = true
       ∧ ∀ id m', getModule id this = Some m' → oid m' ≠ oid m).
Proof.
  unfold isEnabled. rewrite !bool_decide_eq_true. apply flags_enableModules.
Qed.

(** X2.  A call of [enableModules] overrides the selection of an earlier
    call: the registry, the execution order, the [isEnabled] flags and the
    list [getEnabledModules] returns are those of the last call alone. *)
Theorem enableModules_overrides (ids1 ids2 : list string) (this : ModuleManager W) :
  let once := enableModules ids2 this in
  let twice := enableModules ids2 (enableModules ids1 this) in
  modules twice = modules once
  ∧ executionOrder twice = executionOrder once
  ∧ flags twice = flags once
  ∧ getEnabledModules twice = getEnabledModules once.
Proof.
  simpl. split_and!.
  - by rewrite !modules_enableModules.
  - by rewrite !executionOrder_enableModules, modules_enableModules.
  - apply set_eq. intros o.
    rewrite (flags_enableModules ids2 (enableModules ids1 this)),
      (flags_enableModules ids2 this), modules_enableModules,
      (flags_enableModules ids1 this).
    split.
    + intros [?|[[(id & m & _ & Hm & Ho)|[? _]] Hno]]; [by left| |by right].
      by destruct (Hno id m).
    + intros [?|[? Hno]]; [by left|]. right. split; [|done]. by right.
  - by rewrite !getEnabledModules_enableModules, modules_enableModules.
Qed.

Lemma collectEnabled_insert reg h order id m :
  oid m ∉ h →
  collectEnabled (<[id := m]> reg) h order
  = filter (λ e, e.1 ≠ id) (collectEnabled reg h order).
Proof.
  intros Hm. induction order as [|id' order IH]; [done|]. simpl.
  destruct (decide (id' = id)) as [->|Hne].
  - rewrite lookup_insert_eq. unfold isEnabled at 1.
    rewrite bool_decide_eq_false_2 by done. rewrite IH.
    destruct (reg !! id) as [m'|]; [|done].
    destruct (isEnabled m' h); [|done].
    by rewrite filter_cons_False by (simpl; tauto).
  - rewrite lookup_insert_ne by done.
    destruct (reg !! id') as [m'|]; [|done].
    destruct (isEnabled m' h); [|done].
    by rewrite filter_cons_True, IH by done.
Qed.

(** X4.  Registering a module object that is not enabled (a new instance
    is not) under an identifier removes that identifier from the list
    [getEnabledModules] returns, and leaves the other entries as they are:
    a module replaced after [enableModules] is not run until
    [enableModules] is called again. *)
Theorem replacing_a_module_disables_its_id (id : string) (m : Instance W)
    (this : ModuleManager W) :
  isEnabled m (flags this) = false →
  getEnabledModules (registerModule id m this)
  = filter (λ entry, entry.1 ≠ id) (getEnabledModules this).
Proof.
  unfold isEnabled. rewrite bool_decide_eq_false. intros Hm.
  unfold getEnabledModules, registerModule. simpl.
  by apply collectEnabled_insert.
Qed.

End RegistryExtras.

Lemma replacing_a_module_disables_its_id_witness :
  let this := enableModules ["licenses"; "profiles"] Samples.manager in
  getEnabledModules (registerModule "profiles" Samples.profiles' this)
  = filter (λ entry, entry.1 ≠ "profiles") (getEnabledModules this).
Proof.
  apply (replacing_a_module_disables_its_id "profiles" Samples.profiles').
  vm_compute. reflexivity.
Defined.

(** ** Further properties of a run *)

Section OrchestratorExtras.
Context {W C : Type}.
Variable delay : Z → W → W.
Variable interleaved : CallSite → C → C.
Variable context : ExecutionContext.
Variable progressCallback : option (ProgressUpdate → M C unit).
Variable completionCallback : option (ModuleResult → M C unit).

Local Abbreviation tryBlock_ :=
  (tryBlock interleaved context progressCallback completionCallback).
Local Abbreviation catchBlock_ := (catchBlock interleaved completionCallback).
Local Abbreviation awaitScrape_ := (awaitScrape interleaved progressCallback).
Local Abbreviation gather_ := (gather interleaved context progressCallback).
Local Abbreviation deliver_ := (deliver interleaved completionCallback).
Local Abbreviation forEachModule_ :=
  (forEachModule delay interleaved context progressCallback completionCallback).
Local Abbreviation notify_ := (notify progressCallback).
Local Abbreviation Constructed_ := (Constructed interleaved context progressCallback).

Implicit Types (s : Run W C) (module : Module W).

Lemma awaitScrape_caller (P : C → Prop) current t nth s :
  (∀ nth u c, P c →
     P (notify_ (Forwarded u) (interleaved (AtProgress current nth) c)).2) →
  P (caller s) → P (caller (awaitScrape_ current nth t s).2).
Proof.
  intros HP. revert nth s. induction t as [o w|update k IH]; intros nth s Hs; simpl.
  - done.
  - specialize (HP nth update (caller s) Hs).
    destruct (notify_ _ _) as [r c]. by apply IH.
Qed.

Lemma gather_caller (P P' : C → Prop) id module current total s :
  (∀ c, P c →
     P' (notify_ (MODULE_STARTED id (name module) current total)
           (interleaved (AtStart current) c)).2) →
  (∀ nth u c, P' c →
     P' (notify_ (Forwarded u) (interleaved (AtProgress current nth) c)).2) →
  P (caller s) → P' (caller (gather_ id module current total s).2).
Proof.
  intros Hstart Hprogress Hs.
  unfold gather, bind, atSite, modify, liftC, liftW, ret, throw. simpl.
  specialize (Hstart (caller s) Hs).
  destruct (notify_ _ _) as [[[]|e] c1]; simpl in *; [|done].
  destruct (initialize module (world s)) as [[[]|e] w1]; simpl; [|done].
  destruct (validate module w1) as [[v|e] w2]; simpl; [|done].
  destruct (valid v); simpl; [|done].
  set (s2 := {| world := w2; caller := c1; results := results s |}).
  pose proof (awaitScrape_caller P' current (scrape module context w2) 0 s2
                Hprogress Hstart) as Hawait.
  destruct (awaitScrape_ _ _ _ s2) as [[data|e] s3]; simpl in *; [|done].
  destruct (formatData module data (world s3)) as [[text|e] w4]; simpl; [|done].
  destruct (getJsonPayload module) as [f|]; simpl; [|done].
  by destruct (f data w4) as [[payload|e] w5].
Qed.

(** One iteration, with the caller's state followed through it. *)
Lemma iteration_caller (P P' : C → Prop) id module current total s :
  (∀ c, P c →
     P' (notify_ (MODULE_STARTED id (name module) current total)
           (interleaved (AtStart current) c)).2) →
  (∀ nth u c, P' c →
     P' (notify_ (Forwarded u) (interleaved (AtProgress current nth) c)).2) →
  P (caller s) →
  ∃ o r s' c1,
    try_catch (tryBlock_ id module current total) (catchBlock_ id module current) s
    = (o, s')
    ∧ results s' = results s ++ [r]
    ∧ Constructed_ id module current r
    ∧ P' c1
    ∧ match completionCallback with
      | None => o = Ok tt ∧ caller s' = interleaved (AtCompletion current) c1
      | Some callback =>
          caller s' = (callback r (interleaved (AtCompletion current) c1)).2
          ∧ o = (if success r then Ok tt
                 else (callback r (interleaved (AtCompletion current) c1)).1)
      end.
Proof.
  intros Hstart Hprogress Hs.
  unfold try_catch. rewrite tryBlock_gather. unfold bind.
  pose proof (gather_results interleaved context progressCallback id module
                current total s) as Hkeep.
  pose proof (gather_caller P P' id module current total s Hstart Hprogress Hs)
    as Hcaller.
  destruct (gather_ id module current total s) as [[[[data text] payload]|e] s1] eqn:Hg;
    simpl in *.
  - exists (Ok tt), (successResult id module data text payload).
    unfold deliver, bind, push, atSite, modify, try_catch, liftC, ret. simpl.
    destruct completionCallback as [callback|]; simpl.
    + destruct (callback _ _) as [[[]|e] c'] eqn:Hcb; simpl;
        eexists _, (caller s1); (split; [done|]); simpl; rewrite Hkeep, ?Hcb;
        split_and!; try done;
        right; exists data, text, payload; (split; [done|]);
        eapply gather_Ok, Hg.
    + eexists _, (caller s1). split; [done|]. simpl. rewrite Hkeep.
      split_and!; try done.
      right. exists data, text, payload. split; [done|]. eapply gather_Ok, Hg.
  - unfold catchBlock, bind, push, atSite, modify, liftC, ret. simpl.
    destruct completionCallback as [callback|]; simpl.
    + destruct (callback _ _) as [o c'] eqn:Hcb.
      exists o, (failureResult id module e). eexists _, (caller s1).
      split; [done|]. simpl. rewrite Hkeep, ?Hcb. split_and!; try done.
      left. by exists e.
    + exists (Ok tt), (failureResult id module e). eexists _, (caller s1).
      split; [done|]. simpl. rewrite Hkeep. split_and!; try done.
      left. by exists e.
Qed.

End OrchestratorExtras.

Section RunExtras.
Context {W C : Type}.
Variable delay : Z → W → W.
Variable context : ExecutionContext.

(** X5.  When none of the identifiers given to [enableModules] is
    registered (the empty list, for one), no module is enabled and
    [executeEnabledModules] resolves with the empty list at once: no
    callback is called, nothing is awaited, the world and the caller's
    state are as before. *)
Theorem nothing_enabled_nothing_runs (interleaved : CallSite → C → C)
    (progressCallback : option (ProgressUpdate → M C unit))
    (completionCallback : option (ModuleResult → M C unit))
    (ids : list string) (this : ModuleManager W) (w : W) (c : C) :
  (∀ id, id ∈ ids → getModule id this = None) →
  getEnabledModules (enableModules ids this) = []
  ∧ executeEnabledModules delay interleaved context progressCallback
      completionCallback (enableModules ids this) w c
    = (Ok [], w, c).
Proof.
  intros Hnone.
  assert (getEnabledModules (enableModules ids this) = []) as Hempty.
  { rewrite getEnabledModules_enableModules.
    induction ids as [|id ids IH]; [done|]. csimpl.
    unfold getModule in Hnone. rewrite (Hnone id) by left. csimpl.
    apply IH. intros id' Hin. apply Hnone. by right. }
  split; [done|]. unfold executeEnabledModules. by rewrite Hempty.
Qed.

Lemma forEachModule_completions (cb : ModuleResult → M C unit)
    (enabledModules : list (string * Instance W)) (current total : nat)
    (s : Run W C) :
  toleratesFailures (Some cb) →
  ∃ s' rs,
    forEachModule delay (λ _ c, c) context None (Some cb) enabledModules
      current total s = (Ok tt, s')
    ∧ results s' = results s ++ rs
    ∧ caller s' = foldl (λ c r, (cb r c).2) (caller s) rs.
Proof.
  intros Htol. revert current s.
  induction enabledModules as [|[id module] rest IH]; intros current s.
  - exists s, []. by rewrite app_nil_r.
  - simpl. unfold bind at 1.
    destruct (iteration_caller (λ _ c, c) context None (Some cb)
                (λ c, c = caller s) (λ c, c = caller s)
                id (self module) (S current) total s)
      as (o & r & s1 & c1 & -> & Hres & _ & -> & Hcaller & Ho); [done..|].
    assert (o = Ok tt) as ->.
    { rewrite Ho. destruct (success r) eqn:Hr; [done|].
      destruct (Htol cb eq_refl r (caller s) Hr) as [c' ->]. done. }
    unfold bind at 1, liftW at 1, modify at 1. simpl.
    destruct (IH (S current)
                {| world := delay 500 (world s1); caller := caller s1;
                   results := results s1 |}) as (s' & rs & -> & Hrs & Hc).
    exists s', (r :: rs). split; [done|]. simpl in *.
    rewrite Hrs, Hres, <- app_assoc. split; [done|].
    by rewrite Hc, Hcaller.
Qed.

(** X7.  With a completion callback that returns normally on failure
    results, no progress callback and no other handler in between, the run
    resolves, and the caller's state at the end is the one obtained by
    calling the completion callback once on each returned result, in
    order: the callback is called exactly once per module, after its result
    is complete, and what it throws on a success result is swallowed. *)
Theorem completion_callback_runs_once_per_result (cb : ModuleResult → M C unit)
    (this : ModuleManager W) (w : W) (c : C) :
  toleratesFailures (Some cb) →
  let run := executeEnabledModules delay (λ _ c, c) context None (Some cb)
               this w c in
  ∃ rs, run.1.1 = Ok rs ∧ run.2 = foldl (λ c r, (cb r c).2) c rs.
Proof.
  intros Htol. simpl. unfold executeEnabledModules, bind, gets.
  destruct (forEachModule_completions cb (getEnabledModules this) 0
              (length (getEnabledModules this))
              {| world := w; caller := c; results := [] |} Htol)
    as (s' & rs & -> & Hrs & Hc).
  simpl in *. exists rs. by rewrite Hrs, Hc.
Qed.

Lemma forEachModule_starts (interleaved : CallSite → C → C)
    (pc : ProgressUpdate → M C unit)
    (completionCallback : option (ModuleResult → M C unit))
    (log : C → list ProgressUpdate)
    (enabledModules : list (string * Instance W)) (current total : nat)
    (s : Run W C) :
  (∀ update c, ∃ c', pc update c = (Ok tt, c') ∧ log c' = log c ++ [update]) →
  (∀ site c, log (interleaved site c) = log c) →
  (∀ callback result c, completionCallback = Some callback →
     log (callback result c).2 = log c) →
  toleratesFailures completionCallback →
  ∃ s',
    forEachModule delay interleaved context (Some pc) completionCallback
      enabledModules current total s = (Ok tt, s')
    ∧ filter (λ u, isStart u = true) (log (caller s'))
      = filter (λ u, isStart u = true) (log (caller s))
        ++ imap (λ i e, MODULE_STARTED e.1 (name (self e.2)) (S (current + i)) total)
             enabledModules.
Proof.
  intros Hpc Hhandlers Hcompletion Htol. revert current s.
  induction enabledModules as [|[id module] rest IH]; intros current s.
  - exists s. by rewrite app_nil_r.
  - simpl. unfold bind at 1.
    set (L := filter (λ u, isStart u = true) (log (caller s))).
    destruct (iteration_caller interleaved context (Some pc) completionCallback
                (λ c, filter (λ u, isStart u = true) (log c) = L)
                (λ c, filter (λ u, isStart u = true) (log c)
                      = L ++ [MODULE_STARTED id (name (self module)) (S current) total])
                id (self module) (S current) total s)
      as (o & r & s1 & c1 & -> & Hres & _ & Hc1 & Hcaller).
    { intros c Hc. simpl.
      destruct (Hpc (MODULE_STARTED id (name (self module)) (S current) total)
                  (interleaved (AtStart (S current)) c)) as (c' & -> & Hlog).
      simpl. by rewrite Hlog, Hhandlers, filter_app, Hc. }
    { intros nth u c Hc. simpl.
      destruct (Hpc (Forwarded u) (interleaved (AtProgress (S current) nth) c))
        as (c' & -> & Hlog).
      simpl. rewrite Hlog, Hhandlers, filter_app, Hc. simpl. by rewrite app_nil_r. }
    { done. }
    assert (o = Ok tt
            ∧ filter (λ u, isStart u = true) (log (caller s1))
              = L ++ [MODULE_STARTED id (name (self module)) (S current) total])
      as [-> Hs1].
    { destruct completionCallback as [callback|] eqn:Hcb.
      - destruct Hcaller as [-> ->].
        rewrite (Hcompletion callback) by done. rewrite Hhandlers. split; [|done].
        destruct (success r) eqn:Hr; [done|].
        destruct (Htol callback eq_refl r
                    (interleaved (AtCompletion (S current)) c1) Hr) as [c' ->].
        done.
      - destruct Hcaller as [-> ->]. by rewrite Hhandlers. }
    unfold bind at 1, liftW at 1, modify at 1. simpl.
    destruct (IH (S current)
                {| world := delay 500 (world s1); caller := caller s1;
                   results := results s1 |}) as (s' & -> & Hs').
    exists s'. split; [done|]. rewrite Hs'. simpl. rewrite Hs1.
    rewrite <- app_assoc. simpl. rewrite Nat.add_0_r. do 2 f_equal.
    apply imap_ext. intros i e _. simpl. by rewrite Nat.add_succ_r.
Qed.

(** X6.  The start notifications of a run.  Let the progress callback
    record what it is called with and return normally, let the other
    handlers and the completion callback leave that record alone, and let
    the completion callback return normally on failure results.  Then the
    run resolves and the start notifications recorded during it are
    exactly one per enabled module, in order, carrying the module's
    identifier and name, its position counted from 1 as [current], and
    the number of enabled modules as [total].  (All else the callback
    receives are updates forwarded from the modules.) *)
Theorem started_notifications_count_up (interleaved : CallSite → C → C)
    (pc : ProgressUpdate → M C unit)
    (completionCallback : option (ModuleResult → M C unit))
    (log : C → list ProgressUpdate) (this : ModuleManager W) (w : W) (c : C) :
  (∀ update c, ∃ c', pc update c = (Ok tt, c') ∧ log c' = log c ++ [update]) →
  (∀ site c, log (interleaved site c) = log c) →
  (∀ callback result c, completionCallback = Some callback →
     log (callback result c).2 = log c) →
  toleratesFailures completionCallback →
  let enabled := getEnabledModules this in
  let run := executeEnabledModules delay interleaved context (Some pc)
               completionCallback this w c in
  (∃ rs, run.1.1 = Ok rs)
  ∧ filter (λ update, isStart update = true) (log run.2)
    = filter (λ update, isStart update = true) (log c)
      ++ imap (λ i e, MODULE_STARTED e.1 (name (self e.2)) (S i) (length enabled))
           enabled.
Proof.
  intros Hpc Hhandlers Hcompletion Htol. simpl.
  unfold executeEnabledModules, bind, gets.
  destruct (forEachModule_starts interleaved pc completionCallback log
              (getEnabledModules this) 0 (length (getEnabledModules this))
              {| world := w; caller := c; results := [] |}
              Hpc Hhandlers Hcompletion Htol) as (s' & -> & Hs').
  simpl in *. split; [by eexists|]. by rewrite Hs'.
Qed.

(** X8.  The call of the completion callback in the [catch] block is not
    guarded: when a module fails and the completion callback throws on its
    failure result, the loop stops there.  The promise of
    [executeEnabledModules] rejects with what the callback threw, the
    modules after the failed one are not run (not even the delay after the
    module is awaited), and the results gathered so far are not returned. *)
Theorem throwing_completion_callback_aborts_the_run
    (interleaved : CallSite → C → C)
    (progressCallback : option (ProgressUpdate → M C unit))
    (cb : ModuleResult → M C unit)
    pre id (module : Instance W) post current total s s1 message w' e :
  neverThrows progressCallback →
  (∀ c, (cb (failureResult id (self module) message) c).1 = Threw e) →
  forEachModule delay interleaved context progressCallback (Some cb) pre
    current total s = (Ok tt, s1) →
  StepFails context (self module) (world s1) message w' →
  ∃ c2,
    forEachModule delay interleaved context progressCallback (Some cb)
      (pre ++ (id, module) :: post) current total s
    = (Threw e, {| world := w'; caller := c2;
                   results := results s1 ++ [failureResult id (self module) message] |}).
Proof.
  intros Hq Hcb Hpre Hfail.
  apply StepFails_moduleOutcome in Hfail.
  rewrite forEachModule_app. unfold bind at 1. rewrite Hpre. simpl.
  unfold bind at 1, try_catch. rewrite tryBlock_gather. unfold bind at 1.
  destruct (gather_neverThrows interleaved context progressCallback id (self module)
              (S (current + length pre)) total s1 Hq) as [c1 ->].
  rewrite Hfail. simpl.
  unfold catchBlock, bind, push, atSite, modify, liftC, ret. simpl.
  specialize (Hcb (interleaved (AtCompletion (S (current + length pre))) c1)).
  destruct (cb _ _) as [o c2]. simpl in Hcb. subst o. by exists c2.
Qed.


End RunExtras.

Lemma nothing_enabled_nothing_runs_witness :
  getEnabledModules (enableModules ["reports"] Samples.manager) = []
  ∧ executeEnabledModules (λ _ w, w) (λ _ c, c) Samples.context None None
      (enableModules ["reports"] Samples.manager) 0 tt
    = (Ok [], 0, tt).
Proof.
  apply nothing_enabled_nothing_runs.
  intros id Hid. apply list_elem_of_singleton in Hid as ->. reflexivity.
Defined.

Lemma completion_callback_runs_once_per_result_witness :
  let run := executeEnabledModules (λ _ w, w) (λ _ c, c) Samples.context None
               (Some record) (enableModules ["licenses"; "profiles"] Samples.manager)
               0 [] in
  ∃ rs, run.1.1 = Ok rs ∧ run.2 = foldl (λ c r, (record r c).2) [] rs.
Proof.
  apply (completion_callback_runs_once_per_result (λ _ w, w) Samples.context record).
  intros f [= <-] r c _. eexists. reflexivity.
Defined.

Lemma throwing_completion_callback_aborts_the_run_witness :
  ∃ c2,
    forEachModule (λ _ w, w) (λ _ c, c) Samples.context None
      (Some (λ _, throw "download failed"))
      ([] ++ ("profiles", Samples.profiles) :: [("licenses", Samples.licenses)]) 0 2
      {| world := 0; caller := tt; results := [] |}
    = (Threw "download failed",
       {| world := 1; caller := c2;
          results := [] ++ [failureResult "profiles" (self Samples.profiles)
                              "link not found"] |}).
Proof.
  apply (throwing_completion_callback_aborts_the_run (λ _ w, w) Samples.context
           (λ _ c, c) None (λ _, throw "download failed") []
           "profiles" Samples.profiles [("licenses", Samples.licenses)] 0 2
           {| world := 0; caller := tt; results := [] |}
           {| world := 0; caller := tt; results := [] |}).
  - intros f [=].
  - intros c. reflexivity.
  - reflexivity.
  - eapply scrape_throws; reflexivity.
Defined.


Lemma started_notifications_count_up_witness :
  let this := enableModules ["licenses"; "profiles"] Samples.manager in
  let enabled := getEnabledModules this in
  let run := executeEnabledModules (λ _ w, w) (λ _ log, log) Samples.context
               (Some record) (Some (λ _, ret tt)) this 0 [] in
  (∃ rs, run.1.1 = Ok rs)
  ∧ filter (λ update, isStart update = true) run.2
    = filter (λ update, isStart update = true) []
      ++ imap (λ i e, MODULE_STARTED e.1 (name (self e.2)) (S i) (length enabled))
           enabled.
Proof.
  intros this.
  apply (started_notifications_count_up (λ _ w, w) Samples.context (λ _ log, log)
           record (Some (λ _, ret tt)) (λ log, log) this 0 []).
  - intros update c. eexists. split; reflexivity.
  - reflexivity.
  - intros callback result c [= <-]. reflexivity.
  - intros f [= <-] r c _. eexists. reflexivity.
Defined.

(** ** Further properties of the extraction job *)

Section CancelExtras.
Context {W : Type}.
Variable delay : Z → W → W.
Variable context : ExecutionContext.
Variable folderName : string.
Variable totalModules : nat.




End CancelExtras.


(** ** Further properties of the health-check module *)

Section HealthCheckExtras.
Import HealthCheck.
Context {Page : Type}.
Variable chrome : Chrome Page.
Variable context : ExecutionContext.

Lemma injections_app l1 l2 : injections (l1 ++ l2) = (injections l1 + injections l2)%nat.
Proof. induction l1 as [|[f o|ms] l1 IH]; simpl; lia. Qed.

Lemma slept_app l1 l2 : slept (l1 ++ l2) = (slept l1 + slept l2)%Z.
Proof. induction l1 as [|[f o|ms] l1 IH]; simpl; lia. Qed.

Lemma Within_bind {A B} calls1 ms1 calls2 ms2
    (m : M (Browser Page) A) (k : A → M (Browser Page) B) :
  (0 ≤ ms2)%Z →
  Within calls1 ms1 m → (∀ a, Within calls2 ms2 (k a)) →
  Within (calls1 + calls2) (ms1 + ms2) (bind m k).
Proof.
  intros Hms Hm Hk b. unfold bind. destruct (Hm b) as (new1 & Hev1 & Hc1 & Hs1).
  destruct (m b) as [[a|e] b1]; simpl in *.
  - destruct (Hk a b1) as (new2 & Hev2 & Hc2 & Hs2).
    exists (new1 ++ new2). rewrite Hev2, Hev1, <- app_assoc, injections_app, slept_app.
    split_and!; [done|lia|lia|lia].
  - exists new1. split_and!; [done|lia|lia|lia].
Qed.

Lemma Within_weaken {A} calls ms calls' ms' (m : M (Browser Page) A) :
  (calls ≤ calls')%nat → (ms ≤ ms')%Z → Within calls ms m → Within calls' ms' m.
Proof.
  intros Hc Hms Hm b. destruct (Hm b) as (new & ? & ? & ?).
  exists new. split_and!; [done|lia|lia|lia].
Qed.

Lemma Within_ret {A} (a : A) : Within 0 0 (ret (S := Browser Page) a).
Proof. intros b. exists []. simpl. by rewrite app_nil_r. Qed.

Lemma Within_throw {A} e : Within 0 0 (throw (S := Browser Page) (A := A) e).
Proof. intros b. exists []. simpl. by rewrite app_nil_r. Qed.

Lemma Within_executeScript func : Within 1 0 (executeScript chrome context func).
Proof.
  intros b. unfold executeScript.
  destruct (scripting_executeScript _ _ _ _ _) as [[o took] p].
  exists [Injected func o]. simpl. split_and!; [done|lia|lia|lia].
Qed.

Lemma Within_raceScrape : Within 1 0 (raceScrape chrome context).
Proof.
  intros b. unfold raceScrape.
  destruct (scripting_executeScript _ _ _ _ _) as [[o took] p].
  destruct (_ <? _)%Z; eexists [Injected scrapeHealthCheckDataFunc _]; simpl;
    (split_and!; [done|lia|lia|lia]).
Qed.

Lemma Within_delay ms : (0 ≤ ms)%Z → Within 0 ms (delay chrome ms).
Proof.
  intros Hms b. exists [Delayed ms]. simpl. split_and!; [done|lia|lia|lia].
Qed.

Lemma Within_waitForTables remaining retryCount :
  retryCount + remaining = maxRetries →
  Within remaining (5000 * (Z.of_nat remaining - 1))
    (waitForTables chrome context remaining retryCount)
  ∨ remaining = 0%nat.
Proof.
  revert retryCount. induction remaining as [|n IH]; intros retryCount Hinv; [by right|].
  left. simpl.
  eapply Within_weaken; [| |eapply (Within_bind 1 0 n (5000 * (Z.of_nat (S n) - 1)));
    [lia|apply Within_executeScript|]]; [lia|lia|].
  intros checkResult. destruct (readyOf checkResult).
  { eapply Within_weaken; [| |apply Within_ret]; lia. }
  destruct n as [|n].
  - assert ((S retryCount <? maxRetries)%nat = false) as -> by (apply Nat.ltb_ge; lia).
    simpl. eapply Within_weaken; [| |eapply (Within_bind 0 0 0 0);
      [lia|apply Within_ret|intros; apply Within_ret]]; lia.
  - assert ((S retryCount <? maxRetries)%nat = true) as -> by (apply Nat.ltb_lt; lia).
    destruct (IH (S retryCount)) as [IH'|]; [lia| |lia].
    eapply Within_weaken; [| |eapply (Within_bind 0 5000 (S n) _);
      [|apply Within_delay; lia|intros; apply IH']]; lia.
Qed.

Local Arguments looksLikeNoData : simpl never.
Local Arguments scrapingError : simpl never.

Lemma Within_scrapeWithRetry remaining attempt healthCheckData :
  attempt + remaining = S MAX_SCRAPE_ATTEMPTS →
  Within remaining (10000 * (Z.of_nat remaining - 1))
    (scrapeWithRetry chrome context remaining attempt healthCheckData)
  ∨ remaining = 0%nat.
Proof.
  revert attempt healthCheckData.
  induction remaining as [|n IH]; intros attempt healthCheckData Hinv; [by right|].
  left. simpl.
  eapply Within_weaken; [| |eapply (Within_bind 1 0 n (10000 * (Z.of_nat (S n) - 1)));
    [lia|apply Within_raceScrape|]]; [lia|lia|].
  intros dataResult. destruct (dataOf dataResult) as [data|].
  2:{ eapply Within_weaken; [| |apply Within_throw]; lia. }
  destruct (scrapingError data).
  { eapply Within_weaken; [| |apply Within_throw]; lia. }
  destruct (looksLikeNoData (Some data)); simpl.
  2:{ eapply Within_weaken; [| |apply Within_ret]; lia. }
  unfold MAX_SCRAPE_ATTEMPTS in *. destruct n as [|n].
  - assert ((attempt <? 3)%nat = false) as -> by (apply Nat.ltb_ge; lia).
    simpl. eapply Within_weaken; [| |eapply (Within_bind 0 0 0 0);
      [lia|apply Within_ret|intros; apply Within_ret]]; lia.
  - assert ((attempt <? 3)%nat = true) as -> by (apply Nat.ltb_lt; lia).
    destruct (IH (S attempt) (Some data)) as [IH'|]; [lia| |lia].
    eapply Within_weaken; [| |eapply (Within_bind 0 10000 (S n) _);
      [|apply Within_delay; unfold RETRY_WAIT_MS; lia|intros; apply IH']];
      unfold RETRY_WAIT_MS; lia.
Qed.

Lemma Within_scrapeStep : Within 3 20000 (scrapeStep chrome context).
Proof.
  unfold scrapeStep.
  destruct (Within_scrapeWithRetry MAX_SCRAPE_ATTEMPTS 1 None) as [H|H];
    [done| |done].
  eapply Within_weaken; [| |eapply (Within_bind 3 20000 0 0); [lia|exact H|]];
    [lia|lia|].
  intros [data|]; [apply Within_ret|apply Within_throw].
Qed.

Lemma Within_awaitTablesThenScrape :
  Within 10 55000 (awaitTablesThenScrape chrome context).
Proof.
  unfold awaitTablesThenScrape.
  destruct (Within_waitForTables maxRetries 0) as [H|H]; [done| |done].
  eapply Within_weaken; [| |eapply (Within_bind 6 25000 4 30000); [lia|exact H|]];
    [lia|lia|].
  intros tablesFound.
  eapply Within_weaken; [| |eapply (Within_bind 1 10000 3 20000);
    [lia| |intros; apply Within_scrapeStep]]; [lia|lia|].
  destruct tablesFound; [|eapply Within_weaken; [| |apply Within_ret]; lia].
  eapply Within_weaken; [| |eapply (Within_bind 1 0 0 10000);
    [lia|apply Within_executeScript|intros _]]; [lia|lia|].
  eapply Within_weaken; [| |eapply (Within_bind 0 2000 0 8000);
    [lia|apply Within_delay; lia|intros _; apply Within_delay; lia]]; lia.
Qed.

Lemma Within_scrapeBody : Within 12 69000 (scrapeBody chrome context).
Proof.
  unfold scrapeBody.
  eapply Within_weaken; [| |eapply (Within_bind 1 0 11 69000);
    [lia|apply Within_executeScript|]]; [lia|lia|].
  intros searchResult. destruct (negb _).
  { eapply Within_weaken; [| |apply Within_throw]; lia. }
  eapply Within_weaken; [| |eapply (Within_bind 0 2000 11 67000);
    [lia|apply Within_delay; lia|intros _]]; [lia|lia|].
  eapply Within_weaken; [| |eapply (Within_bind 1 0 10 67000);
    [lia|apply Within_executeScript|]]; [lia|lia|].
  intros clickResult. destruct (negb _).
  { eapply Within_weaken; [| |apply Within_throw]; lia. }
  eapply Within_weaken; [| |eapply (Within_bind 0 12000 10 55000);
    [lia|apply Within_delay; unfold INITIAL_PAGE_LOAD_MS; lia
    |intros _; apply Within_awaitTablesThenScrape]];
    unfold INITIAL_PAGE_LOAD_MS; lia.
Qed.

(** X11.  Whatever the page does, one call of the health-check module's
    [scrape] injects at most 12 scripts (search, click, 6 readiness checks,
    the expansion, 3 scrapes) and sleeps at most 69000 ms in its own
    delays, from the call to the end of its body: that is also so when the
    150 s timer has rejected the promise and the body goes on after it. *)
Theorem scrape_stays_within_its_budget (b : Browser Page) :
  ∃ new, events (afterBody (scrape chrome context b)) = events b ++ new
         ∧ (injections new ≤ 12)%nat
         ∧ (0 ≤ slept new ≤ 69000)%Z.
Proof.
  unfold scrape.
  destruct (tabs_get _ _ _ _) as [[[[]|e] took] p].
  - set (b0 := {| now := now b + Z.of_N took; page := p; events := events b |}).
    pose proof (Within_scrapeBody b0) as (new & Hev & Hc & Hs).
    destruct (scrapeBody chrome context b0) as [o b'].
    exists new. by destruct (now b' <? now b0 + 150000)%Z.
  - exists []. simpl. rewrite app_nil_r. split_and!; [done|lia|lia|lia].
Qed.

End HealthCheckExtras.

(** ** Texts, names and dates *)

Section TextFacts.
Implicit Types (s : list N) (u : N).

Lemma isolatedSpace_weaken s : isolated Utf16.isWhiteSpace 32 true s = true → isolated Utf16.isWhiteSpace 32 false s = true.
Proof.
  destruct s as [|u s]; [done|]. simpl. destruct (Utf16.isWhiteSpace u); [|done].
  by rewrite andb_false_r.
Qed.

Lemma isolatedSpace_replaceRuns inRun s :
  isolated Utf16.isWhiteSpace 32 inRun
    (Utf16.replaceRuns Utf16.isWhiteSpace (Utf16.units " ") inRun s) = true.
Proof.
  revert inRun. induction s as [|u s IH]; intros inRun; [done|]. simpl.
  destruct (Utf16.isWhiteSpace u) eqn:Hu.
  - destruct inRun; [apply IH|]. simpl. apply IH.
  - simpl. rewrite Hu. apply IH.
Qed.

Lemma trimStart_isolatedSpace s :
  isolated Utf16.isWhiteSpace 32 true s = true → Utf16.trimStart s = s.
Proof.
  destruct s as [|u s]; [done|]. simpl. destruct (Utf16.isWhiteSpace u); [|done].
  by rewrite andb_false_r.
Qed.

Lemma isolatedSpace_trimStart inRun s :
  isolated Utf16.isWhiteSpace 32 inRun s = true → isolated Utf16.isWhiteSpace 32 true (Utf16.trimStart s) = true.
Proof.
  destruct s as [|u s]; [done|]. simpl. destruct (Utf16.isWhiteSpace u) eqn:Hu.
  - intros (_ & H)%andb_prop. by rewrite (trimStart_isolatedSpace s).
  - intros H. simpl. by rewrite Hu.
Qed.

Lemma isolatedSpace_trimEnd inRun s :
  isolated Utf16.isWhiteSpace 32 inRun s = true → isolated Utf16.isWhiteSpace 32 inRun (Utf16.trimEnd s) = true.
Proof.
  revert inRun. induction s as [|u s IH]; intros inRun; [done|]. simpl.
  destruct (Utf16.isWhiteSpace u) eqn:Hu.
  - intros ((Hsp & Hrun)%andb_prop & H)%andb_prop. specialize (IH true H).
    destruct (Utf16.trimEnd s) as [|v kept]; [done|].
    simpl in *. rewrite Hu, Hsp, Hrun. done.
  - intros H. specialize (IH false H).
    destruct (Utf16.trimEnd s) as [|v kept]; simpl; by rewrite ?Hu.
Qed.

Lemma last_trimEnd s u :
  last (Utf16.trimEnd s) = Some u → Utf16.isWhiteSpace u = false.
Proof.
  revert u. induction s as [|v s IH]; intros u; [done|]. simpl.
  destruct (Utf16.trimEnd s) as [|w kept] eqn:Hk.
  - destruct (Utf16.isWhiteSpace v) eqn:Hv; [done|]. by intros [= <-].
  - rewrite last_cons. destruct (last (w :: kept)) as [x|] eqn:Hl.
    + intros [= <-]. by apply IH.
    + apply last_None in Hl. discriminate Hl.
Qed.

Lemma trimEnd_fixed s :
  (∀ u, last s = Some u → Utf16.isWhiteSpace u = false) → Utf16.trimEnd s = s.
Proof.
  induction s as [|v s IH]; [done|]. intros Hlast. simpl.
  destruct s as [|w s].
  - simpl. by rewrite (Hlast v).
  - rewrite IH; [done|]. intros u Hu. apply Hlast. by rewrite last_cons, Hu.
Qed.

Lemma replaceRuns_fixed inRun s :
  isolated Utf16.isWhiteSpace 32 inRun s = true →
  Utf16.replaceRuns Utf16.isWhiteSpace (Utf16.units " ") inRun s = s.
Proof.
  revert inRun. induction s as [|u s IH]; intros inRun; [done|]. simpl.
  destruct (Utf16.isWhiteSpace u).
  - intros ((Hsp & Hrun)%andb_prop & H)%andb_prop.
    apply N.eqb_eq in Hsp as ->. destruct inRun; [done|].
    simpl. by rewrite IH.
  - intros H. by rewrite IH.
Qed.

(** X12.  [sanitizeText] normalizes white space: in its result every white
    space character is a single U+0020 between two other characters (none
    at the start, none at the end, no two in a row), whatever white space
    the text had (tabs, line breaks, no-break spaces, ...); a text of that
    form is left as it is, so the function is idempotent; and an argument
    that is not a string gives the empty string. *)
Theorem sanitizeText_normalizes_white_space (text : list N) :
  let clean := Utils.sanitizeText (Some text) in
  isolated Utf16.isWhiteSpace 32 true clean = true
  ∧ (∀ u, last clean = Some u → Utf16.isWhiteSpace u = false)
  ∧ Utils.sanitizeText (Some clean) = clean
  ∧ Utils.sanitizeText None = [].
Proof.
  simpl. unfold Utf16.trim.
  set (collapsed := Utf16.replaceRuns _ _ _ text).
  assert (isolated Utf16.isWhiteSpace 32 true (Utf16.trimEnd (Utf16.trimStart collapsed)) = true) as H1.
  { eapply isolatedSpace_trimEnd, isolatedSpace_trimStart, isolatedSpace_replaceRuns. }
  split_and!; [done|apply last_trimEnd| |done].
  rewrite replaceRuns_fixed by by apply isolatedSpace_weaken.
  rewrite trimStart_isolatedSpace by done.
  apply trimEnd_fixed, last_trimEnd.
Qed.

Lemma foldl_setAdd {A} `{EqDecision A} (set l : list A) :
  NoDup set →
  NoDup (foldl Utils.setAdd set l)
  ∧ (∀ x, x ∈ foldl Utils.setAdd set l ↔ x ∈ set ∨ x ∈ l)
  ∧ (∃ new, foldl Utils.setAdd set l = set ++ new ∧ new `sublist_of` l).
Proof.
  revert set. induction l as [|y l IH]; intros set Hset; simpl.
  - split_and!; [done| |].
    + intros x. rewrite elem_of_nil. tauto.
    + exists []. by rewrite app_nil_r.
  - unfold Utils.setAdd at 2 4 6. destruct (decide (y ∈ set)) as [Hy|Hy].
    + destruct (IH set Hset) as (Hnd & Hin & new & Hnew & Hsub).
      split_and!; [done| |].
      * intros x. rewrite Hin, elem_of_cons. split; [tauto|].
        intros [?|[->|?]]; tauto.
      * exists new. split; [done|]. by apply sublist_cons.
    + destruct (IH (set ++ [y])) as (Hnd & Hin & new & Hnew & Hsub).
      { apply NoDup_app. split_and!; [done| |apply NoDup_singleton].
        intros x Hx ->%list_elem_of_singleton. done. }
      split_and!; [done| |].
      * intros x. rewrite Hin, elem_of_app, list_elem_of_singleton, elem_of_cons.
        tauto.
      * exists (y :: new). split; [by rewrite Hnew, <- app_assoc|].
        by apply sublist_skip.
Qed.

Lemma foldl_setAdd_fixed {A} `{EqDecision A} (set l : list A) :
  NoDup (set ++ l) → foldl Utils.setAdd set l = set ++ l.
Proof.
  revert set. induction l as [|y l IH]; intros set Hnd; simpl.
  - by rewrite app_nil_r.
  - unfold Utils.setAdd at 2. apply NoDup_app in Hnd as (Hset & Hdisj & Hl).
    destruct (decide (y ∈ set)) as [Hy|Hy].
    + destruct (Hdisj y Hy). by left.
    + rewrite IH; [by rewrite <- app_assoc|].
      rewrite <- app_assoc. simpl. apply NoDup_app. split_and!; [done| |done].
      intros x Hx. by apply Hdisj.
Qed.

(** X13.  [removeDuplicateUrls] returns the first occurrence of every
    element, in the order of the first occurrences: the result has no
    duplicates, has the same elements as the argument, is a sublist of it
    starting with the same element, and a list without duplicates (the
    result, for one) is returned unchanged. *)
Theorem removeDuplicateUrls_keeps_first_occurrences {A} `{EqDecision A}
    (urls : list A) :
  let unique := Utils.removeDuplicateUrls urls in
  NoDup unique
  ∧ (∀ url, url ∈ unique ↔ url ∈ urls)
  ∧ unique `sublist_of` urls
  ∧ head unique = head urls
  ∧ Utils.removeDuplicateUrls unique = unique
  ∧ (NoDup urls → unique = urls).
Proof.
  simpl. unfold Utils.removeDuplicateUrls.
  destruct (foldl_setAdd [] urls) as (Hnd & Hin & new & Hnew & Hsub);
    [apply NoDup_nil_2|].
  simpl in Hnew. split_and!.
  - done.
  - intros url. rewrite Hin, elem_of_nil. tauto.
  - by rewrite Hnew.
  - destruct urls as [|url urls]; [done|]. simpl.
    unfold Utils.setAdd at 2. simpl.
    destruct (foldl_setAdd [url] urls) as (_ & _ & new' & -> & _);
      [apply NoDup_singleton|]. done.
  - by apply foldl_setAdd_fixed.
  - intros Hurls. by apply foldl_setAdd_fixed.
Qed.

Lemma replaceEach_unsafe (l : list N) :
  Utf16.replaceEach (λ u, negb (isFilenameChar u)) (Utf16.units "_") l
  = (λ u, if isFilenameChar u then u else 95%N) <$> l.
Proof.
  unfold Utf16.replaceEach. induction l as [|u l IH]; [done|]. csimpl.
  rewrite IH. by destruct (isFilenameChar u).
Qed.

Lemma sanitizeFilename_safe (name : list N) :
  Forall (λ u, isFilenameChar u = true) (BackgroundNames.sanitizeFilename name).
Proof.
  unfold BackgroundNames.sanitizeFilename. rewrite replaceEach_unsafe.
  apply Forall_fmap, Forall_forall. intros u _. simpl.
  by destruct (isFilenameChar u) eqn:Hu.
Qed.

(** X14.  [sanitizeFilename] of background.js replaces character by
    character: the result has the length of the name, consists of ASCII
    letters, digits, [-] and [_] only, keeps every such character of the
    name at its place, and equals the name exactly when the name consists
    of such characters; hence the function is idempotent. *)
Theorem sanitizeFilename_keeps_safe_characters (name : list N) :
  let safe := BackgroundNames.sanitizeFilename name in
  length safe = length name
  ∧ Forall (λ u, isFilenameChar u = true) safe
  ∧ (∀ i u, name !! i = Some u → isFilenameChar u = true → safe !! i = Some u)
  ∧ (safe = name ↔ Forall (λ u, isFilenameChar u = true) name)
  ∧ BackgroundNames.sanitizeFilename safe = safe.
Proof.
  simpl. pose proof (sanitizeFilename_safe name) as Hsafe.
  unfold BackgroundNames.sanitizeFilename in *. rewrite !replaceEach_unsafe in *.
  assert (∀ l : list N, Forall (λ u, isFilenameChar u = true) l →
            (λ u, if isFilenameChar u then u else 95%N) <$> l = l) as Hfix.
  { induction 1 as [|u l Hu _ IH]; [done|]. csimpl. by rewrite Hu, IH. }
  split_and!.
  - by rewrite length_fmap.
  - done.
  - intros i u Hi Hu. rewrite list_lookup_fmap, Hi. simpl. by rewrite Hu.
  - split; [intros <-; done|apply Hfix].
  - by apply Hfix.
Qed.

Lemma replaceEach_Forall (P : N → Prop) class replacement s :
  Forall P replacement → (∀ u, u ∈ s → class u = false → P u) →
  Forall P (Utf16.replaceEach class replacement s).
Proof.
  intros Hr Hs. unfold Utf16.replaceEach. apply Forall_bind, Forall_forall.
  intros u Hu. simpl. destruct (class u) eqn:Hc; [exact Hr|].
  apply Forall_singleton. by apply Hs.
Qed.

Lemma replaceRuns_Forall (P : N → Prop) class replacement inRun s :
  Forall P replacement → (∀ u, u ∈ s → class u = false → P u) →
  Forall P (Utf16.replaceRuns class replacement inRun s).
Proof.
  intros Hr. revert inRun. induction s as [|u s IH]; intros inRun Hs; [done|].
  simpl. assert (∀ b, Forall P (Utf16.replaceRuns class replacement b s)) as Hrest.
  { intros b. apply IH. intros v Hv. apply Hs. by right. }
  destruct (class u) eqn:Hc.
  - destruct inRun; [done|]. by apply Forall_app.
  - constructor; [|done]. apply Hs; [by left|done].
Qed.

Lemma replaceEach_fixed class replacement s :
  Forall (λ u, class u = false) s → Utf16.replaceEach class replacement s = s.
Proof.
  unfold Utf16.replaceEach. induction 1 as [|u s Hu _ IH]; [done|].
  csimpl. by rewrite Hu, IH.
Qed.

Lemma replaceRuns_fixed_clean class replacement s :
  Forall (λ u, class u = false) s →
  Utf16.replaceRuns class replacement false s = s.
Proof.
  induction 1 as [|u s Hu _ IH]; [done|]. simpl. by rewrite Hu, IH.
Qed.

Lemma trimStart_suffix s : ∀ u, u ∈ Utf16.trimStart s → u ∈ s.
Proof.
  induction s as [|v s IH]; [done|]. simpl. intros u.
  destruct (Utf16.isWhiteSpace v); [|done]. intros Hu. right. by apply IH.
Qed.

Lemma trimEnd_prefix s : ∀ u, u ∈ Utf16.trimEnd s → u ∈ s.
Proof.
  induction s as [|v s IH]; [done|]. simpl. intros u.
  destruct (Utf16.trimEnd s) as [|w kept].
  - destruct (Utf16.isWhiteSpace v); [by intros ?%elem_of_nil|].
    intros ->%list_elem_of_singleton. by left.
  - intros [->|Hu]%elem_of_cons; [by left|]. right. by apply IH.
Qed.

Lemma isolated_replaceRuns class only inRun s :
  class only = true →
  isolated class only inRun (Utf16.replaceRuns class [only] inRun s) = true.
Proof.
  intros Honly. revert inRun. induction s as [|u s IH]; intros inRun; [done|]. simpl.
  destruct (class u) eqn:Hu.
  - destruct inRun; [apply IH|]. simpl. rewrite Honly, N.eqb_refl. apply IH.
  - simpl. rewrite Hu. apply IH.
Qed.

Lemma replaceEach_valid (name : list N) :
  Forall (λ u, isInvalidPathChar u = false)
    (Utf16.replaceEach isInvalidPathChar (Utf16.units "_") name).
Proof. apply replaceEach_Forall; [by repeat constructor|done]. Qed.

Lemma first_sanitizeFilename_valid (name : list N) :
  Forall (λ u, isInvalidPathChar u = false ∧ Utf16.isWhiteSpace u = false)
    (DownloadManager.sanitizeFilename name).
Proof.
  unfold DownloadManager.sanitizeFilename.
  apply replaceRuns_Forall; [by repeat constructor|].
  intros u Hu Hws. split; [|done].
  pose proof (replaceEach_valid name) as Hvalid.
  rewrite Forall_forall in Hvalid. by apply Hvalid.
Qed.

Lemma second_sanitizeFilename_valid (name : list N) :
  Forall (λ u, isInvalidPathChar u = false) (DownloadManager.sanitizeFilename' name).
Proof.
  unfold DownloadManager.sanitizeFilename'.
  set (collapsed := Utf16.replaceRuns _ _ _ _).
  assert (Forall (λ u, isInvalidPathChar u = false) collapsed) as Hc.
  { apply replaceRuns_Forall; [by repeat constructor|].
    intros u Hu _. pose proof (replaceEach_valid name) as Hvalid.
    rewrite Forall_forall in Hvalid.
    by apply Hvalid, trimStart_suffix, trimEnd_prefix. }
  destruct collapsed; [by repeat constructor|done].
Qed.

(** X15.  The two versions of [sanitizeFilename] of download-manager.js.
    The result of the first has none of the characters that are invalid in
    a file name and no white space, and is left unchanged by the function.
    The result of the second has none of the invalid characters either, is
    never empty, and has no two [_] in a row. *)
Theorem download_manager_names_are_valid (name : list N) :
  let first := DownloadManager.sanitizeFilename name in
  let second := DownloadManager.sanitizeFilename' name in
  Forall (λ u, isInvalidPathChar u = false ∧ Utf16.isWhiteSpace u = false) first
  ∧ DownloadManager.sanitizeFilename first = first
  ∧ Forall (λ u, isInvalidPathChar u = false) second
  ∧ second ≠ []
  ∧ isolated (N.eqb 95) 95 false second = true.
Proof.
  simpl. pose proof (first_sanitizeFilename_valid name) as Hfirst.
  split_and!.
  - done.
  - unfold DownloadManager.sanitizeFilename at 1.
    rewrite replaceEach_fixed by (eapply Forall_impl; [exact Hfirst|]; by intros u []).
    apply replaceRuns_fixed_clean. eapply Forall_impl; [exact Hfirst|]. by intros u [].
  - apply second_sanitizeFilename_valid.
  - unfold DownloadManager.sanitizeFilename'. by destruct (Utf16.replaceRuns _ _ _ _).
  - unfold DownloadManager.sanitizeFilename'.
    pose proof (isolated_replaceRuns (N.eqb 95) 95 false
      (Utf16.trim (Utf16.replaceEach isInvalidPathChar (Utf16.units "_") name))
      eq_refl) as H.
    change [95%N] with (Utf16.units "_") in H.
    by destruct (Utf16.replaceRuns _ _ _ _).
Qed.

Lemma civilFromDays_year (days : Z) :
  (-719528 ≤ days < 2932897)%Z →
  (0 ≤ (civilFromDays days).1.1 ≤ 9999)%Z.
Proof.
  intros Hd. unfold civilFromDays. cbv zeta.
  destruct (_ <? 10)%Z eqn:H1; destruct (_ <=? 2)%Z eqn:H2; simpl;
    rewrite ?Z.ltb_lt, ?Z.ltb_ge, ?Z.leb_le, ?Z.leb_gt in *.
  all: Z.div_mod_to_equations; lia.
Qed.

Lemma length_padStart width n : String.length (padStart width n) = width.
Proof.
  revert n. induction width as [|w IH]; intros n; [done|]. simpl.
  rewrite length_append, IH. simpl. lia.
Qed.

Lemma substring_append_exact (a b : string) :
  String.substring 0 (String.length a) (a +:+ b) = a.
Proof.
  induction a as [|c a IH]; simpl.
  - by destruct b.
  - rewrite ?append_cons. simpl. by rewrite IH.
Qed.

Lemma digit_isDigit n : isDigit (digit n) = true.
Proof.
  unfold digit, isDigit.
  assert (0 ≤ n mod 10 < 10)%Z as H by (apply Z.mod_pos_bound; lia).
  rewrite nat_ascii_embedding by lia.
  apply andb_true_intro. split; apply Nat.leb_le; lia.
Qed.

Lemma beforeT_append (a b : string) :
  Forall (λ c, c ≠ "T"%char) (list_ascii_of_string a) →
  beforeT (a +:+ String "T" b) = a.
Proof.
  induction a as [|c a IH]; intros Ha.
  - rewrite append_empty_l. simpl. done.
  - rewrite append_cons. simpl in *. apply Forall_cons in Ha as [Hc Ha].
    destruct (Ascii.eqb_spec c "T"); [done|]. by rewrite IH.
Qed.

Lemma padStart_chars width n :
  Forall (λ c, isDigit c = true) (list_ascii_of_string (padStart width n)).
Proof.
  revert n. induction width as [|w IH]; intros n; simpl; [constructor|].
  assert (∀ a b, list_ascii_of_string (a +:+ b)
                 = list_ascii_of_string a ++ list_ascii_of_string b) as Happ.
  { induction a as [|c a IHa]; intros b; [by rewrite append_empty_l|].
    rewrite append_cons. simpl. by rewrite IHa. }
  rewrite Happ. apply Forall_app. split; [apply IH|].
  repeat constructor. apply digit_isDigit.
Qed.

Lemma chars_append (a b : string) :
  list_ascii_of_string (a +:+ b) = list_ascii_of_string a ++ list_ascii_of_string b.
Proof.
  induction a as [|c a IHa]; [by rewrite append_empty_l|].
  rewrite append_cons. simpl. by rewrite IHa.
Qed.

Lemma isDigit_not_T c : isDigit c = true → c ≠ "T"%char.
Proof. intros H ->. discriminate H. Qed.

Lemma date_prefix (a b c rest : string) :
  a +:+ "-" +:+ b +:+ "-" +:+ c +:+ "T" +:+ rest
  = (a +:+ "-" +:+ b +:+ "-" +:+ c) +:+ String "T" rest.
Proof. rewrite !append_assoc. reflexivity. Qed.

(** X16.  For a time in the years 0 to 9999, [getCurrentDate()] of
    background.js is the UTC date of that time as [YYYY-MM-DD], ten
    characters, and the [getCurrentDate()] of download-manager.js returns the
    same text.  (Beyond these years [toISOString] writes a sign and six
    digits, of which the first function keeps ten characters only.) *)
Theorem getCurrentDate_is_the_utc_date (t : Z) :
  (-62167219200000 ≤ t < 253402300800000)%Z →
  let '(y, m, d) := civilFromDays (t / 86400000) in
  (0 ≤ y ≤ 9999)%Z
  ∧ getCurrentDate t
    = padStart 4 y +:+ "-" +:+ padStart 2 m +:+ "-" +:+ padStart 2 d
  ∧ String.length (getCurrentDate t) = 10%nat
  ∧ getCurrentDate' t = getCurrentDate t.
Proof.
  intros Ht.
  assert (-719528 ≤ t / 86400000 < 2932897)%Z as Hdays
    by (Z.div_mod_to_equations; lia).
  pose proof (civilFromDays_year _ Hdays) as Hy.
  unfold getCurrentDate, getCurrentDate', toISOString.
  destruct (civilFromDays (t / 86400000)) as [[y m] d]. simpl in Hy.
  unfold isoYear.
  assert (((0 <=? y) && (y <=? 9999))%Z = true) as ->
    by (apply andb_true_intro; split; apply Z.leb_le; lia).
  rewrite date_prefix.
  set (date := padStart 4 y +:+ "-" +:+ padStart 2 m +:+ "-" +:+ padStart 2 d).
  assert (String.length date = 10%nat) as Hlen.
  { unfold date. rewrite !length_append, !length_padStart. done. }
  assert (∀ rest, String.substring 0 10 (date +:+ rest) = date) as Hsub.
  { intros rest. rewrite <- Hlen at 1. apply substring_append_exact. }
  rewrite Hsub. split_and!; [lia|lia|done|done|].
  apply beforeT_append. unfold date. rewrite !chars_append.
  repeat apply Forall_app_2;
    try (eapply Forall_impl; [apply padStart_chars|apply isDigit_not_T]);
    by repeat constructor.
Qed.

Lemma getCurrentDate_is_the_utc_date_witness :
  let '(y, m, d) := civilFromDays (1768405512000 / 86400000) in
  (0 ≤ y ≤ 9999)%Z
  ∧ getCurrentDate 1768405512000
    = padStart 4 y +:+ "-" +:+ padStart 2 m +:+ "-" +:+ padStart 2 d
  ∧ String.length (getCurrentDate 1768405512000) = 10%nat
  ∧ getCurrentDate' 1768405512000 = getCurrentDate 1768405512000.
Proof. apply (getCurrentDate_is_the_utc_date 1768405512000). lia. Defined.

Lemma toISOString_chars (t : Z) :
  Forall (λ c, c ≠ "/"%char ∧ c ≠ "\"%char) (list_ascii_of_string (toISOString t)).
Proof.
  assert (∀ w n, Forall (λ c, c ≠ "/"%char ∧ c ≠ "\"%char)
                   (list_ascii_of_string (padStart w n))) as Hpad.
  { intros w n. eapply Forall_impl; [apply padStart_chars|].
    intros c Hc. split; intros ->; discriminate Hc. }
  unfold toISOString. destruct (civilFromDays _) as [[y m] d].
  unfold isoYear.
  destruct (_ && _); [|destruct (_ <? _)%Z];
    rewrite !chars_append;
    repeat apply Forall_app_2; try apply Hpad; by repeat constructor.
Qed.

Lemma substring_chars (P : ascii → Prop) n m (s : string) :
  Forall P (list_ascii_of_string s) →
  Forall P (list_ascii_of_string (String.substring n m s)).
Proof.
  revert n m. induction s as [|c s IH]; intros n m Hs.
  - by destruct n, m.
  - apply Forall_cons in Hs as [Hc Hs]. destruct n as [|n]; simpl.
    + destruct m as [|m]; simpl; [constructor|]. constructor; [done|].
      by apply IH.
    + by apply IH.
Qed.

Lemma units_chars (P : N → Prop) (Q : ascii → Prop) (s : string) :
  (∀ c, Q c → P (N_of_ascii c)) →
  Forall Q (list_ascii_of_string s) → Forall P (Utf16.units s).
Proof.
  intros HPQ Hs. unfold Utf16.units. apply Forall_fmap.
  eapply Forall_impl; [exact Hs|]. exact HPQ.
Qed.

Lemma separator_free_ascii c :
  c ≠ "/"%char ∧ c ≠ "\"%char → N_of_ascii c ≠ 47%N ∧ N_of_ascii c ≠ 92%N.
Proof.
  intros [H1 H2]. split; intros H; [apply H1|apply H2];
    rewrite <- (ascii_N_embedding c), H; reflexivity.
Qed.

(** X17.  Whatever the customer name and the time, and with any of the
    three [sanitizeFilename] functions of the repository, the folder name
    that [startExtraction] builds holds neither [/] nor [\]; so the path of
    the file of each registered module has one separator, the one between
    the folder and the file: every file of a run is saved directly in the
    folder of the run. *)
Theorem download_paths_stay_in_one_folder (customerName : list N) (t : Z)
    (c : ModuleClass) :
  Forall (λ sanitizeFilename,
            let folder := folderName sanitizeFilename customerName t in
            Forall (λ u, u ≠ 47%N ∧ u ≠ 92%N) folder
            ∧ ∃ file, filepath folder (classFilename c) = folder ++ [47%N] ++ file
                      ∧ Forall (λ u, u ≠ 47%N ∧ u ≠ 92%N) file)
    [ BackgroundNames.sanitizeFilename;
      DownloadManager.sanitizeFilename;
      DownloadManager.sanitizeFilename' ].
Proof.
  assert (Forall (λ u, u ≠ 47%N ∧ u ≠ 92%N) (Utf16.units (getCurrentDate t))) as Hdate.
  { eapply units_chars; [apply separator_free_ascii|].
    apply substring_chars, toISOString_chars. }
  assert (Forall (λ u, u ≠ 47%N ∧ u ≠ 92%N)
            (Utf16.units (classFilename c +:+ ".json"))) as Hfile.
  { destruct c; vm_compute; repeat constructor; discriminate. }
  assert (∀ sanitizeFilename,
            Forall (λ u, u ≠ 47%N ∧ u ≠ 92%N) (sanitizeFilename customerName) →
            let folder := folderName sanitizeFilename customerName t in
            Forall (λ u, u ≠ 47%N ∧ u ≠ 92%N) folder
            ∧ ∃ file, filepath folder (classFilename c) = folder ++ [47%N] ++ file
                      ∧ Forall (λ u, u ≠ 47%N ∧ u ≠ 92%N) file) as Hall.
  { intros sanitizeFilename Hs. simpl. split.
    - unfold folderName. repeat apply Forall_app_2; [done| |done].
      repeat constructor; discriminate.
    - by eexists. }
  repeat (apply Forall_cons; split); [apply Hall..|constructor].
  - eapply Forall_impl; [apply sanitizeFilename_safe|].
    intros u Hu. split; intros ->; discriminate Hu.
  - eapply Forall_impl; [apply first_sanitizeFilename_valid|].
    intros u [Hu _]. split; intros ->; discriminate Hu.
  - eapply Forall_impl; [apply second_sanitizeFilename_valid|].
    intros u Hu. split; intros ->; discriminate Hu.
Qed.

End TextFacts.

(** ** The profiles module *)

Section ProfilesFacts.
Import ProfilesScrape.
Context {W : Type}.
Variable tab : Tab W.

(** X18.  Whatever the pages show, the list [extractProfileLinks] resolves
    with holds no link twice. *)
Theorem extractProfileLinks_has_no_duplicates (tabId : Z) (w : W) :
  match (extractProfileLinks tab tabId w).1 with
  | Ok links => NoDup links
  | Threw _ => True
  end.
Proof.
  unfold extractProfileLinks.
  pose proof (NoDup_nil_2 (A := string)) as Hnd. revert Hnd.
  generalize (@nil string) as allLinks. revert w.
  induction maxPages as [|n IH]; intros w allLinks Hnd; [done|].
  simpl. unfold bind at 1.
  destruct (extractLinksFromPageFunc tab tabId w) as [[pageLinks|e] w1]; [|done].
  destruct pageLinks as [|link pageLinks].
  { destruct allLinks; [apply NoDup_nil_2|done]. }
  set (all := foldl Utils.setAdd allLinks (link :: pageLinks)).
  assert (NoDup all) as Hall by (by apply foldl_setAdd).
  unfold bind at 1.
  destruct (clickNextPageButtonFunc tab tabId w1) as [[hasNext|e] w2]; [|done].
  destruct hasNext; simpl; [|done].
  unfold bind at 1, delay at 1, modify at 1. by apply IH.
Qed.

End ProfilesFacts.

Section PagedFacts.
Import ProfilesScrape.

Lemma foldl_setAdd_app {A} `{EqDecision A} (set l1 l2 : list A) :
  foldl Utils.setAdd set (l1 ++ l2) = foldl Utils.setAdd (foldl Utils.setAdd set l1) l2.
Proof. apply foldl_app. Qed.

(** X19.  On a list of profiles shown page by page, [extractProfileLinks]
    resolves with the links of the pages up to the first empty one, each
    link once and in the order of first appearance, and reads 100 pages at
    most: the links that only the pages after the hundredth show are left
    out without notice. *)
Theorem extractProfileLinks_reads_at_most_100_pages (tabId : Z)
    (site : Paged (list string * Z)) :
  (extractProfileLinks paged tabId site).1
  = Ok (Utils.removeDuplicateUrls
          (concat (beforeEmpty (take 100 (fst <$> (shown site :: later site)))))).
Proof.
  unfold extractProfileLinks, Utils.removeDuplicateUrls.
  change 100%nat with maxPages.
  generalize (@nil string) as allLinks. revert site.
  induction maxPages as [|n IH]; intros site allLinks; [done|].
  simpl. unfold bind at 1, gets at 1.
  destruct (shown site).1 as [|link pageLinks] eqn:Hshown.
  { simpl. by destruct allLinks. }
  unfold bind at 1, next at 1. simpl.
  rewrite foldl_setAdd_app.
  destruct (later site) as [|page pages] eqn:Hlater; simpl.
  - rewrite take_nil. simpl. done.
  - unfold bind at 1, delay at 1, modify at 1. simpl.
    rewrite IH. simpl. done.
Qed.


Lemma countPages_paged tabId fuel totalCount (site : Paged (list string * Z)) :
  (length (later site) < fuel)%nat →
  countPages paged tabId fuel totalCount site
  = Some (Ok (totalCount + foldr Z.add 0%Z (snd <$> (shown site :: later site)))%Z,
          {| shown := default (shown site) (last (later site)); later := [] |}).
Proof.
  revert totalCount site. induction fuel as [|fuel IH]; intros totalCount site Hfuel;
    [lia|].
  destruct site as [page pages]. simpl in *.
  destruct pages as [|page' pages]; simpl.
  - do 3 f_equal. lia.
  - rewrite IH by (simpl in *; lia). simpl.
    assert (default page' (last pages) = default page (last (page' :: pages)))
      as -> by (rewrite last_cons; by destruct (last pages)).
    do 3 f_equal. lia.
Qed.

(** X20.  On a list of users shown page by page,
    [countActiveUsersWithPagination] resolves with the sum of the counts of
    all the pages, once it has gone through every page (which takes as many
    iterations of its loop as there are pages), and not before. *)
Theorem countActiveUsers_sums_the_pages (tabId : Z) (fuel : nat)
    (site : Paged (list string * Z)) :
  let pages := shown site :: later site in
  if decide (length pages ≤ fuel)%nat
  then ∃ site',
         countActiveUsersWithPagination paged tabId fuel site
         = Some (Ok (foldr Z.add 0%Z (snd <$> pages)), site')
  else countActiveUsersWithPagination paged tabId fuel site = None.
Proof.
  simpl. unfold countActiveUsersWithPagination. destruct (decide _) as [Hfuel|Hfuel].
  - rewrite countPages_paged by (simpl in Hfuel; lia). eauto.
  - generalize 0%Z as totalCount. revert site Hfuel.
    induction fuel as [|fuel IH]; intros site Hfuel totalCount; [done|].
    destruct site as [page [|page' pages]]; simpl in *; [lia|].
    apply IH. simpl. lia.
Qed.

End PagedFacts.

Section EndlessFacts.
Import ProfilesScrape.
Context {W : Type}.
Variable tab : Tab W.

(** X21.  The loop of [countActiveUsersWithPagination] has no page limit:
    as long as a count is read and a next-page button is found and
    clicked, it goes on; on a page that always offers one it never
    returns, whatever the number of iterations. *)
Theorem countActiveUsers_never_returns_while_next_is_found (tabId : Z) :
  (∀ w, ∃ pageCount w', countActiveUsersFunc tab tabId w = (Ok pageCount, w')) →
  (∀ w, ∃ w', clickNextPageButtonFunc tab tabId w = (Ok true, w')) →
  ∀ fuel w, countActiveUsersWithPagination tab tabId fuel w = None.
Proof.
  intros Hcount Hnext fuel. unfold countActiveUsersWithPagination.
  generalize 0%Z as totalCount.
  induction fuel as [|fuel IH]; intros totalCount w; [done|]. simpl.
  destruct (Hcount w) as (pageCount & w1 & ->).
  destruct (Hnext w1) as (w2 & ->). apply IH.
Qed.

End EndlessFacts.

Lemma countActiveUsers_never_returns_while_next_is_found_witness :
  ProfilesScrape.countActiveUsersWithPagination ProfilesScrape.endless 42 1000 0%nat
  = None.
Proof.
  apply (countActiveUsers_never_returns_while_next_is_found ProfilesScrape.endless 42).
  - intros w. eexists _, _. reflexivity.
  - intros w. eexists. reflexivity.
Defined.

Section ProgFacts.
Context {W : Type}.

Lemma settled_andThen {A B} (r : Res W A) (f : A → Prog W B) :
  settled (andThen r f)
  = match settled r with
    | (Ok a, w) => settled (f a w)
    | (Threw e, w) => (Threw e, w)
    end.
Proof. induction r as [[a|e] w|update k IH]; simpl; [done|done|apply IH]. Qed.

Lemma emitted_andThen {A B} (r : Res W A) (f : A → Prog W B) :
  emitted (andThen r f)
  = emitted r ++ match settled r with
                 | (Ok a, w) => emitted (f a w)
                 | (Threw e, w) => []
                 end.
Proof.
  induction r as [[a|e] w|update k IH]; simpl; [done|done|]. by rewrite IH.
Qed.

End ProgFacts.

Section ScrapeFacts.
Import ProfilesScrape.
Context {W : Type}.
Variable tab : Tab W.

Lemma scrapeEach_spec moduleName totalProfiles links i scrapedData w :
  ∃ entries w',
    settled (scrapeEach tab moduleName totalProfiles links i scrapedData w)
    = (Ok (scrapedData ++ entries), w')
    ∧ Forall2 (EntryFor tab) links entries
    ∧ emitted (scrapeEach tab moduleName totalProfiles links i scrapedData w)
      = imap (λ j _, progressUpdate moduleName (S (i + j)) totalProfiles) links.
Proof.
  revert i scrapedData w.
  induction links as [|url links IH]; intros i scrapedData w; simpl.
  - exists [], w. by rewrite app_nil_r.
  - unfold pbind, emit, quiet, try_catch, delay, modify, ret. simpl.
    destruct (scrapeProfile tab url w) as [[entry|message] w1] eqn:Hscrape; simpl.
    + destruct (IH (S i) (scrapedData ++ [entry]) (elapse tab 1000 w1))
        as (entries & w' & Hs & Hall & He).
      exists (entry :: entries), w'. rewrite Hs, He, <- app_assoc, Nat.add_0_r.
      split_and!; [done| |].
      * constructor; [|done]. left. eauto.
      * f_equal. apply imap_ext. intros j x _. simpl. f_equal. lia.
    + destruct (IH (S i) (scrapedData ++ [errorEntry url message])
                  (elapse tab 1000 w1)) as (entries & w' & Hs & Hall & He).
      exists (errorEntry url message :: entries), w'.
      rewrite Hs, He, <- app_assoc, Nat.add_0_r.
      split_and!; [done| |].
      * constructor; [|done]. right. eauto.
      * f_equal. apply imap_ext. intros j x _. simpl. f_equal. lia.
Qed.

Lemma wrapped_message {A} (m : M W A) (label : string) w e w' :
  try_catch m (λ message, throw (label +:+ message)) w = (Threw e, w') →
  ∃ cause, e = label +:+ cause.
Proof.
  unfold try_catch, throw. destruct (m w) as [[a|cause] w1]; [done|].
  intros [= <- _]. by exists cause.
Qed.

(** X22.  [scrape] of the profiles module, for callbacks that return.  When
    it resolves, the array has exactly one entry per link that
    [extractProfileLinks] found (there was at least one), in order: what
    [scrapeProfile] resolved with for the link, or, when it rejected, the
    entry named ERROR with the link and the message; so a profile that
    fails does not stop the others.  The progress updates sent are one per
    link, numbered from 1, with the number of links as total.  When it
    rejects, nothing was sent and the message says that the navigation to
    the list or the extraction of the links failed. *)
Theorem scrape_has_one_entry_per_profile (moduleName : string)
    (context : ExecutionContext) (w : W) :
  let run := scrape tab constructed moduleName context w in
  match (settled run).1 with
  | Ok entries =>
      ∃ links w1 w2,
        extractProfileLinks tab (tabId context) w1 = (Ok links, w2)
        ∧ links ≠ []
        ∧ Forall2 (EntryFor tab) links entries
        ∧ emitted run
          = imap (λ i _, progressUpdate moduleName (S i) (length links)) links
  | Threw message =>
      ((∃ cause, message = "Failed to navigate to Profiles page: " +:+ cause)
       ∨ (∃ cause, message = "Failed to extract profile links: " +:+ cause))
      ∧ emitted run = []
  end.
Proof.
  simpl. unfold scrape, pbind, quiet.
  destruct (navigate tab (tabId context) w) as [[[]|e] w1] eqn:Hnav; simpl.
  2:{ split; [|done]. left. eapply wrapped_message, Hnav. }
  destruct (findLinks tab (tabId context) w1) as [[links|e] w2] eqn:Hlinks; simpl.
  2:{ split; [|done]. right. eapply wrapped_message, Hlinks. }
  destruct (scrapeEach_spec moduleName (length links) links 0 []
              (set_extractedUrls tab links w2)) as (entries & w' & Hs & Hall & He).
  rewrite Hs, He. simpl.
  unfold findLinks, try_catch, bind in Hlinks.
  destruct (extractProfileLinks tab (tabId context) w1) as [[found|e] w3] eqn:Hfound;
    [|discriminate Hlinks].
  destruct found as [|link found]; [discriminate Hlinks|].
  unfold ret in Hlinks. injection Hlinks as <- <-.
  exists (link :: found), w1, w3. split_and!; done.
Qed.

End ScrapeFacts.

(** ** The general-information module *)

Section GeneralInfoFacts.
Import GeneralInfo GeneralInfoScrape.
Context {W : Type}.
Variable tab : Tab W.
Variable tabId : Z.

Ltac call :=
  match goal with
  | |- context [onPage ?m ?s] =>
      let o := fresh "o" in let w := fresh "w" in
      unfold onPage at 1; destruct (m (page s)) as [[o|o] w]; simpl
  end.

Ltac branch :=
  match goal with
  | |- context [if negb ?b then _ else _] => destruct b; simpl
  | |- context [match ?o with Some _ => _ | None => _ end] => destruct o; simpl
  end.

Lemma scrapeCompanyInfo_spec (s : State W) :
  ∃ s', scrapeCompanyInfo tab tabId s = (Ok tt, s')
        ∧ sites (this_data s') = sites (this_data s)
        ∧ releaseUpdates (this_data s') = releaseUpdates (this_data s)
        ∧ (companyInfo (this_data s) = companyInfo initial →
           companyFound (companyInfo (this_data s')) = false →
           companyInfo (this_data s') = companyInfo initial).
Proof.
  unfold scrapeCompanyInfo, try_catch, clickEither, bind, ret, delay,
    set_companyInfo, modify.
  repeat first [call | branch]; eauto 10.
  all: try (eexists; split_and!; [done|done|done|]; simpl; intros ->; done).
  all: repeat match goal with
             | |- context [match ?x with EmptyString => _ | String _ _ => _ end] =>
                 destruct x eqn:?
             end; simpl; eexists; (split_and!; [done|done|done|]); simpl;
       try done; intros ->; done.
Qed.

Lemma scrapeSingleSignOnInfo_spec (s : State W) :
  ∃ s', scrapeSingleSignOnInfo tab tabId s = (Ok tt, s')
        ∧ sites (this_data s') = sites (this_data s)
        ∧ releaseUpdates (this_data s') = releaseUpdates (this_data s)
        ∧ companyFound (companyInfo (this_data s'))
          = companyFound (companyInfo (this_data s))
        ∧ accountName (companyInfo (this_data s'))
          = accountName (companyInfo (this_data s))
        ∧ orgId (companyInfo (this_data s')) = orgId (companyInfo (this_data s))
        ∧ location (companyInfo (this_data s'))
          = location (companyInfo (this_data s))
        ∧ edition (companyInfo (this_data s')) = edition (companyInfo (this_data s)).
Proof.
  unfold scrapeSingleSignOnInfo, try_catch, clickEither, bind, ret, delay,
    set_companyInfo, modify.
  repeat first [call | branch]; eauto 12.
Qed.

Lemma scrapeSitesInfo_spec (s : State W) :
  ∃ s', scrapeSitesInfo tab tabId s = (Ok tt, s')
        ∧ companyInfo (this_data s') = companyInfo (this_data s)
        ∧ releaseUpdates (this_data s') = releaseUpdates (this_data s)
        ∧ (sitesError (sites (this_data s)) = None →
           sitesFound (sites (this_data s')) = true →
           sitesError (sites (this_data s')) = None).
Proof.
  unfold scrapeSitesInfo, try_catch, bind, ret, throw, delay, set_sites, modify.
  repeat first [call | branch]; eauto 10.
  all: eexists; (split_and!; [done|done|done|]); simpl; try done.
Qed.

Lemma scrapeReleaseUpdatesInfo_spec (s : State W) :
  ∃ s', scrapeReleaseUpdatesInfo tab tabId s = (Ok tt, s')
        ∧ companyInfo (this_data s') = companyInfo (this_data s)
        ∧ sites (this_data s') = sites (this_data s)
        ∧ (updatesError (releaseUpdates (this_data s)) = None →
           updatesFound (releaseUpdates (this_data s')) = true →
           updatesError (releaseUpdates (this_data s')) = None).
Proof.
  unfold scrapeReleaseUpdatesInfo, checkItem, try_catch, bind, ret, throw, delay,
    set_releaseUpdates, modify.
  repeat first [call | branch]; eauto 10.
  all: eexists; (split_and!; [done|done|done|]); simpl; try done.
Qed.

(** X23.  [scrape] of the general-information module never rejects,
    whatever the page does and whichever injected call is rejected: each of
    its four parts catches what it throws and records the failure in the
    data.  In the data it resolves with (which is [this.data]), sites or
    release updates that are marked found carry no error, and a company
    section that is not marked found has its four texts empty. *)
Theorem general_info_scrape_never_rejects (s : State W) :
  ∃ data s',
    scrape tab tabId s = (Ok data, s')
    ∧ this_data s' = data
    ∧ (companyFound (companyInfo data) = false →
       accountName (companyInfo data) = "" ∧ orgId (companyInfo data) = ""
       ∧ location (companyInfo data) = "" ∧ edition (companyInfo data) = "")
    ∧ (sitesFound (sites data) = true → sitesError (sites data) = None)
    ∧ (updatesFound (releaseUpdates data) = true →
       updatesError (releaseUpdates data) = None).
Proof.
  unfold scrape, bind at 1, modify at 1.
  set (s0 := {| page := page s; this_data := initial |}).
  destruct (scrapeCompanyInfo_spec s0) as (s1 & H1 & Hs1 & Hu1 & Hc1).
  destruct (scrapeSingleSignOnInfo_spec s1)
    as (s2 & H2 & Hs2 & Hu2 & Hf2 & Ha2 & Ho2 & Hl2 & He2).
  destruct (scrapeSitesInfo_spec s2) as (s3 & H3 & Hc3 & Hu3 & Hsites).
  destruct (scrapeReleaseUpdatesInfo_spec s3) as (s4 & H4 & Hc4 & Hs4 & Hupdates).
  unfold bind. rewrite H1, H2, H3, H4. unfold gets.
  exists (this_data s4), s4. split_and!; [done|done| | |].
  - rewrite Hc4, Hc3. intros Hfound. rewrite Hf2 in Hfound.
    rewrite Ha2, Ho2, Hl2, He2, (Hc1 eq_refl Hfound). done.
  - rewrite Hs4. apply Hsites. by rewrite Hs2, Hs1.
  - apply Hupdates. by rewrite Hu3, Hu2, Hu1.
Qed.

End GeneralInfoFacts.

(** ** Properties of [startExtraction] *)

Section RunInvariant.
Context {W C : Type}.
Variable delay : Z → W → W.
Variable interleaved : CallSite → C → C.
Variable context : ExecutionContext.
Variable progressCallback : option (ProgressUpdate → M C unit).
Variable completionCallback : option (ModuleResult → M C unit).

(** A property of the caller's state that the other handlers and both
    callbacks keep holds throughout the loop, also when the loop is left
    by an exception. *)
Lemma forEachModule_keeps (P : C → Prop)
    (enabledModules : list (string * Instance W)) (current total : nat)
    (s : Run W C) :
  (∀ site c, P c → P (interleaved site c)) →
  (∀ update c, P c → P (notify progressCallback update c).2) →
  (∀ callback result c, completionCallback = Some callback → P c →
     P (callback result c).2) →
  P (caller s) →
  P (caller (forEachModule delay interleaved context progressCallback
               completionCallback enabledModules current total s).2).
Proof.
  intros Hhandlers Hprogress Hcompletion. revert current s.
  induction enabledModules as [|[id module] rest IH]; intros current s Hs; [done|].
  simpl. unfold bind at 1.
  destruct (iteration_caller interleaved context progressCallback completionCallback
              P P id (self module) (S current) total s)
    as (o & r & s1 & c1 & -> & _ & _ & Hc1 & Hcaller); auto.
  assert (P (caller s1)) as Hs1.
  { destruct completionCallback as [callback|].
    - destruct Hcaller as [-> _]. eapply Hcompletion; auto.
    - destruct Hcaller as [_ ->]. auto. }
  destruct o as [[]|e]; [|done].
  unfold bind at 1, liftW at 1, modify at 1. simpl. by apply IH.
Qed.

End RunInvariant.

Section WorkerFacts.
Import Background Worker.
Context {W : Type}.
Variable delay : Z → W → W.
Variable interleaved : CallSite → State → State.
Variable resumed : State → State.
Variable sanitizeFilename : string → string.
Variable getCurrentDate : W → string.
Variable download : string → JsValue → M State Z.

Local Abbreviation startExtraction_ :=
  (startExtraction delay interleaved resumed sanitizeFilename getCurrentDate download).

Lemma some_loginHistory (results : list ModuleResult) :
  existsb (λ r, String.eqb (moduleId r) "login-history") results
  = bool_decide ("login-history" ∈ moduleId <$> results).
Proof.
  induction results as [|r rest IH]; [done|]. simpl. rewrite IH. csimpl.
  destruct (String.eqb_spec (moduleId r) "login-history") as [Heq|Hne]; simpl.
  - symmetry. apply bool_decide_eq_true. rewrite Heq. left.
  - apply bool_decide_ext. rewrite elem_of_cons. split; [tauto|]. by intros [?|?].
Qed.

Lemma progressCallback_keeps_job (update : ProgressUpdate) (b : State) :
  currentExtractionJob (progressCallback update b).2 = currentExtractionJob b.
Proof.
  unfold progressCallback, bind, gets, ret. simpl. by destruct (jobCancelled b).
Qed.

Lemma completionCallback_keeps_job (folderName : string) (totalModules : nat)
    (result : ModuleResult) (b : State) :
  (∀ path payload b', currentExtractionJob (download path payload b').2
                      = currentExtractionJob b') →
  currentExtractionJob (completionCallback download folderName totalModules result b).2
  = currentExtractionJob b.
Proof.
  intros Hdownload.
  unfold completionCallback, bind, gets, ret, incrementCompleted, modify,
    sendMessageToPopup, try_catch. simpl.
  destruct (jobCancelled b); [done|]. simpl.
  destruct (String.eqb _ _); [done|]. simpl.
  match goal with |- context [download ?p ?v ?b'] =>
    specialize (Hdownload p v b'); destruct (download p v b') as [[z|e] b1] end;
    simpl in *; done.
Qed.

(** X24.  [startExtraction] never sends [EXTRACTION_ERROR] and always ends
    idle.  Called while an extraction is active it does nothing.  Otherwise,
    whatever the modules, the download and the other handlers do, it
    returns with [isExtractionActive] false and no current job, the
    manager's selection being the one of [enableModules ids]; and either it
    has announced and requested nothing (the job was cancelled when the run
    was resumed), or it has announced [EXTRACTION_COMPLETE] once, with one
    result per registered id in the order of [ids] and the folder name, and
    has requested the upload settings, followed by the login analysis
    exactly when a result of login-history is among them. *)
Theorem startExtraction_never_reports_an_error (ids : list string)
    (customer : string) (tab : Z) (sv : Service W) :
  let sv' := startExtraction_ ids customer tab sv in
  let folderName := sanitizeFilename customer +:+ "_" +:+ getCurrentDate (tabWorld sv) in
  if isExtractionActive (globals sv) then sv' = sv
  else
    isExtractionActive (globals sv') = false
    ∧ currentExtractionJob (globals sv') = None
    ∧ moduleManager sv' = enableModules ids (moduleManager sv)
    ∧ (announced sv' = announced sv ∧ requested sv' = requested sv
       ∨ ∃ results,
           moduleId <$> results = filter (registered (modules (moduleManager sv))) ids
           ∧ announced sv' = announced sv ++ [EXTRACTION_COMPLETE results folderName]
           ∧ requested sv'
             = requested sv
                 ++ storage_local_get ["autoUploadToSheets"; "shareWithEmails"]
                 :: (if bool_decide ("login-history" ∈ moduleId <$> results)
                     then [fetch_run_login_analysis 15 folderName] else [])).
Proof.
  simpl. unfold startExtraction.
  destruct (isExtractionActive (globals sv)); [done|].
  set (folderName := sanitizeFilename customer +:+ "_" +:+ getCurrentDate (tabWorld sv)).
  set (started := beginJob ids customer tab (globals sv)).
  pose proof (executeEnabledModules_neverThrows delay interleaved
                {| tabId := tab; customerName := customer |}
                (Some progressCallback)
                (Some (completionCallback download folderName (length ids)))
                (enableModules ids (moduleManager sv)) (tabWorld sv) started
                progressCallback_neverThrows
                (neverThrows_toleratesFailures _
                   (completionCallback_neverThrows download folderName (length ids))))
    as Hrun.
  pose proof (runAll_ids delay {| tabId := tab; customerName := customer |}
                (getEnabledModules (enableModules ids (moduleManager sv)))
                (tabWorld sv)) as Hids.
  destruct (executeEnabledModules _ _ _ _ _ _ _ _) as [[settled w] b].
  simpl in Hrun. injection Hrun as -> ->.
  set (results := (runAll _ _ _ _).1) in *.
  rewrite getEnabledModules_enableModules, omap_lookup_fst in Hids.
  rewrite some_loginHistory.
  destruct (jobCancelled (resumed b)); simpl.
  - do 3 (split; [reflexivity|]). left. by rewrite !app_nil_r.
  - do 3 (split; [reflexivity|]). right. by exists results.
Qed.

(** X25.  An extraction that is not cancelled completes.  When no
    extraction is active and neither the other handlers nor the download
    touch the current job, [startExtraction] announces
    [EXTRACTION_COMPLETE] with one result per registered id of [ids], in
    their order, whether the modules succeed or fail; the login analysis is
    requested exactly when login-history is registered and among [ids]. *)
Theorem uninterrupted_extraction_completes (ids : list string) (customer : string)
    (tab : Z) (sv : Service W) :
  isExtractionActive (globals sv) = false →
  (∀ site b, currentExtractionJob (interleaved site b) = currentExtractionJob b) →
  (∀ b, currentExtractionJob (resumed b) = currentExtractionJob b) →
  (∀ path payload b, currentExtractionJob (download path payload b).2
                     = currentExtractionJob b) →
  let sv' := startExtraction_ ids customer tab sv in
  let folderName := sanitizeFilename customer +:+ "_" +:+ getCurrentDate (tabWorld sv) in
  ∃ results,
    moduleId <$> results = filter (registered (modules (moduleManager sv))) ids
    ∧ announced sv' = announced sv ++ [EXTRACTION_COMPLETE results folderName]
    ∧ requested sv'
      = requested sv
          ++ storage_local_get ["autoUploadToSheets"; "shareWithEmails"]
          :: (if bool_decide ("login-history" ∈ filter (registered (modules (moduleManager sv))) ids)
              then [fetch_run_login_analysis 15 folderName] else []).
Proof.
  intros Hidle Hhandlers Hresumed Hdownload. simpl. unfold startExtraction.
  rewrite Hidle.
  set (folderName := sanitizeFilename customer +:+ "_" +:+ getCurrentDate (tabWorld sv)).
  set (started := beginJob ids customer tab (globals sv)).
  set (context := {| tabId := tab; customerName := customer |}).
  set (manager := enableModules ids (moduleManager sv)).
  pose proof (executeEnabledModules_neverThrows delay interleaved context
                (Some progressCallback)
                (Some (completionCallback download folderName (length ids)))
                manager (tabWorld sv) started
                progressCallback_neverThrows
                (neverThrows_toleratesFailures _
                   (completionCallback_neverThrows download folderName (length ids))))
    as Hrun.
  assert (currentExtractionJob
            (caller (forEachModule delay interleaved context (Some progressCallback)
                       (Some (completionCallback download folderName (length ids)))
                       (getEnabledModules manager) 0 (length (getEnabledModules manager))
                       {| world := tabWorld sv; caller := started; results := [] |}).2)
          = currentExtractionJob started) as Hjob.
  { apply (forEachModule_keeps delay interleaved context (Some progressCallback)
             (Some (completionCallback download folderName (length ids)))
             (λ b, currentExtractionJob b = currentExtractionJob started)).
    - intros site c Hc. by rewrite Hhandlers.
    - intros update c Hc. simpl. by rewrite progressCallback_keeps_job.
    - intros callback result c [= <-] Hc. by rewrite completionCallback_keeps_job.
    - done. }
  pose proof (runAll_ids delay context (getEnabledModules manager) (tabWorld sv)) as Hids.
  unfold manager in Hids at 2.
  rewrite getEnabledModules_enableModules, omap_lookup_fst in Hids.
  unfold executeEnabledModules in *.
  unfold bind in Hrun |- *.
  destruct (forEachModule _ _ _ _ _ _ _ _ _) as [[[]|e] s1]; simpl in Hrun; [|done].
  injection Hrun as Hres Hw. simpl in *.
  unfold jobCancelled. rewrite Hresumed, Hjob. simpl.
  rewrite some_loginHistory, Hres.
  eexists. split; [exact Hids|]. by rewrite Hids.
Qed.

End WorkerFacts.

Lemma uninterrupted_extraction_completes_witness :
  let sv := {| Worker.globals :=
                 {| Background.isExtractionActive := false;
                    Background.currentExtractionJob := None;
                    Background.completedCount := 0;
                    Background.sent := [] |};
               Worker.moduleManager := Samples.manager;
               Worker.tabWorld := 0;
               Worker.announced := [];
               Worker.requested := [] |} in
  let sv' := Worker.startExtraction (λ _ w, w) (λ _ b, b) (λ b, b) (λ name, name)
               (λ _, "2026-01-14") Samples.download
               ["profiles"; "reports"; "licenses"] "Acme" 42 sv in
  ∃ results,
    moduleId <$> results
    = filter (registered (modules Samples.manager)) ["profiles"; "reports"; "licenses"]
    ∧ Worker.announced sv' = [Worker.EXTRACTION_COMPLETE results "Acme_2026-01-14"]
    ∧ Worker.requested sv'
      = Worker.storage_local_get ["autoUploadToSheets"; "shareWithEmails"]
        :: (if bool_decide
                 ("login-history"
                  ∈ filter (registered (modules Samples.manager))
                      ["profiles"; "reports"; "licenses"])
            then [Worker.fetch_run_login_analysis 15 "Acme_2026-01-14"] else []).
Proof.
  intros sv sv'.
  apply (uninterrupted_extraction_completes (λ _ w, w) (λ _ b, b) (λ b, b) (λ name, name)
           (λ _, "2026-01-14") Samples.download
           ["profiles"; "reports"; "licenses"] "Acme" 42 sv); reflexivity.
Defined.

(** ** Properties of the selection of the popup *)

Section PopupFacts.
Context {W : Type}.

Lemma registerAll_registered (entries : list (string * Instance W))
    (this : ModuleManager W) (id : string) :
  id ∈ entries.*1 ∨ registered (modules this) id →
  registered (modules (registerAll entries this)) id.
Proof.
  unfold registerAll. revert this.
  induction entries as [|[id' m] entries IH]; intros this; simpl.
  - intros [[]%elem_of_nil|H]. done.
  - intros Hid. apply IH.
    destruct (decide (id = id')) as [->|Hne].
    + right. exists m. simpl. apply lookup_insert_eq.
    + destruct Hid as [[?|?]%elem_of_cons|[m' Hm']]; [done|by left|].
      right. exists m'. simpl. by rewrite lookup_insert_ne.
Qed.

Lemma filter_all {A} (P : A → Prop) `{∀ x, Decision (P x)} (l : list A) :
  Forall P l → filter P l = l.
Proof.
  induction 1 as [|x l Hx Hl IH]; [done|].
  rewrite filter_cons_True by done. by rewrite IH.
Qed.

(** X26.  Every module checked in the popup is run, in the order of the
    popup.  Whatever the state of the nine check boxes, the list
    [getSelectedModules] returns has no duplicates and lists ids in the
    order in which background.js registers them, every one of them being
    registered; so after [enableModules] on the worker's manager the
    execution order is that list, and [getEnabledModules] returns exactly
    the checked modules in that order. *)
Theorem checked_modules_run_in_popup_order (new : ModuleClass → Instance W)
    (moduleCheckboxes : Popup.ModuleCheckboxes) :
  let selected := Popup.getSelectedModules moduleCheckboxes in
  let manager := enableModules selected (registrations new) in
  selected `sublist_of` registeredModules.*1
  ∧ NoDup selected
  ∧ executionOrder manager = selected
  ∧ (getEnabledModules manager).*1 = selected.
Proof.
  intros selected manager.
  assert (selected `sublist_of` registeredModules.*1) as Hsub.
  { unfold selected, Popup.getSelectedModules.
    destruct moduleCheckboxes as [[] [] [] [] [] [] [] [] []]; simpl;
      repeat first [apply sublist_nil | apply sublist_skip | apply sublist_cons]. }
  assert (filter (registered (modules (registrations new))) selected = selected) as Hreg.
  { apply filter_all. apply Forall_forall. intros id Hid.
    apply registerAll_registered. left.
    rewrite <- list_fmap_compose.
    eapply elem_of_sublist in Hid; [|exact Hsub].
    replace ((fst ∘ λ entry : string * ModuleClass, (entry.1, new entry.2)) <$> registeredModules)
      with (registeredModules.*1) by reflexivity. done. }
  split_and!.
  - done.
  - eapply sublist_NoDup; [|exact Hsub]. compute_done.
  - unfold manager. rewrite executionOrder_enableModules. done.
  - unfold manager. by rewrite getEnabledModules_enableModules, omap_lookup_fst.
Qed.

End PopupFacts.

(** ** Properties of [downloadModuleResults] *)

Section DownloadFacts.
Import DownloadResults.
Context {S : Type}.
Variable download : list N → Content → M S Z.

Lemma eachResult_spec (folderName : list N) (moduleResults : list ModuleResult)
    (downloadIds : list Z) (s : S) :
  eachResult download folderName moduleResults downloadIds s
  = (Ok (downloadIds ++ succeeded (outcomes download folderName moduleResults s)),
     foldl (λ s result, (attempt download folderName result s).2) s moduleResults).
Proof.
  revert downloadIds s.
  induction moduleResults as [|result rest IH]; intros downloadIds s; simpl.
  - by rewrite app_nil_r.
  - unfold bind at 1, try_catch, bind at 1, ret.
    destruct (attempt download folderName result s) as [[downloadId|message] s1];
      simpl; rewrite IH; [|done].
    by rewrite <- app_assoc.
Qed.

Lemma length_outcomes (folderName : list N) (moduleResults : list ModuleResult) (s : S) :
  length (outcomes download folderName moduleResults s) = length moduleResults.
Proof.
  revert s. induction moduleResults as [|result rest IH]; intros s; [done|].
  simpl. destruct (attempt download folderName result s) as [o s1]. simpl.
  by rewrite IH.
Qed.

Lemma length_succeeded (os : list (Outcome Z)) :
  (length (succeeded os) ≤ length os)%nat.
Proof. induction os as [|[id|message] os IH]; simpl; [lia|lia|]. fold (succeeded os). lia. Qed.

(** X27.  [downloadModuleResults] never rejects and a failed download does
    not stop it.  Whatever the downloads do, either version makes one
    download attempt per result, in order, each for the path
    folder/filename.json or folder/filename.txt, the folder being the
    sanitized customer name, an underscore and the UTC date, and resolves
    with the ids of the attempts that succeeded, in order: the array is
    shorter than the list of results when a download failed, and does not
    tell which. *)
Theorem downloadModuleResults_never_rejects (t : Z) (customerName : list N)
    (moduleResults : list ModuleResult) (s : S) :
  AttemptsEach download
    (DownloadManager.sanitizeFilename customerName
       ++ Utf16.units "_" ++ Utf16.units (getCurrentDate' t))
    moduleResults s
    (downloadModuleResults download t customerName moduleResults s)
  ∧ AttemptsEach download
      (DownloadManager.sanitizeFilename'
         (Utf16.replaceEach (N.eqb 95) (Utf16.units " ") customerName)
         ++ Utf16.units "_" ++ Utf16.units (getCurrentDate' t))
      moduleResults s
      (downloadModuleResults' download t customerName moduleResults s).
Proof.
  assert (∀ folderName,
    AttemptsEach download folderName moduleResults s
      (eachResult download folderName moduleResults [] s)) as Heach.
  { intros folderName. exists (outcomes download folderName moduleResults s).
    rewrite eachResult_spec.
    pose proof (length_outcomes folderName moduleResults s) as Hlen.
    pose proof (length_succeeded (outcomes download folderName moduleResults s)) as Hle.
    split_and!; [done|done|by rewrite <- Hlen|done]. }
  split; apply Heach.
Qed.

End DownloadFacts.

(** ** Properties of the license summary *)

Section LicenseFacts.
Import Licenses LicenseColumns.

Lemma locateColumns_missing (column : Column) (headers : list string)
    (found : Columns) (index : nat) :
  Forall (λ header, columnOf header ≠ Some column) headers →
  indexOf column (locateColumns found headers index) = indexOf column found.
Proof.
  revert found index.
  induction headers as [|header rest IH]; intros found index Hall; [done|].
  apply Forall_cons in Hall as [Hheader Hrest]. simpl. rewrite IH by done.
  unfold locateColumn, columnOf in *.
  destruct (includes "name" _); [by destruct column|].
  destruct (includes "total" _ && _); [by destruct column|].
  destruct (includes "used" _ && _); [by destruct column|]. done.
Qed.

Lemma add_exact (z u bound : Z) :
  (Z.abs z ≤ bound)%Z → (bound + Z.abs u ≤ 2 ^ 53)%Z →
  Number.add (Number.Int z) (Number.ofMathInt u) = Number.Int (z + u).
Proof.
  intros Hz Hu. unfold Number.ofMathInt.
  replace (Z.abs u <=? 2 ^ 53)%Z with true by (symmetry; apply Z.leb_le; lia).
  simpl. unfold Number.ofMathInt.
  replace (Z.abs (z + u) <=? 2 ^ 53)%Z with true by (symmetry; apply Z.leb_le; lia).
  done.
Qed.

Local Arguments Number.add : simpl never.
Local Arguments Number.ofMathInt : simpl never.

Lemma UpTo_weaken (bound bound' : Z) (x : Number.t) :
  UpTo bound x → (bound ≤ bound')%Z → UpTo bound' x.
Proof. intros (z & -> & Hz) Hb. exists z. split; [done|lia]. Qed.

Lemma UpTo_add (bound : Z) (x : Number.t) (u : Z) :
  UpTo bound x → (bound + Z.abs u ≤ 2 ^ 53)%Z →
  UpTo (bound + Z.abs u) (Number.add x (Number.ofMathInt u)).
Proof.
  intros (z & -> & Hz) Hu. rewrite (add_exact z u bound) by done.
  exists (z + u)%Z. split; [done|lia].
Qed.

Lemma add_swap (bound : Z) (x : Number.t) (u u' : Z) :
  UpTo bound x → (bound + Z.abs u + Z.abs u' ≤ 2 ^ 53)%Z →
  Number.add (Number.add x (Number.ofMathInt u)) (Number.ofMathInt u')
  = Number.add (Number.add x (Number.ofMathInt u')) (Number.ofMathInt u).
Proof.
  intros (z & -> & Hz) Hu.
  rewrite (add_exact z u bound), (add_exact z u' bound) by lia.
  rewrite (add_exact (z + u) u' (bound + Z.abs u)),
    (add_exact (z + u') u (bound + Z.abs u')) by lia.
  f_equal. lia.
Qed.

Lemma Exact_counts (bound : Z) (summary : Summary) :
  Exact bound summary ↔
  (UpTo bound (used (internal summary)) ∧ UpTo bound (total (internal summary)))
  ∧ (UpTo bound (used (integration summary))
     ∧ UpTo bound (total (integration summary)))
  ∧ (UpTo bound (used (external summary)) ∧ UpTo bound (total (external summary))).
Proof.
  unfold Exact. split.
  - intros H. split_and!; apply H; rewrite !elem_of_cons; tauto.
  - intros (H1 & H2 & H3) count. rewrite !elem_of_cons, elem_of_nil.
    intros [->|[->|[->|[]]]]; done.
Qed.

(** One row on exact counts: the counts stay exact, within the bound
    raised by what the row adds, and two rows commute. *)
Lemma countRow_exact (columns : Columns) (summary : Summary) (row : list string)
    (bound : Z) :
  Exact bound summary →
  (bound + magnitude columns [row] ≤ 2 ^ 53)%Z →
  Exact (bound + magnitude columns [row]) (countRow columns summary row).
Proof.
  intros ((U1 & T1) & (U2 & T2) & (U3 & T3))%Exact_counts Hrow.
  apply Exact_counts. unfold countRow, magnitude in *.
  destruct (nameIndex columns) as [n|], (totalLicensesIndex columns) as [t|],
    (usedLicensesIndex columns) as [u|]; simpl in *;
    try (split_and!; eapply UpTo_weaken; first [eassumption|lia]).
  unfold parseIntOrZero, add.
  set (du := mathIntOrZero (removeCommas (cell row u "0"))) in *.
  set (dt := mathIntOrZero (removeCommas (cell row t "0"))) in *.
  repeat case_bool_decide; simpl; split_and!;
    first [ eapply UpTo_weaken; [eassumption|lia]
          | eapply UpTo_weaken; [apply UpTo_add; [eassumption|lia]|lia] ].
Qed.

Lemma countRow_comm (columns : Columns) (summary : Summary) (row row' : list string)
    (bound : Z) :
  Exact bound summary →
  (bound + magnitude columns [row; row'] ≤ 2 ^ 53)%Z →
  countRow columns (countRow columns summary row) row'
  = countRow columns (countRow columns summary row') row.
Proof.
  intros ((U1 & T1) & (U2 & T2) & (U3 & T3))%Exact_counts Hrows.
  unfold countRow, magnitude in *.
  destruct (nameIndex columns) as [n|], (totalLicensesIndex columns) as [t|],
    (usedLicensesIndex columns) as [u|]; simpl in *; try done.
  unfold parseIntOrZero, add.
  set (du := mathIntOrZero (removeCommas (cell row u "0"))) in *.
  set (dt := mathIntOrZero (removeCommas (cell row t "0"))) in *.
  set (du' := mathIntOrZero (removeCommas (cell row' u "0"))) in *.
  set (dt' := mathIntOrZero (removeCommas (cell row' t "0"))) in *.
  repeat case_bool_decide; simpl; try done;
    f_equal; f_equal; eapply add_swap; first [eassumption|lia].
Qed.

Lemma magnitude_cons (columns : Columns) (row : list string)
    (rows : list (list string)) :
  magnitude columns (row :: rows)
  = (magnitude columns [row] + magnitude columns rows)%Z.
Proof.
  unfold magnitude.
  destruct (totalLicensesIndex columns), (usedLicensesIndex columns); simpl; lia.
Qed.

Lemma magnitude_nonneg (columns : Columns) (rows : list (list string)) :
  (0 ≤ magnitude columns rows)%Z.
Proof.
  induction rows as [|row rows IH]; [|rewrite magnitude_cons; revert IH];
    unfold magnitude;
    destruct (totalLicensesIndex columns), (usedLicensesIndex columns); simpl; lia.
Qed.

Lemma magnitude_permutation (columns : Columns) (rows rows' : list (list string)) :
  rows ≡ₚ rows' → magnitude columns rows = magnitude columns rows'.
Proof.
  induction 1 as [|row rows rows' _ IH|row row' rows|rows rows' rows'' _ IH _ IH'].
  - done.
  - by rewrite (magnitude_cons _ row rows), (magnitude_cons _ row rows'), IH.
  - rewrite (magnitude_cons _ row' (row :: rows)), (magnitude_cons _ row rows),
      (magnitude_cons _ row (row' :: rows)), (magnitude_cons _ row' rows). lia.
  - congruence.
Qed.

(** X28.  The summary needs all three columns.  When no header is taken
    for the name column, or none for the total column, or none for the used
    column (in particular when there are no headers), every row is skipped
    and the three categories of the summary are 0 used of 0, whatever the
    rows contain. *)
Theorem summary_is_zero_without_a_column (column : Column) (headers : list string)
    (rows : list (list string)) :
  Forall (λ header, columnOf header ≠ Some column) headers →
  calculateLicenseSummary {| Licenses.headers := headers; licenses := rows |} = zero.
Proof.
  intros Hall. unfold calculateLicenseSummary. simpl.
  pose proof (locateColumns_missing column headers
                {| nameIndex := None; totalLicensesIndex := None;
                   usedLicensesIndex := None |} 0 Hall) as Hcol.
  set (columns := locateColumns _ _ _) in *.
  assert (∀ summary row, countRow columns summary row = summary) as Hrow.
  { intros summary row. unfold countRow.
    destruct column; simpl in Hcol; rewrite ?Hcol; [done| |].
    - by destruct (nameIndex columns), (totalLicensesIndex columns).
    - by destruct (nameIndex columns), (totalLicensesIndex columns),
           (usedLicensesIndex columns). }
  fold zero. generalize zero.
  induction rows as [|row rest IH]; intros summary; [done|].
  simpl. by rewrite Hrow.
Qed.

(** X29.  As long as the sums stay exact, the license summary does not
    depend on the order of the rows of the table: that is so when the
    absolute values of the integers read in the used and total cells of
    the rows add up to 2^53 at most.  (Beyond that the sums are rounded
    and can depend on the order.) *)
Theorem summary_ignores_the_order_of_rows (headers : list string)
    (rows rows' : list (list string)) :
  rows ≡ₚ rows' →
  (magnitude (columnsOf headers) rows ≤ 2 ^ 53)%Z →
  calculateLicenseSummary {| Licenses.headers := headers; licenses := rows |}
  = calculateLicenseSummary {| Licenses.headers := headers; licenses := rows' |}.
Proof.
  intros Hperm. unfold calculateLicenseSummary, columnsOf. simpl.
  set (columns := locateColumns _ _ _). fold zero.
  assert (∀ summary bound,
            Exact bound summary →
            (bound + magnitude columns rows ≤ 2 ^ 53)%Z →
            foldl (countRow columns) summary rows
            = foldl (countRow columns) summary rows') as Hexact.
  { induction Hperm
      as [|row rows rows' _ IH|row row' rows|rows rows' rows'' H1 IH _ IH'];
      intros summary bound Hexact Hbound; simpl.
    - done.
    - rewrite magnitude_cons in Hbound.
      pose proof (magnitude_nonneg columns rows).
      apply (IH _ (bound + magnitude columns [row])%Z).
      + apply countRow_exact; [done|lia].
      + lia.
    - rewrite (countRow_comm _ _ row' row bound); [done|done|].
      rewrite (magnitude_cons _ row' (row :: rows)), (magnitude_cons _ row rows)
        in Hbound.
      rewrite (magnitude_cons _ row' [row]).
      pose proof (magnitude_nonneg columns rows). lia.
    - rewrite (IH _ bound) by done. apply (IH' _ bound); [done|].
      by rewrite <- (magnitude_permutation _ _ _ H1). }
  intros Hbound. apply (Hexact zero 0%Z); [|lia].
  apply Exact_counts. unfold UpTo. simpl. split_and!; by exists 0%Z.
Qed.

End LicenseFacts.

Lemma summary_is_zero_without_a_column_witness :
  Licenses.calculateLicenseSummary
    {| Licenses.headers := ["Name"; "Status"; "Total Licenses"];
       Licenses.licenses := [["Salesforce"; "Active"; "25"]] |}
  = LicenseColumns.zero.
Proof.
  apply (summary_is_zero_without_a_column LicenseColumns.Used).
  repeat (apply Forall_cons; split); [..|apply Forall_nil]; by vm_compute.
Defined.

(** Numbers as the report prints them. *)
Example numbers_as_printed :
  Number.toString (parseIntOrZero "1000") = "1000"
  ∧ Number.toString (parseIntOrZero "-12 seats") = "-12"
  ∧ Number.toString (parseIntOrZero "n/a") = "0"
  ∧ Number.toString (parseIntOrZero "9007199254740993") = "9007199254740992"
  ∧ Number.toString (parseIntOrZero "18446744073709551616") = "18446744073709552000"
  ∧ Number.toString (parseIntOrZero "999999999999999999999") = "1e+21"
  ∧ Number.toString (parseIntOrZero "123456789012345678901234")
    = "1.2345678901234569e+23"
  ∧ Number.toString
      (Number.add (Number.Infinity false) (Number.Infinity true)) = "NaN".
Proof. vm_compute. repeat split. Qed.

(** Beyond 2^53 the sums are rounded, and the order of the rows shows:
    2^53 + 1 + 1 is 2^53, and 1 + 1 + 2^53 is 2^53 + 2. *)
Example license_sums_are_rounded_beyond_2_53 :
  let headers := ["Name"; "Total Licenses"; "Used Licenses"] in
  let large := ["Salesforce"; "9,007,199,254,740,992"; "0"] in
  let one := ["Salesforce"; "1"; "0"] in
  Licenses.total
    (Licenses.internal
       (Licenses.calculateLicenseSummary
          {| Licenses.headers := headers; Licenses.licenses := [large; one; one] |}))
  = Number.Int 9007199254740992
  ∧ Licenses.total
      (Licenses.internal
         (Licenses.calculateLicenseSummary
            {| Licenses.headers := headers; Licenses.licenses := [one; one; large] |}))
    = Number.Int 9007199254740994.
Proof. vm_compute. split; reflexivity. Qed.

Lemma summary_ignores_the_order_of_rows_witness :
  Licenses.calculateLicenseSummary
    {| Licenses.headers := ["Name"; "Total Licenses"; "Used Licenses"];
       Licenses.licenses := [["Salesforce"; "25"; "20"];
                             ["Salesforce Platform"; "1,000"; "3"]] |}
  = Licenses.calculateLicenseSummary
      {| Licenses.headers := ["Name"; "Total Licenses"; "Used Licenses"];
         Licenses.licenses := [["Salesforce Platform"; "1,000"; "3"];
                               ["Salesforce"; "25"; "20"]] |}.
Proof.
  apply summary_ignores_the_order_of_rows; [apply perm_swap|].
  vm_compute. discriminate.
Defined.

(** ** Properties of [generateFilename] *)

Section FilenameFacts.
Import Filenames.

Lemma mapChars_append (f : ascii → ascii) (a b : string) :
  mapChars f (a +:+ b) = mapChars f a +:+ mapChars f b.
Proof.
  induction a as [|c a IH]; [by rewrite !append_empty_l|].
  simpl. rewrite !append_cons. simpl. by rewrite IH.
Qed.

Lemma dashed_padStart (width : nat) (n : Z) :
  mapChars dashed (padStart width n) = padStart width n.
Proof.
  revert n. induction width as [|w IH]; intros n; [done|]. simpl.
  rewrite mapChars_append, IH. simpl. do 2 f_equal.
  pose proof (digit_isDigit n) as Hd. unfold dashed.
  destruct (Ascii.eqb_spec (digit n) ":") as [Heq|_];
    [rewrite Heq in Hd; discriminate Hd|].
  destruct (Ascii.eqb_spec (digit n) ".") as [Heq|_];
    [rewrite Heq in Hd; discriminate Hd|]. done.
Qed.

(** X30.  For a time in the years 0 to 9999 the name [generateFilename]
    returns is the prefix, an underscore, the UTC date and time of the
    current second written [YYYY-MM-DDTHH-MM-SS], a dot and the extension:
    the milliseconds are dropped, so the name depends on the time through
    its whole second only, and two calls within the same second return the
    same name. *)
Theorem generateFilename_has_the_utc_second (prefix extension : option string)
    (t : Z) :
  (-62167219200000 ≤ t < 253402300800000)%Z →
  generateFilename prefix extension t
  = default "scraped_data" prefix +:+ "_" +:+ utcSecond (t / 1000)
      +:+ "." +:+ default "xlsx" extension.
Proof.
  intros Ht. unfold generateFilename, utcSecond, toISOString.
  replace (t / 1000 / 86400)%Z with (t / 86400000)%Z by (rewrite Z.div_div by lia; done).
  pose proof (civilFromDays_year (t / 86400000)) as Hyear.
  destruct (civilFromDays (t / 86400000)) as [[y m] d]. simpl in Hyear.
  assert (0 ≤ y ≤ 9999)%Z as Hy
    by (apply Hyear; split;
        [apply Z.div_le_lower_bound|apply Z.div_lt_upper_bound]; lia).
  unfold isoYear.
  replace ((0 <=? y)%Z && (y <=? 9999)%Z) with true
    by (symmetry; apply andb_true_intro; split; apply Z.leb_le; lia).
  set (ms := (t mod 86400000)%Z).
  set (s := ((t / 1000) mod 86400)%Z).
  assert (ms / 1000 = s)%Z as Hs by (unfold ms, s; Z.div_mod_to_equations; lia).
  replace (ms / 3600000)%Z with (s / 3600)%Z
    by (rewrite <- Hs, Z.div_div by lia; done).
  replace (ms / 60000)%Z with (s / 60)%Z
    by (rewrite <- Hs, Z.div_div by lia; done).
  rewrite Hs.
  set (kept := padStart 4 y +:+ "-" +:+ padStart 2 m +:+ "-" +:+ padStart 2 d +:+ "T"
                 +:+ padStart 2 (s / 3600) +:+ "-" +:+ padStart 2 ((s / 60) mod 60)
                 +:+ "-" +:+ padStart 2 (s mod 60)).
  set (Ms := padStart 3 (ms mod 1000)).
  assert (mapChars dashed
            (padStart 4 y +:+ "-" +:+ padStart 2 m +:+ "-" +:+ padStart 2 d +:+ "T"
               +:+ padStart 2 (s / 3600) +:+ ":" +:+ padStart 2 ((s / 60) mod 60)
               +:+ ":" +:+ padStart 2 (s mod 60) +:+ "." +:+ Ms +:+ "Z")
          = kept +:+ ("-" +:+ Ms +:+ "Z")) as ->.
  { unfold kept, Ms. rewrite !mapChars_append, !dashed_padStart.
    simpl. by rewrite !append_assoc. }
  unfold withoutLast.
  replace (String.length (kept +:+ "-" +:+ Ms +:+ "Z") - 5) with (String.length kept)
    by (unfold Ms; rewrite !length_append, !length_padStart; simpl; lia).
  by rewrite substring_append_exact.
Qed.

End FilenameFacts.

Lemma generateFilename_has_the_utc_second_witness :
  Filenames.generateFilename None (Some "csv") 1768405512345
  = "scraped_data_2026-01-14T15-45-12.csv".
Proof.
  rewrite (generateFilename_has_the_utc_second None (Some "csv") 1768405512345) by lia.
  reflexivity.
Defined.
